(** * Withdrawal activation service: queue-driven transaction processing

    A shallow embedding of [src/worker.js] (the two BullMQ workers and
    their event listeners), [src/services/withdrawal_manager.js]
    (intake and cancellation), the alerting service and the persisted
    entities of [src/prisma/schema.prisma].

    Conventions.
    - Every [await]ed call of the source is a computation in the monad
      [M]: it threads the [World] (the database tables, the alert sink
      and a chronological trace of the external calls) and either returns
      a value or throws an [Error].  A handler runs to its end without
      interleaving with another one.
    - The chain (ethers provider, wallet and contract) is external: its
      answers for one delivery are given by a [Chain] record.
    - Console output and the database-managed columns [createdAt],
      [updatedAt] and the [id]/[timestamp] of a history entry are left
      out: no decision of the code reads them. *)

From stdpp Require Import gmap strings list fin_maps pretty.
From Stdlib Require Import ZArith Lia Ascii.

Open Scope string_scope.
Open Scope list_scope.

(** ** Persisted entities ([prisma/schema.prisma]) *)

Record WithdrawalRequest := {
  wr_id : string;
  requestId : string;
  status : string;
  treasuryContractAddress : string;
  destinationAddress : string;
  tokenContractAddress : string;
  amount : string;
  partiallySignedTx : string;
  txHash : option string;
  errorMessage : option string
}.

(** One row of [HistoryEntry]; [he_requestId] is the foreign key to
    [WithdrawalRequest.id]. *)
Record HistoryEntry := {
  he_requestId : string;
  he_status : string
}.

Record RawTransactionBroadcast := {
  raw_id : string;
  clientId : option string;
  rawTx : string;
  raw_txHash : option string;
  raw_status : string;
  raw_errorMessage : option string
}.

(** ** Jobs

    A job of the broker: its identifier, the [data] payload [{ dbId }],
    the attempt counter and the options it was added with. *)

Inductive BackoffType := fixed | exponential.

Record BackoffOptions := {
  backoff_type : BackoffType;
  delay : Z
}.

(** The retry settings that the source writes down, wherever it does. *)
Record RetryOptions := {
  opt_attempts : option nat;
  opt_backoff : option BackoffOptions
}.

Record Job := {
  job_id : string;
  dbId : string;
  attemptsMade : nat;
  job_opts : RetryOptions
}.

(** ** Errors, results and the world *)

Record Error := { message : string }.

Inductive Result (A : Type) : Type :=
| Ok (a : A)
| Throw (e : Error).
Arguments Ok {A} a.
Arguments Throw {A} e.

(** The details object handed to [alertingService.sendAlert]. *)
Record AlertDetails := {
  jobId : string;
  databaseId : string;
  attempts : nat;
  error : string
}.

Record FeeData := {
  maxFeePerGas : option Z;
  maxPriorityFeePerGas : option Z
}.

Record TransactionResponse := { hash : string }.

(** What leaves the process, in the order it happens. *)
Inductive Event : Type :=
| EvDecimals (rpcUrl signer token : string)
| EvGetFeeData (rpcUrl : string)
| EvTransfer (rpcUrl signer token to : string) (value : Z) (overrides : FeeData)
| EvBroadcastTransaction (rpcUrl raw : string)
| EvWait (txhash : string) (confirms : nat)
| EvWithdrawalCreate (dbid : string)
| EvWithdrawalUpdate (dbid old_status new_status : string)
| EvRawCreate (dbid : string)
| EvRawUpdate (dbid old_status new_status : string)
| EvQueueAdd (queue name : string) (job : Job)
| EvActive (job : Job)
| EvDelayed (job : Job) (ms : Z)
| EvAlert (title : string) (details : AlertDetails).

Record World := {
  withdrawalRequests : gmap string WithdrawalRequest;
  historyEntries : list HistoryEntry;
  rawTransactionBroadcasts : gmap string RawTransactionBroadcast;
  cuids : nat;
  trace : list Event
}.

Definition emit (e : Event) (w : World) : World :=
  {| withdrawalRequests := withdrawalRequests w;
     historyEntries := historyEntries w;
     rawTransactionBroadcasts := rawTransactionBroadcasts w;
     cuids := cuids w;
     trace := trace w ++ [e] |}.

(** ** The state-and-exception monad of the handlers *)

Definition M (A : Type) : Type := World -> Result A * World.

Definition ret {A} (a : A) : M A := fun w => (Ok a, w).

Definition throw {A} (e : Error) : M A := fun w => (Throw e, w).

Definition bind {A B} (m : M A) (k : A -> M B) : M B :=
  fun w => match m w with
           | (Ok a, w') => k a w'
           | (Throw e, w') => (Throw e, w')
           end.

(** [try { m } catch (error) { h error }] *)
Definition try_catch {A} (m : M A) (h : Error -> M A) : M A :=
  fun w => match m w with
           | (Ok a, w') => (Ok a, w')
           | (Throw e, w') => h e w'
           end.

Definition log (e : Event) : M unit := fun w => (Ok tt, emit e w).

(** Lifts the answer of an external call into the monad. *)
Definition await {A} (r : Result A) : M A := fun w => (r, w).

Declare Scope js_scope.
Delimit Scope js_scope with js.
Notation "x <- m ;; k" := (bind m (fun x => k))
  (at level 100, m at next level, right associativity) : js_scope.
Notation "m ;;; k" := (bind m (fun _ => k))
  (at level 100, right associativity) : js_scope.
Open Scope js_scope.

(** ** The Prisma client *)

(** The [data] object of [prisma.withdrawalRequest.update]: a field that
    is [None] is not written; [history: { create: { status } }] is
    [u_history]. *)
Record WithdrawalUpdate := {
  u_status : option string;
  u_txHash : option (option string);
  u_errorMessage : option (option string);
  u_history : option string
}.

Definition apply_update (d : WithdrawalUpdate) (r : WithdrawalRequest)
  : WithdrawalRequest :=
  {| wr_id := wr_id r;
     requestId := requestId r;
     status := default (status r) (u_status d);
     treasuryContractAddress := treasuryContractAddress r;
     destinationAddress := destinationAddress r;
     tokenContractAddress := tokenContractAddress r;
     amount := amount r;
     partiallySignedTx := partiallySignedTx r;
     txHash := default (txHash r) (u_txHash d);
     errorMessage := default (errorMessage r) (u_errorMessage d) |}.

Definition history_create (dbid : string) (h : option string)
  : list HistoryEntry :=
  match h with
  | Some s => [ {| he_requestId := dbid; he_status := s |} ]
  | None => []
  end.

Definition record_not_found : Error :=
  {| message := "Record to update not found." |}.

(** [prisma.withdrawalRequest.findUnique({ where: { id } })] *)
Definition withdrawalRequest_findUnique (dbid : string)
  : M (option WithdrawalRequest) :=
  fun w => (Ok (withdrawalRequests w !! dbid), w).

(** [prisma.withdrawalRequest.update({ where: { id }, data })]: one atomic
    write of the row and of the nested history entry; it throws when no
    row has that id. *)
Definition withdrawalRequest_update (dbid : string) (d : WithdrawalUpdate)
  : M WithdrawalRequest :=
  fun w =>
    match withdrawalRequests w !! dbid with
    | None => (Throw record_not_found, w)
    | Some r =>
        let r' := apply_update d r in
        (Ok r',
         {| withdrawalRequests := <[dbid := r']> (withdrawalRequests w);
            historyEntries := historyEntries w ++ history_create dbid (u_history d);
            rawTransactionBroadcasts := rawTransactionBroadcasts w;
            cuids := cuids w;
            trace := trace w ++ [EvWithdrawalUpdate dbid (status r) (status r')] |})
    end.

(** The [data] object of [prisma.rawTransactionBroadcast.update]. *)
Record RawUpdate := {
  ru_status : option string;
  ru_txHash : option (option string);
  ru_errorMessage : option (option string)
}.

Definition apply_raw_update (d : RawUpdate) (r : RawTransactionBroadcast)
  : RawTransactionBroadcast :=
  {| raw_id := raw_id r;
     clientId := clientId r;
     rawTx := rawTx r;
     raw_txHash := default (raw_txHash r) (ru_txHash d);
     raw_status := default (raw_status r) (ru_status d);
     raw_errorMessage := default (raw_errorMessage r) (ru_errorMessage d) |}.

Definition unique_constraint_failed : Error :=
  {| message := "Unique constraint failed on the fields: (`tx_hash`)" |}.

(** [txHash String? @unique]: does a row other than [dbid] already hold
    the hash [h]? *)
Definition txHash_taken (t : gmap string RawTransactionBroadcast)
    (dbid : string) (h : option string) : bool :=
  match h with
  | None => false
  | Some _ =>
      bool_decide (∃ k r, t !! k = Some r ∧ k ≠ dbid ∧ raw_txHash r = h)
  end.

(** [prisma.rawTransactionBroadcast.findUnique({ where: { id } })] *)
Definition rawTransactionBroadcast_findUnique (dbid : string)
  : M (option RawTransactionBroadcast) :=
  fun w => (Ok (rawTransactionBroadcasts w !! dbid), w).

(** [prisma.rawTransactionBroadcast.update({ where: { id }, data })] *)
Definition rawTransactionBroadcast_update (dbid : string) (d : RawUpdate)
  : M RawTransactionBroadcast :=
  fun w =>
    match rawTransactionBroadcasts w !! dbid with
    | None => (Throw record_not_found, w)
    | Some r =>
        let r' := apply_raw_update d r in
        if txHash_taken (rawTransactionBroadcasts w) dbid (raw_txHash r')
        then (Throw unique_constraint_failed, w)
        else
          (Ok r',
           {| withdrawalRequests := withdrawalRequests w;
              historyEntries := historyEntries w;
              rawTransactionBroadcasts := <[dbid := r']> (rawTransactionBroadcasts w);
              cuids := cuids w;
              trace := trace w ++ [EvRawUpdate dbid (raw_status r) (raw_status r')] |})
    end.

(** ** The alerting service *)

(** [alertingService.sendAlert(title, details)]: the alert is printed; the
    webhook branch has an empty body. *)
Definition sendAlert (title : string) (details : AlertDetails) : M unit :=
  log (EvAlert title details).

(** ** Process environment, ethers and the chain *)

(** [process.env]: the variables that the worker reads.  A variable that
    is not set is the empty string here; [new ethers.JsonRpcProvider]
    accepts any url and connects on the first call only. *)
Record Env := {
  ETHEREUM_NETWORK : option string;
  MAINNET_RPC_URL : string;
  SEPOLIA_RPC_URL : string;
  SERVICE_WALLET_PRIVATE_KEY : string
}.

(** [process.env.ETHEREUM_NETWORK || 'sepolia'] *)
Definition network (env : Env) : string :=
  match ETHEREUM_NETWORK env with
  | Some n => if bool_decide (n = "") then "sepolia" else n
  | None => "sepolia"
  end.

(** [network === 'mainnet' ? MAINNET_RPC_URL : SEPOLIA_RPC_URL] *)
Definition rpcUrl_of (env : Env) : string :=
  if bool_decide (network env = "mainnet")
  then MAINNET_RPC_URL env else SEPOLIA_RPC_URL env.

(** The functions of the ethers library that the worker calls without a
    round trip to the node.  All three throw: [new ethers.Wallet(key,
    provider)] on a key that is not a private key, [parseUnits] on a
    string that is not a decimal numeral or has more fractional digits
    than [decimals], [formatUnits] on a value that is [null].  A wallet
    is identified with its key, so the constructor is modelled by what it
    decides: whether it throws. *)
Record Ethers := {
  new_Wallet : string -> Result unit;
  parseUnits : string -> Z -> Result Z;
  formatUnits : option Z -> string -> Result string
}.

(** The answers of the JSON-RPC node during one delivery. *)
Record Chain := {
  decimals : string -> Result Z;
  getFeeData : Result FeeData;
  transfer : string -> string -> Z -> FeeData -> Result TransactionResponse;
  wait : string -> nat -> Result unit;
  broadcastTransaction : string -> Result TransactionResponse
}.

(** An external call: it is recorded, then its answer is awaited. *)
Definition call {A} (e : Event) (r : Result A) : M A :=
  (log e ;;; await r).

(** ** The workers ([worker.js]) *)

Section Workers.

Variable ethers : Ethers.
Variable env : Env.

(** [\['COMPLETED', 'CANCELLED'\].includes(request.status)] *)
Definition in_final_state (s : string) : bool :=
  bool_decide (s ∈ ["COMPLETED"; "CANCELLED"]).

(** The chain part of the [try] block: token decimals, amount in minimal
    units, fee data (printed with [formatUnits]) and the [transfer] call
    of the token contract, signed by the service wallet. *)
Definition submit_transfer (chain : Chain) (request : WithdrawalRequest)
  : M TransactionResponse :=
  let rpcUrl := rpcUrl_of env in
  let serviceWallet := SERVICE_WALLET_PRIVATE_KEY env in
  let token := tokenContractAddress request in
  decimals <- call (EvDecimals rpcUrl serviceWallet token)
                   (decimals chain token) ;;
  tokenAmount <- await (parseUnits ethers (amount request) decimals) ;;
  feeData <- call (EvGetFeeData rpcUrl) (getFeeData chain) ;;
  (await (formatUnits ethers (maxFeePerGas feeData) "gwei")) ;;;
  (await (formatUnits ethers (maxPriorityFeePerGas feeData) "gwei")) ;;;
  let txOverrides :=
    {| maxFeePerGas := maxFeePerGas feeData;
       maxPriorityFeePerGas := maxPriorityFeePerGas feeData |} in
  call (EvTransfer rpcUrl serviceWallet token
          (destinationAddress request) tokenAmount txOverrides)
       (transfer chain token (destinationAddress request)
          tokenAmount txOverrides).

Definition to_PROCESSING : WithdrawalUpdate :=
  {| u_status := Some "PROCESSING";
     u_txHash := None;
     u_errorMessage := Some None;
     u_history := Some "PROCESSING" |}.

Definition to_BROADCASTED (h : string) : WithdrawalUpdate :=
  {| u_status := Some "BROADCASTED";
     u_txHash := Some (Some h);
     u_errorMessage := None;
     u_history := Some "BROADCASTED" |}.

Definition to_COMPLETED : WithdrawalUpdate :=
  {| u_status := Some "COMPLETED";
     u_txHash := None;
     u_errorMessage := None;
     u_history := Some "COMPLETED" |}.

(** The body of the [try] block of the withdrawal processor. *)
Definition multiSigWorker_try (chain : Chain) (job : Job)
    (request : WithdrawalRequest) : M unit :=
  (if bool_decide (attemptsMade job = 0)
   then (withdrawalRequest_update (dbId job) to_PROCESSING ;;; ret tt)
   else ret tt) ;;;
  txResponse <- submit_transfer chain request ;;
  (withdrawalRequest_update (dbId job) (to_BROADCASTED (hash txResponse))) ;;;
  (call (EvWait (hash txResponse) 1) (wait chain (hash txResponse) 1)) ;;;
  (withdrawalRequest_update (dbId job) to_COMPLETED) ;;;
  ret tt.

(** The processor of the ['withdrawal-processing'] worker: load, skip a
    request in a final state, otherwise build the provider and the
    service wallet, which throws on a key that is none, then run the [try]
    block and rethrow what it throws. *)
Definition multiSigWorker (chain : Chain) (job : Job) : M unit :=
  request <- withdrawalRequest_findUnique (dbId job) ;;
  match request with
  | None => ret tt
  | Some request =>
      if in_final_state (status request) then ret tt
      else
        (await (new_Wallet ethers (SERVICE_WALLET_PRIVATE_KEY env))) ;;;
        try_catch (multiSigWorker_try chain job request)
                  (fun error => throw error)
  end.

(** The body of the [try] block of the raw-broadcast processor. *)
Definition rawTxBroadcastWorker_try (chain : Chain) (job : Job)
    (request : RawTransactionBroadcast) : M unit :=
  let rpcUrl := rpcUrl_of env in
  txResponse <-
    call (EvBroadcastTransaction rpcUrl (rawTx request))
         (broadcastTransaction chain (rawTx request)) ;;
  (rawTransactionBroadcast_update (dbId job)
     {| ru_status := Some "BROADCASTED";
        ru_txHash := Some (Some (hash txResponse));
        ru_errorMessage := None |}) ;;;
  (call (EvWait (hash txResponse) 1) (wait chain (hash txResponse) 1)) ;;;
  (rawTransactionBroadcast_update (dbId job)
     {| ru_status := Some "CONFIRMED";
        ru_txHash := None;
        ru_errorMessage := None |}) ;;;
  ret tt.

(** The processor of the ['raw-tx-broadcasting'] worker. *)
Definition rawTxBroadcastWorker (chain : Chain) (job : Job) : M unit :=
  request <- rawTransactionBroadcast_findUnique (dbId job) ;;
  match request with
  | None => ret tt
  | Some request =>
      if bool_decide (raw_status request ≠ "PENDING") then ret tt
      else try_catch (rawTxBroadcastWorker_try chain job request)
                     (fun error => throw error)
  end.

Definition to_FAILED (msg : string) : WithdrawalUpdate :=
  {| u_status := Some "FAILED";
     u_txHash := None;
     u_errorMessage := Some (Some msg);
     u_history := Some "FAILED" |}.

(** [multiSigWorker.on('failed', async (job, err) => ...)] *)
Definition multiSigWorker_on_failed (job : Job) (err : Error) : M unit :=
  (withdrawalRequest_update (dbId job) (to_FAILED (message err))) ;;;
  sendAlert "Multi-Sig Withdrawal Job Failed"
    {| jobId := job_id job; databaseId := dbId job;
       attempts := attemptsMade job + 1; error := message err |}.

(** [rawTxBroadcastWorker.on('failed', async (job, err) => ...)] *)
Definition rawTxBroadcastWorker_on_failed (job : Job) (err : Error) : M unit :=
  (rawTransactionBroadcast_update (dbId job)
     {| ru_status := Some "FAILED";
        ru_txHash := None;
        ru_errorMessage := Some (Some (message err)) |}) ;;;
  sendAlert "Raw Transaction Broadcast Job Failed"
    {| jobId := job_id job; databaseId := dbId job;
       attempts := attemptsMade job + 1; error := message err |}.

End Workers.

(** The options object given to [new Worker('withdrawal-processing', ...)]. *)
Definition multiSigWorker_options : RetryOptions :=
  {| opt_attempts := Some 5;
     opt_backoff := Some {| backoff_type := exponential; delay := 10000 |} |}.

(** The options object given to [new Worker('raw-tx-broadcasting', ...)]. *)
Definition rawTxBroadcastWorker_options : RetryOptions :=
  {| opt_attempts := Some 3;
     opt_backoff := Some {| backoff_type := exponential; delay := 5000 |} |}.

(** ** The withdrawal manager ([services/withdrawal_manager.js]) *)

(** The validated body of [POST /initiate]. *)
Record RequestData := {
  request_id : string;
  treasury_contract_address : string;
  destination_address : string;
  token_contract_address : string;
  rd_amount : string;
  partially_signed_tx : string
}.

(** [@default(cuid())]: the next identifier the database hands out. *)
Definition cuid (w : World) : string := "c" +:+ pretty (cuids w).

(** [prisma.withdrawalRequest.findUnique({ where: { requestId } })]:
    [requestId] is a [@unique] column; the key of the row comes with it. *)
Definition find_by_requestId (t : gmap string WithdrawalRequest)
    (rid : string) : option (string * WithdrawalRequest) :=
  snd <$> list_find (λ kr, requestId kr.2 = rid) (map_to_list t).

Definition withdrawalRequest_findUnique_requestId (rid : string)
  : M (option WithdrawalRequest) :=
  fun w => (Ok (snd <$> find_by_requestId (withdrawalRequests w) rid), w).

(** [prisma.withdrawalRequest.update({ where: { requestId }, data })] *)
Definition withdrawalRequest_update_requestId (rid : string)
    (d : WithdrawalUpdate) : M WithdrawalRequest :=
  fun w =>
    match find_by_requestId (withdrawalRequests w) rid with
    | None => (Throw record_not_found, w)
    | Some (k, _) => withdrawalRequest_update k d w
    end.

Definition unique_requestId_failed : Error :=
  {| message := "Unique constraint failed on the fields: (`request_id`)" |}.

(** [prisma.withdrawalRequest.create({ data })] with the schema defaults:
    status [PENDING_SIGNATURE], no hash, no error message, and the nested
    [history: { create: { status } }]. *)
Definition withdrawalRequest_create (d : RequestData) (h : string)
  : M WithdrawalRequest :=
  fun w =>
    let k := cuid w in
    if bool_decide (is_Some (find_by_requestId (withdrawalRequests w) (request_id d))
                    ∨ is_Some (withdrawalRequests w !! k))
    then (Throw unique_requestId_failed, w)
    else
      let r := {| wr_id := k;
                  requestId := request_id d;
                  status := "PENDING_SIGNATURE";
                  treasuryContractAddress := treasury_contract_address d;
                  destinationAddress := destination_address d;
                  tokenContractAddress := token_contract_address d;
                  amount := rd_amount d;
                  partiallySignedTx := partially_signed_tx d;
                  txHash := None;
                  errorMessage := None |} in
      (Ok r,
       {| withdrawalRequests := <[k := r]> (withdrawalRequests w);
          historyEntries := historyEntries w ++ history_create k (Some h);
          rawTransactionBroadcasts := rawTransactionBroadcasts w;
          cuids := S (cuids w);
          trace := trace w ++ [EvWithdrawalCreate k] |}).

(** No retry settings: what a job gets when [queue.add] is called with a
    name and a payload only. *)
Definition no_options : RetryOptions :=
  {| opt_attempts := None; opt_backoff := None |}.

Definition queue_jobs (q : string) (tr : list Event) : list Job :=
  omap (λ e, match e with
             | EvQueueAdd q' _ j => if bool_decide (q' = q) then Some j else None
             | _ => None
             end) tr.

(** [queue.add(name, data, opts)]: the broker numbers the jobs of a queue
    from 1 and stores the options with the job. *)
Definition Queue_add (q name : string) (data_dbId : string)
    (opts : RetryOptions) : M Job :=
  fun w =>
    let j := {| job_id := pretty (S (length (queue_jobs q (trace w))));
                dbId := data_dbId;
                attemptsMade := 0;
                job_opts := opts |} in
    (Ok j, emit (EvQueueAdd q name j) w).

Definition duplicate_request : Error :=
  {| message := "Duplicate request_id. This request has already been submitted." |}.

(** [WithdrawalManager.processNewRequest(requestData)]; the returned
    object is reduced to its [requestId]. *)
Definition processNewRequest (requestData : RequestData) : M string :=
  existingRequest <- withdrawalRequest_findUnique_requestId (request_id requestData) ;;
  match existingRequest with
  | Some _ => throw duplicate_request
  | None =>
      newRequest <- withdrawalRequest_create requestData "PENDING_SIGNATURE" ;;
      (Queue_add "withdrawal-processing" "process-withdrawal"
         (wr_id newRequest) no_options) ;;;
      ret (request_id requestData)
  end.

Definition request_not_found : Error := {| message := "Request not found." |}.

(** The message of the conflict error of [cancelRequest]. *)
Definition cannot_cancel (s : string) : Error :=
  {| message := "Cannot cancel request. Status is already '" +:+ s +:+ "'." |}.

(** [WithdrawalManager.cancelRequest(requestId)]; it returns
    [{ requestId, status }] of the updated row. *)
Definition cancelRequest (rid : string) : M (string * string) :=
  request <- withdrawalRequest_findUnique_requestId rid ;;
  match request with
  | None => throw request_not_found
  | Some request =>
      if bool_decide (status request ≠ "PENDING_SIGNATURE")
      then throw (cannot_cancel (status request))
      else
        updatedRequest <-
          withdrawalRequest_update_requestId rid
            {| u_status := Some "CANCELLED";
               u_txHash := None;
               u_errorMessage := None;
               u_history := Some "CANCELLED" |} ;;
        ret (requestId updatedRequest, status updatedRequest)
  end.

Definition primary_key_failed : Error :=
  {| message := "Unique constraint failed on the fields: (`id`)" |}.

(** [prisma.rawTransactionBroadcast.create({ data: { rawTx, clientId } })]
    with the schema defaults: status [PENDING], no hash, no error. *)
Definition rawTransactionBroadcast_create (raw : string) (client : option string)
  : M RawTransactionBroadcast :=
  fun w =>
    let k := cuid w in
    if bool_decide (is_Some (rawTransactionBroadcasts w !! k))
    then (Throw primary_key_failed, w)
    else
      let r := {| raw_id := k; clientId := client; rawTx := raw;
                  raw_txHash := None; raw_status := "PENDING";
                  raw_errorMessage := None |} in
      (Ok r,
       {| withdrawalRequests := withdrawalRequests w;
          historyEntries := historyEntries w;
          rawTransactionBroadcasts := <[k := r]> (rawTransactionBroadcasts w);
          cuids := S (cuids w);
          trace := trace w ++ [EvRawCreate k] |}).

(** [WithdrawalManager.processRawTransactionBroadcast(rawTx, clientId)];
    it returns [{ broadcastId, status: 'PENDING' }]. *)
Definition processRawTransactionBroadcast (raw : string) (client : option string)
  : M (string * string) :=
  newBroadcast <- rawTransactionBroadcast_create raw client ;;
  (Queue_add "raw-tx-broadcasting" "broadcast-raw-tx"
     (raw_id newBroadcast) no_options) ;;;
  ret (raw_id newBroadcast, "PENDING").

(** ** The broker

    BullMQ is a dependency of the service, not part of it.  The loop
    below is what its worker does with one job, as far as the handlers
    can observe it:
    - the retry settings of a job are the options stored with the job
      when it was added ([queue.add(name, data, opts)]); a job added
      without [attempts] is tried once.  The options object of
      [new Worker(name, processor, opts)] holds the connection and the
      concurrency settings of the worker; [run_job] does not read it;
    - the processor sees [attemptsMade] as the number of attempts that
      ended before this one;
    - when the processor throws, the broker counts the attempt, moves the
      job to the delayed set if [attemptsMade + 1 < attempts] (before the
      count), and the worker emits ['failed'] with the job as it is now;
    - the exponential backoff before attempt [k + 1] is
      [2 ^ (k - 1) * delay]. *)

Definition job_attempts (j : Job) : nat :=
  default 0 (opt_attempts (job_opts j)).

(** [attemptsMade + 1 < opts.attempts] *)
Definition shouldRetryJob (j : Job) : bool :=
  bool_decide (attemptsMade j + 1 < job_attempts j).

(** The delay before the retry of a job whose attempt number
    [attemptsMade + 1] has just failed. *)
Definition backoff_delay (j : Job) : Z :=
  match opt_backoff (job_opts j) with
  | None => 0
  | Some b =>
      match backoff_type b with
      | fixed => delay b
      | exponential => 2 ^ Z.of_nat (attemptsMade j) * delay b
      end
  end.

Definition count_attempt (j : Job) : Job :=
  {| job_id := job_id j; dbId := dbId j;
     attemptsMade := S (attemptsMade j); job_opts := job_opts j |}.

(** A worker: its processor, the options object it was constructed with
    and its ['failed'] listener. *)
Record Worker := {
  processor : Chain -> Job -> M unit;
  worker_options : RetryOptions;
  on_failed : Job -> Error -> M unit
}.

(** An event listener is called and not awaited: the broker does not see
    what it throws; what it wrote stays. *)
Definition listener (m : M unit) : M unit :=
  fun w => (Ok tt, snd (m w)).

(** One job from its first delivery to its end; [chains k] answers during
    the attempt that starts with [attemptsMade = k].  [retries] is the
    number of retries still allowed, [attempts - (attemptsMade + 1)]. *)
Fixpoint attempt_loop (wk : Worker) (chains : nat -> Chain)
    (retries : nat) (job : Job) : M unit :=
  (log (EvActive job)) ;;;
  try_catch (processor wk (chains (attemptsMade job)) job)
    (fun err =>
       match retries with
       | O =>
           (listener (on_failed wk (count_attempt job) err)) ;;;
           throw err
       | S retries' =>
           (log (EvDelayed job (backoff_delay job))) ;;;
           (listener (on_failed wk (count_attempt job) err)) ;;;
           attempt_loop wk chains retries' (count_attempt job)
       end).

Definition run_job (wk : Worker) (chains : nat -> Chain) (job : Job)
  : M unit :=
  attempt_loop wk chains (job_attempts job - (attemptsMade job + 1)) job.

Definition multiSig (ethers : Ethers) (env : Env) : Worker :=
  {| processor := multiSigWorker ethers env;
     worker_options := multiSigWorker_options;
     on_failed := multiSigWorker_on_failed |}.

Definition rawTxBroadcast (env : Env) : Worker :=
  {| processor := rawTxBroadcastWorker env;
     worker_options := rawTxBroadcastWorker_options;
     on_failed := rawTxBroadcastWorker_on_failed |}.

(** ** An instance of the ethers functions

    The handlers are stated for any [Ethers]; this instance follows the
    library (version 6).  [parseUnits(value, decimals)]: an optional minus
    sign, digits, an optional point and digits, at least one digit; at
    most 80 decimals; fractional digits beyond [decimals] must be zeros;
    the result fits a signed 512-bit integer.  [formatUnits] rejects
    [null]; its text goes to the console only.  [new Wallet(key)]: the
    key, with ["0x"] put in front if it does not start with it, must be
    whole bytes in hexadecimal, 32 of them, and a scalar of the curve
    secp256k1, from 1 to the order of the group less 1.  The library
    appends the argument, an error code and its version to the texts of
    its messages; they are left out. *)

Definition is_digit (a : ascii) : bool :=
  (48 <=? nat_of_ascii a)%nat && (nat_of_ascii a <=? 57)%nat.

Definition digit_value (a : ascii) : Z := Z.of_nat (nat_of_ascii a) - 48.

(** The longest prefix of digits and the rest. *)
Fixpoint span_digits (s : string) : list ascii * string :=
  match s with
  | String a s' =>
      if is_digit a then
        let '(ds, rest) := span_digits s' in (a :: ds, rest)
      else ([], s)
  | EmptyString => ([], s)
  end.

Definition digits_to_Z (ds : list ascii) : Z :=
  fold_left (fun acc a => 10 * acc + digit_value a)%Z ds 0%Z.

Definition invalid_format : Error :=
  {| message := "invalid FixedNumber decimals" |}.
Definition invalid_value : Error :=
  {| message := "invalid FixedNumber string value" |}.
Definition too_many_decimals : Error :=
  {| message := "too many decimal places" |}.
Definition overflow : Error := {| message := "overflow" |}.

Definition parseUnits_ethers (value : string) (decimals : Z) : Result Z :=
  let '(neg, body) :=
    match value with
    | String "-" s' => (true, s')
    | _ => (false, value)
    end in
  let '(whole, rest) := span_digits body in
  let '(fraction, rest') :=
    match rest with
    | String "." s' => span_digits s'
    | _ => ([], rest)
    end in
  if negb (bool_decide (0 <= decimals <= 80)%Z) then Throw invalid_format
  else if negb (bool_decide (rest' = "")) then Throw invalid_value
  else if bool_decide (length whole + length fraction = 0)%nat
  then Throw invalid_value
  else
    let d := Z.to_nat decimals in
    let padded := (fraction ++ replicate (d - length fraction) "0"%char)%list in
    if negb (forallb (fun a => bool_decide (a = "0"%char)) (drop d padded))
    then Throw too_many_decimals
    else
      let magnitude := digits_to_Z (whole ++ take d padded)%list in
      let v := (if neg then - magnitude else magnitude)%Z in
      if bool_decide (- 2 ^ 511 <= v < 2 ^ 511)%Z then Ok v
      else Throw overflow.

Definition invalid_BigNumberish : Error :=
  {| message := "invalid BigNumberish value" |}.

Definition formatUnits_ethers (value : option Z) (unit : string)
  : Result string :=
  match value with
  | None => Throw invalid_BigNumberish
  | Some v => Ok (pretty v +:+ " " +:+ unit)
  end.

Definition hex_value (a : ascii) : option Z :=
  let n := nat_of_ascii a in
  if (48 <=? n)%nat && (n <=? 57)%nat then Some (Z.of_nat n - 48)%Z
  else if (97 <=? n)%nat && (n <=? 102)%nat then Some (Z.of_nat n - 87)%Z
  else if (65 <=? n)%nat && (n <=? 70)%nat then Some (Z.of_nat n - 55)%Z
  else None.

(** The number that a string of hexadecimal digits writes, after [acc]. *)
Fixpoint hex_to_Z (s : string) (acc : Z) : option Z :=
  match s with
  | EmptyString => Some acc
  | String a s' =>
      match hex_value a with
      | Some v => hex_to_Z s' (16 * acc + v)%Z
      | None => None
      end
  end.

(** The order of the group of secp256k1. *)
Definition secp256k1_n : Z :=
  0xFFFFFFFFFFFFFFFFFFFFFFFFFFFFFFFEBAAEDCE6AF48A03BBFD25E8CD0364141%Z.

Definition invalid_BytesLike : Error :=
  {| message := "invalid BytesLike value" |}.
Definition invalid_private_key : Error :=
  {| message := "invalid private key" |}.

Definition Wallet_ethers (key : string) : Result unit :=
  let digits :=
    match key with
    | String "0" (String "x" s') => s'
    | _ => key
    end in
  match hex_to_Z digits 0 with
  | None => Throw invalid_BytesLike
  | Some v =>
      if negb (Nat.even (String.length digits)) then Throw invalid_BytesLike
      else if negb (bool_decide (String.length digits = 64%nat))
      then Throw invalid_private_key
      else if bool_decide (0 < v < secp256k1_n)%Z then Ok tt
      else Throw invalid_private_key
  end.

Definition ethers_lib : Ethers :=
  {| new_Wallet := Wallet_ethers;
     parseUnits := parseUnits_ethers;
     formatUnits := formatUnits_ethers |}.


(** * Vocabulary of the statements and sample data *)

Definition service_key : string :=
  "0x0123456789abcdef0123456789abcdef0123456789abcdef0123456789abcdef".

Definition env0 : Env :=
  {| ETHEREUM_NETWORK := None;
     MAINNET_RPC_URL := "https://mainnet.example";
     SEPOLIA_RPC_URL := "https://sepolia.example";
     SERVICE_WALLET_PRIVATE_KEY := service_key |}.

(** The environment of [.env.example]: the key is a placeholder. *)
Definition env_example : Env :=
  {| ETHEREUM_NETWORK := Some "sepolia";
     MAINNET_RPC_URL := "https://mainnet.infura.io/v3/your_infura_project_id";
     SEPOLIA_RPC_URL := "https://sepolia.infura.io/v3/your_infura_project_id";
     SERVICE_WALLET_PRIVATE_KEY := "your_wallet_private_key_here" |}.

Definition empty_world : World :=
  {| withdrawalRequests := ∅; historyEntries := [];
     rawTransactionBroadcasts := ∅; cuids := 0; trace := [] |}.

(** The body of the example request of the repository. *)
Definition bank_request : RequestData :=
  {| request_id := "bank-tx-id-12345-abcdef";
     treasury_contract_address := "0xTreasury";
     destination_address := "0xCustomer";
     token_contract_address := "0xUsdt";
     rd_amount := "1500.00";
     partially_signed_tx := "0xabcdef" |}.

Definition rpc_down : Error := {| message := "rpc down" |}.

(** A node that answers every call. *)
Definition chain_ok : Chain :=
  {| decimals := fun _ => Ok 6%Z;
     getFeeData := Ok {| maxFeePerGas := Some 30%Z;
                         maxPriorityFeePerGas := Some 2%Z |};
     transfer := fun _ _ _ _ => Ok {| hash := "0xhash" |};
     wait := fun _ _ => Ok tt;
     broadcastTransaction := fun _ => Ok {| hash := "0xrawhash" |} |}.

(** A node that fails every call. *)
Definition chain_down : Chain :=
  {| decimals := fun _ => Throw rpc_down;
     getFeeData := Throw rpc_down;
     transfer := fun _ _ _ _ => Throw rpc_down;
     wait := fun _ _ => Throw rpc_down;
     broadcastTransaction := fun _ => Throw rpc_down |}.

(** A node that accepts a transaction and then fails to confirm it. *)
Definition chain_no_confirmation : Chain :=
  {| decimals := fun _ => Ok 6%Z;
     getFeeData := Ok {| maxFeePerGas := Some 30%Z;
                         maxPriorityFeePerGas := Some 2%Z |};
     transfer := fun _ _ _ _ => Ok {| hash := "0xhash" |};
     wait := fun _ _ => Throw rpc_down;
     broadcastTransaction := fun _ => Ok {| hash := "0xrawhash" |} |}.

(** A node of a network without EIP-1559 fees: the fee data are [null]. *)
Definition chain_legacy : Chain :=
  {| decimals := fun _ => Ok 6%Z;
     getFeeData := Ok {| maxFeePerGas := None; maxPriorityFeePerGas := None |};
     transfer := fun _ _ _ _ => Ok {| hash := "0xhash" |};
     wait := fun _ _ => Ok tt;
     broadcastTransaction := fun _ => Ok {| hash := "0xrawhash" |} |}.

(** The world after the intake of [bank_request]: one row ["c0"] in
    [PENDING_SIGNATURE] and one job in the queue. *)
Definition world_submitted : World := snd (processNewRequest bank_request empty_world).

Definition first_job : Job :=
  {| job_id := "1"; dbId := "c0"; attemptsMade := 0; job_opts := no_options |}.

Definition set_status (s : string) (r : WithdrawalRequest) : WithdrawalRequest :=
  apply_update {| u_status := Some s; u_txHash := None;
                  u_errorMessage := None; u_history := None |} r.

(** The number of history entries of request [dbid] with status [s]. *)
Definition count_history (dbid s : string) (w : World) : nat :=
  length (filter (λ h, he_requestId h = dbid ∧ he_status h = s) (historyEntries w)).

(** The events a computation adds to the trace of [w]. *)
Definition new_events {A} (m : M A) (w : World) : list Event :=
  drop (length (trace w)) (trace (snd (m w))).

(** The status transitions [(old, new)] of request [dbid] among events. *)
Definition edges (dbid : string) (tr : list Event) : list (string * string) :=
  omap (λ e, match e with
             | EvWithdrawalUpdate k old new =>
                 if bool_decide (k = dbid) then Some (old, new) else None
             | _ => None
             end) tr.

Definition world_completed : World :=
  snd (multiSigWorker ethers_lib env0 chain_ok first_job world_submitted).

(** The row that the intake of [bank_request] stores. *)
Definition submitted_row : WithdrawalRequest :=
  {| wr_id := "c0"; requestId := "bank-tx-id-12345-abcdef";
     status := "PENDING_SIGNATURE";
     treasuryContractAddress := "0xTreasury";
     destinationAddress := "0xCustomer";
     tokenContractAddress := "0xUsdt";
     amount := "1500.00";
     partiallySignedTx := "0xabcdef";
     txHash := None; errorMessage := None |}.

(** The world of Scenario D: the request is being processed. *)
Definition world_processing : World :=
  snd (multiSigWorker ethers_lib env0 chain_down first_job world_submitted).

(** The row after a successful delivery. *)
Definition completed_row (r : WithdrawalRequest) (h : string) : WithdrawalRequest :=
  {| wr_id := wr_id r; requestId := requestId r; status := "COMPLETED";
     treasuryContractAddress := treasuryContractAddress r;
     destinationAddress := destinationAddress r;
     tokenContractAddress := tokenContractAddress r;
     amount := amount r; partiallySignedTx := partiallySignedTx r;
     txHash := Some h; errorMessage := None |}.

(** The world with the events [l] added to the trace. *)
Definition emits (l : list Event) (w : World) : World :=
  {| withdrawalRequests := withdrawalRequests w;
     historyEntries := historyEntries w;
     rawTransactionBroadcasts := rawTransactionBroadcasts w;
     cuids := cuids w;
     trace := trace w ++ l |}.

(** The world after [prisma.withdrawalRequest.update]. *)
Definition updated (dbid : string) (d : WithdrawalUpdate) (w : World) : World :=
  snd (withdrawalRequest_update dbid d w).

(** Calls to the node, as opposed to writes to the store or alerts; a
    call of the token contract goes to the configured endpoint and is
    signed with the key of the service wallet. *)
Definition is_chain_event (env : Env) (e : Event) : Prop :=
  match e with
  | EvDecimals rpc signer _ | EvTransfer rpc signer _ _ _ _ =>
      rpc = rpcUrl_of env /\ signer = SERVICE_WALLET_PRIVATE_KEY env
  | EvGetFeeData _ | EvBroadcastTransaction _ _ | EvWait _ _ => True
  | _ => False
  end.

(** A computation that only talks to the node. *)
Definition chain_only (env : Env) {A} (m : M A) : Prop :=
  forall w, exists l, Forall (is_chain_event env) l /\ snd (m w) = emits l w.

(** The world in which the chain part of a delivery starts. *)
Definition after_first_step (job : Job) (w : World) : World :=
  if bool_decide (attemptsMade job = 0)
  then updated (dbId job) to_PROCESSING w else w.

(** The world [w] after a handler that left the row [rfin] under [dbid],
    appended the history entries [hs] and added the events [tr]. *)
Definition world_after (w : World) (dbid : string) (rfin : WithdrawalRequest)
    (hs : list string) (tr : list Event) : World :=
  {| withdrawalRequests := <[dbid := rfin]> (withdrawalRequests w);
     historyEntries :=
       historyEntries w ++ map (λ s, {| he_requestId := dbid; he_status := s |}) hs;
     rawTransactionBroadcasts := rawTransactionBroadcasts w;
     cuids := cuids w;
     trace := trace w ++ tr |}.

(** The row and the events at the start of the chain part. *)
Definition first_step_row (job : Job) (r : WithdrawalRequest) : WithdrawalRequest :=
  if bool_decide (attemptsMade job = 0) then apply_update to_PROCESSING r else r.

Definition first_step_history (job : Job) : list string :=
  if bool_decide (attemptsMade job = 0) then ["PROCESSING"] else [].

Definition first_step_events (job : Job) (r : WithdrawalRequest) : list Event :=
  if bool_decide (attemptsMade job = 0)
  then [EvWithdrawalUpdate (dbId job) (status r) "PROCESSING"] else [].

(** [m] adds no PROCESSING history entry for request [k]. *)
Definition keeps (k : string) {A} (m : M A) : Prop :=
  forall w, count_history k "PROCESSING" (snd (m w)) = count_history k "PROCESSING" w.

(** Scenario B: the node fails during the first four attempts and answers
    during the fifth. *)
Definition scenario_B (k : nat) : Chain :=
  if bool_decide (k < 4) then chain_down else chain_ok.

(** The world [w] after a handler that left the row [rfin] under [dbid]
    of the raw-broadcast table and added the events [tr]. *)
Definition raw_world_after (w : World) (dbid : string)
    (rfin : RawTransactionBroadcast) (tr : list Event) : World :=
  {| withdrawalRequests := withdrawalRequests w;
     historyEntries := historyEntries w;
     rawTransactionBroadcasts := <[dbid := rfin]> (rawTransactionBroadcasts w);
     cuids := cuids w;
     trace := trace w ++ tr |}.

Definition raw_broadcasted (r : RawTransactionBroadcast) (h : string)
  : RawTransactionBroadcast :=
  {| raw_id := raw_id r; clientId := clientId r; rawTx := rawTx r;
     raw_txHash := Some h; raw_status := "BROADCASTED";
     raw_errorMessage := raw_errorMessage r |}.

Definition raw_confirmed (r : RawTransactionBroadcast) (h : string)
  : RawTransactionBroadcast :=
  {| raw_id := raw_id r; clientId := clientId r; rawTx := rawTx r;
     raw_txHash := Some h; raw_status := "CONFIRMED";
     raw_errorMessage := raw_errorMessage r |}.

(** The world after the intake of one raw transaction: one row ["c0"] in
    PENDING. *)
Definition world_raw_submitted : World :=
  snd (processRawTransactionBroadcast "0xf86b01" (Some "client-1") empty_world).

Definition raw_submitted_row : RawTransactionBroadcast :=
  {| raw_id := "c0"; clientId := Some "client-1"; rawTx := "0xf86b01";
     raw_txHash := None; raw_status := "PENDING"; raw_errorMessage := None |}.

Definition with_partiallySignedTx (p : string) (r : WithdrawalRequest)
  : WithdrawalRequest :=
  {| wr_id := wr_id r; requestId := requestId r; status := status r;
     treasuryContractAddress := treasuryContractAddress r;
     destinationAddress := destinationAddress r;
     tokenContractAddress := tokenContractAddress r;
     amount := amount r; partiallySignedTx := p;
     txHash := txHash r; errorMessage := errorMessage r |}.

(** The world with the payload of every request blanked: two worlds with
    the same image differ in [partiallySignedTx] fields only. *)
Definition blank_payloads (w : World) : World :=
  {| withdrawalRequests := with_partiallySignedTx "" <$> withdrawalRequests w;
     historyEntries := historyEntries w;
     rawTransactionBroadcasts := rawTransactionBroadcasts w;
     cuids := cuids w;
     trace := trace w |}.

(** [m'] run on the blanked world ends as [m] run on the world does: same
    error, results related by [R], blanked final world. *)
Definition blind {A B} (R : A -> B -> Prop) (m : M A) (m' : M B) : Prop :=
  forall w,
    snd (m' (blank_payloads w)) = blank_payloads (snd (m w))
    /\ match fst (m w), fst (m' (blank_payloads w)) with
       | Ok a, Ok b => R a b
       | Throw e, Throw e' => e = e'
       | _, _ => False
       end.

(** The intake of [bank_request] with another payload. *)
Definition world_submitted' : World :=
  snd (processNewRequest
         {| request_id := "bank-tx-id-12345-abcdef";
            treasury_contract_address := "0xTreasury";
            destination_address := "0xCustomer";
            token_contract_address := "0xUsdt";
            rd_amount := "1500.00";
            partially_signed_tx := "0x00" |} empty_world).






(** The request is broadcast, the confirmation has not come. *)
Definition world_broadcasted : World :=
  snd (multiSigWorker ethers_lib env0 chain_no_confirmation first_job
         world_submitted).

(** A second job for request ["c0"], as the broker hands it to the
    ['failed'] listener after its only attempt. *)
Definition duplicate_job : Job :=
  {| job_id := "2"; dbId := "c0"; attemptsMade := 1; job_opts := no_options |}.

(** The deliveries, the backoff delays (in milliseconds) and the alerts
    in a trace. *)
Definition deliveries (tr : list Event) : list Job :=
  omap (λ e, match e with EvActive j => Some j | _ => None end) tr.

Definition delays (tr : list Event) : list Z :=
  omap (λ e, match e with EvDelayed _ ms => Some ms | _ => None end) tr.

Definition alerts (tr : list Event) : list AlertDetails :=
  omap (λ e, match e with EvAlert _ d => Some d | _ => None end) tr.

(** The job of [world_submitted] as it would be with the retry settings
    that [worker.js] gives to the worker. *)
Definition job_with (opts : RetryOptions) : Job :=
  {| job_id := "1"; dbId := "c0"; attemptsMade := 0; job_opts := opts |}.

(** * The rest of the service *)

(** ** Reading a request ([services/withdrawal_manager.js]) *)

(** The history entries that belong to the request stored under [dbid]
    ([HistoryEntry.requestId] references [WithdrawalRequest.id]). *)
Definition history_of (dbid : string) (w : World) : list HistoryEntry :=
  filter (λ h, he_requestId h = dbid) (historyEntries w).

(** [prisma.withdrawalRequest.findUnique({ where: { requestId },
    include: { history: true } })] *)
Definition withdrawalRequest_findUnique_include_history (rid : string)
  : M (option (WithdrawalRequest * list HistoryEntry)) :=
  fun w =>
    (Ok ((λ kr : string * WithdrawalRequest, (kr.2, history_of kr.1 w))
           <$> find_by_requestId (withdrawalRequests w) rid), w).

(** [WithdrawalManager.getRequestStatus(requestId)] *)
Definition getRequestStatus (rid : string)
  : M (WithdrawalRequest * list HistoryEntry) :=
  request <- withdrawalRequest_findUnique_include_history rid ;;
  match request with
  | None => throw request_not_found
  | Some request => ret request
  end.

(** ** The health check *)

(** The answers of the database and of the two queues to one health
    check, and the clock. *)
Record Infra := {
  queryRaw_SELECT_1 : Result unit;
  withdrawalQueue_isReady : Result unit;
  rawTxBroadcastQueue_isReady : Result unit;
  now_ISO : string
}.

Record DependencyHealth := { dh_status : string; dh_message : string }.

Record Health := {
  database : DependencyHealth;
  queue : DependencyHealth;
  overallStatus : string;
  timestamp : string
}.

(** The second [try] block of [checkHealth]: the queues are asked one
    after the other. *)
Definition queues_ready (infra : Infra) : Result unit :=
  match withdrawalQueue_isReady infra with
  | Ok _ => rawTxBroadcastQueue_isReady infra
  | Throw e => Throw e
  end.

(** [WithdrawalManager.checkHealth()]: [{ healthStatus, isHealthy }]. *)
Definition checkHealth (infra : Infra) : Health * bool :=
  let health :=
    {| database := {| dh_status := "OK"; dh_message := "Connected" |};
       queue := {| dh_status := "OK"; dh_message := "Connected" |};
       overallStatus := "OK";
       timestamp := now_ISO infra |} in
  let isHealthy := true in
  let '(health, isHealthy) :=
    match queryRaw_SELECT_1 infra with
    | Ok _ => (health, isHealthy)
    | Throw e =>
        ({| database := {| dh_status := "ERROR"; dh_message := message e |};
            queue := queue health;
            overallStatus := "ERROR";
            timestamp := timestamp health |}, false)
    end in
  match queues_ready infra with
  | Ok _ => (health, isHealthy)
  | Throw e =>
      ({| database := database health;
          queue := {| dh_status := "ERROR"; dh_message := message e |};
          overallStatus := "ERROR";
          timestamp := timestamp health |}, false)
  end.

(** ** The API routes *)

(** The JSON bodies that the routes send. *)
Inductive Body : Type :=
| BHealth (h : Health)
| BErrors (errors : list string)
| BError (error_message : string)
| BAccepted (status_field requestId_field : string)
| BCancelled (status_field requestId_field : string)
| BRequest (request : WithdrawalRequest) (history : list HistoryEntry)
| BBroadcast (broadcastId status_field : string).

Record Response := { code : nat; body : Body }.

(** [GET /health] *)
Definition health_route (infra : Infra) : Response :=
  let '(healthStatus, isHealthy) := checkHealth infra in
  if isHealthy then {| code := 200; body := BHealth healthStatus |}
  else {| code := 503; body := BHealth healthStatus |}.


(** [POST /cancel]; in [{ status: 'CANCELLED', ...result }] the [status]
    of [result] comes last and is the one sent. *)
Definition cancel_route (errors : list string) (request_id_field : string)
  : M Response :=
  if negb (bool_decide (errors = []))
  then ret {| code := 400; body := BErrors errors |}
  else
    try_catch
      (result <- cancelRequest request_id_field ;;
       ret {| code := 200; body := BCancelled result.2 result.1 |})
      (fun error => ret {| code := 404; body := BError (message error) |}).

(** [GET /status/:requestId] *)
Definition status_route (errors : list string) (requestId_param : string)
  : M Response :=
  if negb (bool_decide (errors = []))
  then ret {| code := 400; body := BErrors errors |}
  else
    try_catch
      (result <- getRequestStatus requestId_param ;;
       ret {| code := 200; body := BRequest result.1 result.2 |})
      (fun error => ret {| code := 404; body := BError (message error) |}).






(** ** Everything that writes to the store *)

Inductive Action : Type :=
| Initiate (rd : RequestData)
| SubmitRaw (raw : string) (client : option string)
| CancelRequest (rid : string)
| DeliverWithdrawal (chain : Chain) (job : Job)
| FailWithdrawal (job : Job) (err : Error)
| DeliverRaw (chain : Chain) (job : Job)
| FailRaw (job : Job) (err : Error).

Definition act (ethers : Ethers) (env : Env) (a : Action) (w : World) : World :=
  match a with
  | Initiate rd => snd (processNewRequest rd w)
  | SubmitRaw raw client => snd (processRawTransactionBroadcast raw client w)
  | CancelRequest rid => snd (cancelRequest rid w)
  | DeliverWithdrawal chain job => snd (multiSigWorker ethers env chain job w)
  | FailWithdrawal job err => snd (multiSigWorker_on_failed job err w)
  | DeliverRaw chain job => snd (rawTxBroadcastWorker env chain job w)
  | FailRaw job err => snd (rawTxBroadcastWorker_on_failed job err w)
  end.

(** The worlds of the service: the empty store and what any sequence of
    intakes, cancellations, deliveries and failure notifications, with any
    jobs and any answers of the chain, makes of it. *)
Inductive service_reachable (ethers : Ethers) (env : Env) : World -> Prop :=
| service_empty : service_reachable ethers env empty_world
| service_step a w :
    service_reachable ethers env w ->
    service_reachable ethers env (act ethers env a w).

Definition known_status (s : string) : Prop :=
  s ∈ ["PENDING_SIGNATURE"; "PROCESSING"; "BROADCASTED"; "COMPLETED";
       "CANCELLED"; "FAILED"].

(** What the status of a request says about its other fields. *)
Definition row_consistent (r : WithdrawalRequest) : Prop :=
  known_status (status r)
  /\ (status r = "PENDING_SIGNATURE" \/ status r = "CANCELLED" ->
      txHash r = None /\ errorMessage r = None)
  /\ (status r = "PROCESSING" -> errorMessage r = None)
  /\ (status r = "BROADCASTED" \/ status r = "COMPLETED" -> is_Some (txHash r)).

Definition known_raw_status (s : string) : Prop :=
  s ∈ ["PENDING"; "BROADCASTED"; "CONFIRMED"; "FAILED"].

Definition raw_row_consistent (r : RawTransactionBroadcast) : Prop :=
  known_raw_status (raw_status r)
  /\ (raw_status r = "PENDING" -> raw_txHash r = None)
  /\ (raw_status r <> "FAILED" -> raw_errorMessage r = None)
  /\ (raw_status r = "BROADCASTED" \/ raw_status r = "CONFIRMED" ->
      is_Some (raw_txHash r)).

Definition entry (dbid s : string) : HistoryEntry :=
  {| he_requestId := dbid; he_status := s |}.

(** The invariant of the store. *)
Record store_invariant (w : World) : Prop := {
  inv_ids : forall k r, withdrawalRequests w !! k = Some r -> wr_id r = k;
  inv_unique : forall k1 r1 k2 r2,
    withdrawalRequests w !! k1 = Some r1 ->
    withdrawalRequests w !! k2 = Some r2 ->
    requestId r1 = requestId r2 -> k1 = k2;
  inv_fresh : forall k,
    is_Some (withdrawalRequests w !! k)
    \/ is_Some (rawTransactionBroadcasts w !! k) ->
    exists n, n < cuids w /\ k = "c" +:+ pretty n;
  inv_history_refs : forall h,
    h ∈ historyEntries w -> is_Some (withdrawalRequests w !! he_requestId h);
  inv_history_first : forall k r,
    withdrawalRequests w !! k = Some r ->
    head (history_of k w) = Some (entry k "PENDING_SIGNATURE");
  inv_history_last : forall k r,
    withdrawalRequests w !! k = Some r ->
    last (history_of k w) = Some (entry k (status r));
  inv_rows : forall k r,
    withdrawalRequests w !! k = Some r -> row_consistent r;
  inv_raw_ids : forall k r,
    rawTransactionBroadcasts w !! k = Some r -> raw_id r = k;
  inv_raw_hashes : forall k1 r1 k2 r2 h,
    rawTransactionBroadcasts w !! k1 = Some r1 ->
    rawTransactionBroadcasts w !! k2 = Some r2 ->
    raw_txHash r1 = Some h -> raw_txHash r2 = Some h -> k1 = k2;
  inv_raw_rows : forall k r,
    rawTransactionBroadcasts w !! k = Some r -> raw_row_consistent r
}.

(** The row that the intake of [rd] stores under [k]. *)
Definition new_row (k : string) (rd : RequestData) : WithdrawalRequest :=
  {| wr_id := k; requestId := request_id rd; status := "PENDING_SIGNATURE";
     treasuryContractAddress := treasury_contract_address rd;
     destinationAddress := destination_address rd;
     tokenContractAddress := token_contract_address rd;
     amount := rd_amount rd; partiallySignedTx := partially_signed_tx rd;
     txHash := None; errorMessage := None |}.

(** The job that the intake adds to the queue [q]. *)
Definition new_job (q : string) (dbid : string) (w : World) : Job :=
  {| job_id := pretty (S (length (queue_jobs q (trace w))));
     dbId := dbid; attemptsMade := 0; job_opts := no_options |}.

Definition world_intake (rd : RequestData) (w : World) : World :=
  {| withdrawalRequests := <[cuid w := new_row (cuid w) rd]> (withdrawalRequests w);
     historyEntries := historyEntries w ++ [entry (cuid w) "PENDING_SIGNATURE"];
     rawTransactionBroadcasts := rawTransactionBroadcasts w;
     cuids := S (cuids w);
     trace := trace w ++
              [EvWithdrawalCreate (cuid w);
               EvQueueAdd "withdrawal-processing" "process-withdrawal"
                 (new_job "withdrawal-processing" (cuid w) w)] |}.

(** The row that the intake of a raw transaction stores under [k]. *)
Definition new_raw_row (k raw : string) (client : option string)
  : RawTransactionBroadcast :=
  {| raw_id := k; clientId := client; rawTx := raw; raw_txHash := None;
     raw_status := "PENDING"; raw_errorMessage := None |}.

Definition world_raw_intake (raw : string) (client : option string) (w : World)
  : World :=
  {| withdrawalRequests := withdrawalRequests w;
     historyEntries := historyEntries w;
     rawTransactionBroadcasts :=
       <[cuid w := new_raw_row (cuid w) raw client]> (rawTransactionBroadcasts w);
     cuids := S (cuids w);
     trace := trace w ++
              [EvRawCreate (cuid w);
               EvQueueAdd "raw-tx-broadcasting" "broadcast-raw-tx"
                 (new_job "raw-tx-broadcasting" (cuid w) w)] |}.

(** The row after the ['failed'] listener of the raw-broadcast worker. *)
Definition raw_failed (r : RawTransactionBroadcast) (msg : string)
  : RawTransactionBroadcast :=
  {| raw_id := raw_id r; clientId := clientId r; rawTx := rawTx r;
     raw_txHash := raw_txHash r; raw_status := "FAILED";
     raw_errorMessage := Some msg |}.

(** The intake of one raw transaction and its delivery on a node that
    answers. *)
Definition world_raw_confirmed : World :=
  snd (rawTxBroadcastWorker env0 chain_ok first_job world_raw_submitted).




(** The fields of a request that say what is to be paid to whom. *)
Definition same_request (r r' : WithdrawalRequest) : Prop :=
  wr_id r' = wr_id r /\ requestId r' = requestId r
  /\ treasuryContractAddress r' = treasuryContractAddress r
  /\ destinationAddress r' = destinationAddress r
  /\ tokenContractAddress r' = tokenContractAddress r
  /\ amount r' = amount r
  /\ partiallySignedTx r' = partiallySignedTx r.

Definition same_raw (r r' : RawTransactionBroadcast) : Prop :=
  raw_id r' = raw_id r /\ clientId r' = clientId r /\ rawTx r' = rawTx r.

(** [w'] keeps what [w] holds: every row is still there with the same
    submitted fields, and the history and the trace have only grown. *)
Definition tables_kept (w w' : World) : Prop :=
  (forall k r, withdrawalRequests w !! k = Some r ->
     exists r', withdrawalRequests w' !! k = Some r' /\ same_request r r')
  /\ (forall k r, rawTransactionBroadcasts w !! k = Some r ->
        exists r', rawTransactionBroadcasts w' !! k = Some r' /\ same_raw r r')
  /\ historyEntries w `prefix_of` historyEntries w'
  /\ trace w `prefix_of` trace w'
  /\ cuids w <= cuids w'.

(** A sequence of actions, the first one first. *)
Definition run_actions (ethers : Ethers) (env : Env) (l : list Action)
    (w : World) : World :=
  foldl (fun w a => act ethers env a w) w l.

(** A transfer is on behalf of a stored request: its contract, its
    destination and its amount in minimal units, signed with the key of
    the service wallet.  A raw broadcast is the payload of a stored row. *)
Definition authorised_event (ethers : Ethers) (env : Env) (w : World)
    (e : Event) : Prop :=
  match e with
  | EvTransfer rpc signer token to v _ =>
      rpc = rpcUrl_of env /\ signer = SERVICE_WALLET_PRIVATE_KEY env
      /\ exists k r d,
           withdrawalRequests w !! k = Some r
           /\ token = tokenContractAddress r
           /\ to = destinationAddress r
           /\ parseUnits ethers (amount r) d = Ok v
  | EvBroadcastTransaction rpc raw =>
      rpc = rpcUrl_of env
      /\ exists k r, rawTransactionBroadcasts w !! k = Some r /\ rawTx r = raw
  | _ => True
  end.

(** The events of a handler: no row is created and no job is added. *)
Definition handler_event (ethers : Ethers) (env : Env) (w : World)
    (e : Event) : Prop :=
  match e with
  | EvQueueAdd _ _ _ | EvWithdrawalCreate _ | EvRawCreate _ => False
  | _ => authorised_event ethers env w e
  end.

(** [m] only adds events, and they satisfy [P]. *)
Definition only_events (P : Event -> Prop) {A} (m : M A) : Prop :=
  forall w, exists l, Forall P l /\ snd (m w) = emits l w.

(** What a handler does to the world. *)
Definition handler_effect (ethers : Ethers) (env : Env) (w w' : World) : Prop :=
  exists l,
    trace w' = trace w ++ l
    /\ Forall (handler_event ethers env w) l
    /\ tables_kept w w'
    /\ (forall k, is_Some (withdrawalRequests w' !! k)
                  <-> is_Some (withdrawalRequests w !! k))
    /\ (forall k, is_Some (rawTransactionBroadcasts w' !! k)
                  <-> is_Some (rawTransactionBroadcasts w !! k))
    /\ cuids w' = cuids w.

(** The jobs of the two queues: one per stored row, none with retry
    settings. *)
Record queue_invariant (w : World) : Prop := {
  qi_requests_nodup :
    NoDup (dbId <$> queue_jobs "withdrawal-processing" (trace w));
  qi_requests : forall k,
    k ∈ (dbId <$> queue_jobs "withdrawal-processing" (trace w))
    <-> is_Some (withdrawalRequests w !! k);
  qi_raw_nodup :
    NoDup (dbId <$> queue_jobs "raw-tx-broadcasting" (trace w));
  qi_raw : forall k,
    k ∈ (dbId <$> queue_jobs "raw-tx-broadcasting" (trace w))
    <-> is_Some (rawTransactionBroadcasts w !! k);
  qi_jobs : forall q name j,
    EvQueueAdd q name j ∈ trace w ->
    attemptsMade j = 0 /\ job_opts j = no_options
    /\ (q = "withdrawal-processing" \/ q = "raw-tx-broadcasting")
}.

(** ** The amount in minimal units

    The specification asks for the decimal amount scaled into the minimal
    integer unit of the token: the amount times ten to the number of
    decimals.  [minimal_units] is that number for the numeral with the
    integer digits [whole] and the fractional digits [fraction]. *)









(** ** The broker's discipline for the jobs of the service

    [processNewRequest] adds one job for each request, without retry
    settings: the broker delivers it once, with attempt counter 0, and,
    if the delivery threw, emits ['failed'] once, with the attempt counted
    (see [run_job]).  The listener is not awaited, so other handlers may
    run between the delivery and the listener.  [scheduled w waiting
    failing] says that [w] is the world after such a run: [waiting] are
    the jobs added and not yet delivered, [failing] the jobs whose
    delivery threw and whose listener has not run yet.  A job that is
    delivered again, a second job for one request and a listener called
    without a failed delivery are outside it. *)










(** * Properties *)

(** ** The conversion of amounts *)

Example parseUnits_1500 : parseUnits_ethers "1500.00" 6 = Ok 1500000000%Z.
Proof. vm_compute. reflexivity. Qed.

Example parseUnits_too_fine :
  parseUnits_ethers "0.0000001" 6 = Throw too_many_decimals.
Proof. vm_compute. reflexivity. Qed.

Example parseUnits_not_a_number :
  parseUnits_ethers "abc" 6 = Throw invalid_value.
Proof. vm_compute. reflexivity. Qed.

(** ** Intake *)

Example intake_creates_pending :
  withdrawalRequests world_submitted !! "c0" =
    Some {| wr_id := "c0"; requestId := "bank-tx-id-12345-abcdef";
            status := "PENDING_SIGNATURE";
            treasuryContractAddress := "0xTreasury";
            destinationAddress := "0xCustomer";
            tokenContractAddress := "0xUsdt";
            amount := "1500.00";
            partiallySignedTx := "0xabcdef";
            txHash := None; errorMessage := None |}
  /\ historyEntries world_submitted =
       [ {| he_requestId := "c0"; he_status := "PENDING_SIGNATURE" |} ]
  /\ queue_jobs "withdrawal-processing" (trace world_submitted) = [first_job].
Proof. vm_compute. auto. Qed.

(** ** Equations of the monad *)

Lemma bind_Ok {A B} (m : M A) (k : A -> M B) w a w' :
  m w = (Ok a, w') -> bind m k w = k a w'.
Proof. intros H. unfold bind. rewrite H. reflexivity. Qed.

Lemma bind_Throw {A B} (m : M A) (k : A -> M B) w e w' :
  m w = (Throw e, w') -> bind m k w = (Throw e, w').
Proof. intros H. unfold bind. rewrite H. reflexivity. Qed.

(** [try { m } catch (error) { throw error }] is [m]. *)
Lemma try_rethrow {A} (m : M A) w : try_catch m (fun e => throw e) w = m w.
Proof. unfold try_catch, throw. destruct (m w) as [[a|e] w']; reflexivity. Qed.

Lemma update_found dbid d w r :
  withdrawalRequests w !! dbid = Some r ->
  withdrawalRequest_update dbid d w =
    (Ok (apply_update d r),
     {| withdrawalRequests := <[dbid := apply_update d r]> (withdrawalRequests w);
        historyEntries := historyEntries w ++ history_create dbid (u_history d);
        rawTransactionBroadcasts := rawTransactionBroadcasts w;
        cuids := cuids w;
        trace := trace w ++ [EvWithdrawalUpdate dbid (status r)
                               (status (apply_update d r))] |}).
Proof. intros H. unfold withdrawalRequest_update. rewrite H. reflexivity. Qed.

Lemma update_missing dbid d w :
  withdrawalRequests w !! dbid = None ->
  withdrawalRequest_update dbid d w = (Throw record_not_found, w).
Proof. intros H. unfold withdrawalRequest_update. rewrite H. reflexivity. Qed.

Lemma in_final_state_spec s :
  in_final_state s = true <-> s = "COMPLETED" \/ s = "CANCELLED".
Proof.
  unfold in_final_state. rewrite bool_decide_eq_true.
  rewrite !elem_of_cons, elem_of_nil. tauto.
Qed.

(** The row found under a request identifier is stored under the key that
    comes with it. *)
Lemma find_by_requestId_Some t rid k r :
  find_by_requestId t rid = Some (k, r) ->
  t !! k = Some r /\ requestId r = rid.
Proof.
  unfold find_by_requestId. intros H.
  destruct (list_find _ _) as [[i [k' r']]|] eqn:E; simpl in H; [|discriminate].
  injection H as -> ->.
  apply list_find_Some in E as (Hl & Hp & _).
  split; [|exact Hp].
  apply elem_of_map_to_list. eapply list_elem_of_lookup_2. exact Hl.
Qed.

(** ** The skip guard of the withdrawal processor *)

Lemma skip_guard ethers env chain job w :
  (withdrawalRequests w !! dbId job = None
   \/ exists r, withdrawalRequests w !! dbId job = Some r
                /\ (status r = "COMPLETED" \/ status r = "CANCELLED")) ->
  multiSigWorker ethers env chain job w = (Ok tt, w).
Proof.
  intros H. unfold multiSigWorker.
  erewrite bind_Ok by reflexivity.
  destruct H as [-> | (r & -> & Hs)]; [reflexivity|].
  apply in_final_state_spec in Hs. rewrite Hs. reflexivity.
Qed.

(** C5: a delivery whose request is absent, or is COMPLETED or CANCELLED,
    returns normally and leaves the whole world as it was: no row, no
    history entry and no event is written. *)
Theorem multiSigWorker_skip_is_noop ethers env chain job w :
  (withdrawalRequests w !! dbId job = None
   \/ exists r, withdrawalRequests w !! dbId job = Some r
                /\ (status r = "COMPLETED" \/ status r = "CANCELLED")) ->
  multiSigWorker ethers env chain job w = (Ok tt, w).
Proof.
  intros [Hnone | (r & Hr & Hs)]; unfold multiSigWorker;
    erewrite bind_Ok by reflexivity.
  - rewrite Hnone. reflexivity.
  - rewrite Hr. apply in_final_state_spec in Hs. rewrite Hs. reflexivity.
Qed.

Lemma multiSigWorker_skip_is_noop_witness :
  (exists r, withdrawalRequests world_completed !! "c0" = Some r
             /\ status r = "COMPLETED")
  /\ multiSigWorker ethers_lib env0 chain_down
       {| job_id := "1"; dbId := "c0"; attemptsMade := 3; job_opts := no_options |}
       world_completed = (Ok tt, world_completed).
Proof.
  split.
  - eexists. split; [vm_compute; reflexivity | reflexivity].
  - apply multiSigWorker_skip_is_noop. right. eexists.
    split; [vm_compute; reflexivity | left; reflexivity].
Defined.

(** ** Cancellation *)

Lemma cancelRequest_pending w rid k r :
  find_by_requestId (withdrawalRequests w) rid = Some (k, r) ->
  status r = "PENDING_SIGNATURE" ->
  cancelRequest rid w =
    (Ok (requestId r, "CANCELLED"),
     {| withdrawalRequests := <[k := set_status "CANCELLED" r]> (withdrawalRequests w);
        historyEntries := historyEntries w ++
                          [ {| he_requestId := k; he_status := "CANCELLED" |} ];
        rawTransactionBroadcasts := rawTransactionBroadcasts w;
        cuids := cuids w;
        trace := trace w ++ [EvWithdrawalUpdate k "PENDING_SIGNATURE" "CANCELLED"] |}).
Proof.
  intros Hf Hs. pose proof (find_by_requestId_Some _ _ _ _ Hf) as [Hk _].
  unfold cancelRequest, withdrawalRequest_findUnique_requestId.
  erewrite bind_Ok by reflexivity. rewrite Hf. simpl.
  rewrite Hs. simpl.
  unfold withdrawalRequest_update_requestId.
  erewrite bind_Ok; [| rewrite Hf; apply update_found; exact Hk].
  unfold ret, set_status. simpl. rewrite Hs. reflexivity.
Qed.

Lemma cancelRequest_conflict w rid k r :
  find_by_requestId (withdrawalRequests w) rid = Some (k, r) ->
  status r <> "PENDING_SIGNATURE" ->
  cancelRequest rid w = (Throw (cannot_cancel (status r)), w).
Proof.
  intros Hf Hs.
  unfold cancelRequest, withdrawalRequest_findUnique_requestId.
  erewrite bind_Ok by reflexivity. rewrite Hf. simpl.
  rewrite bool_decide_eq_true_2 by exact Hs. reflexivity.
Qed.

(** C8: [cancelRequest] on a stored request succeeds exactly when the
    status is PENDING_SIGNATURE; it then sets CANCELLED, appends one
    CANCELLED history entry and changes nothing else.  For every other
    status it throws the conflict error that names the status, and the
    world, this row included, is as before. *)
Theorem cancelRequest_guard w rid k r :
  find_by_requestId (withdrawalRequests w) rid = Some (k, r) ->
  (status r = "PENDING_SIGNATURE" ->
     cancelRequest rid w =
       (Ok (requestId r, "CANCELLED"),
        {| withdrawalRequests :=
             <[k := set_status "CANCELLED" r]> (withdrawalRequests w);
           historyEntries := historyEntries w ++
                             [ {| he_requestId := k; he_status := "CANCELLED" |} ];
           rawTransactionBroadcasts := rawTransactionBroadcasts w;
           cuids := cuids w;
           trace := trace w ++
                    [EvWithdrawalUpdate k "PENDING_SIGNATURE" "CANCELLED"] |}))
  /\ (status r <> "PENDING_SIGNATURE" ->
        cancelRequest rid w =
          (Throw {| message := "Cannot cancel request. Status is already '"
                               +:+ status r +:+ "'." |}, w))
  /\ (forall v w', cancelRequest rid w = (Ok v, w') ->
        status r = "PENDING_SIGNATURE").
Proof.
  intros Hf. split; [|split].
  - exact (cancelRequest_pending _ _ _ _ Hf).
  - exact (cancelRequest_conflict _ _ _ _ Hf).
  - intros v w' H.
    destruct (decide (status r = "PENDING_SIGNATURE")) as [|Hne]; [assumption|].
    rewrite (cancelRequest_conflict _ _ _ _ Hf Hne) in H. discriminate.
Qed.

Lemma cancelRequest_guard_witness :
  cancelRequest "bank-tx-id-12345-abcdef" world_processing =
    (Throw {| message := "Cannot cancel request. Status is already 'PROCESSING'." |},
     world_processing)
  /\ fst (cancelRequest "bank-tx-id-12345-abcdef" world_submitted) =
       Ok ("bank-tx-id-12345-abcdef", "CANCELLED").
Proof.
  split.
  - refine (proj1 (proj2 (cancelRequest_guard world_processing
              "bank-tx-id-12345-abcdef" "c0"
              (set_status "PROCESSING" submitted_row) _)) _).
    + vm_compute. reflexivity.
    + vm_compute. discriminate.
  - vm_compute. reflexivity.
Defined.

(** ** One delivery of a withdrawal job *)

Lemma call_run {A} (e : Event) (r : Result A) w : call e r w = (r, emit e w).
Proof. reflexivity. Qed.

Lemma await_run {A} (r : Result A) w : await r w = (r, w).
Proof. reflexivity. Qed.

(** A request that is present and not in a final state reaches the [try]
    block when the service wallet is built, and the processor ends as the
    block does. *)
Lemma multiSigWorker_live ethers env chain job w r :
  withdrawalRequests w !! dbId job = Some r ->
  in_final_state (status r) = false ->
  new_Wallet ethers (SERVICE_WALLET_PRIVATE_KEY env) = Ok tt ->
  multiSigWorker ethers env chain job w =
    multiSigWorker_try ethers env chain job r w.
Proof.
  intros Hr Hs Hk. unfold multiSigWorker.
  erewrite bind_Ok by reflexivity. rewrite Hr, Hs.
  erewrite bind_Ok by (rewrite await_run, Hk; reflexivity).
  apply try_rethrow.
Qed.

(** With a key that the constructor rejects, the delivery of such a
    request throws before the [try] block and writes nothing. *)
Lemma multiSigWorker_no_wallet ethers env chain job w r e :
  withdrawalRequests w !! dbId job = Some r ->
  in_final_state (status r) = false ->
  new_Wallet ethers (SERVICE_WALLET_PRIVATE_KEY env) = Throw e ->
  multiSigWorker ethers env chain job w = (Throw e, w).
Proof.
  intros Hr Hs Hk. unfold multiSigWorker.
  erewrite bind_Ok by reflexivity. rewrite Hr, Hs.
  erewrite bind_Throw by (rewrite await_run, Hk; reflexivity).
  reflexivity.
Qed.



(** ** The conversion of amounts, in general *)














(** Fee data without EIP-1559 fields stop the delivery before the
    transfer: printing them throws. *)
Example null_fee_data_throws :
  let out := multiSigWorker ethers_lib env0 chain_legacy first_job world_submitted in
  fst out = Throw invalid_BigNumberish
  /\ edges "c0" (trace (snd out)) = [("PENDING_SIGNATURE", "PROCESSING")].
Proof. vm_compute. split; reflexivity. Qed.

(** ** The shape of every delivery *)

Lemma emits_nil w : emits [] w = w.
Proof. destruct w. unfold emits. simpl. rewrite app_nil_r. reflexivity. Qed.

Lemma emits_emits l1 l2 w : emits l2 (emits l1 w) = emits (l1 ++ l2) w.
Proof. unfold emits. simpl. rewrite app_assoc. reflexivity. Qed.

Lemma chain_only_ret env {A} (a : A) : chain_only env (ret a).
Proof. intros w. exists []. split; [constructor | symmetry; apply emits_nil]. Qed.

Lemma chain_only_await env {A} (r : Result A) : chain_only env (await r).
Proof. intros w. exists []. split; [constructor | symmetry; apply emits_nil]. Qed.

Lemma chain_only_call env {A} e (r : Result A) :
  is_chain_event env e -> chain_only env (call e r).
Proof. intros He w. exists [e]. split; [repeat constructor; exact He | reflexivity]. Qed.

Lemma chain_only_bind env {A B} (m : M A) (k : A -> M B) :
  chain_only env m -> (forall a, chain_only env (k a)) -> chain_only env (bind m k).
Proof.
  intros Hm Hk w. destruct (Hm w) as (l1 & Hl1 & E1). unfold bind.
  destruct (m w) as [[a|e] w1]; simpl in E1; subst w1.
  - destruct (Hk a (emits l1 w)) as (l2 & Hl2 & E2).
    exists (l1 ++ l2). split; [apply Forall_app; auto|].
    rewrite E2. apply emits_emits.
  - exists l1. auto.
Qed.

Lemma submit_transfer_chain_only ethers env chain r :
  chain_only env (submit_transfer ethers env chain r).
Proof.
  unfold submit_transfer.
  repeat first [ apply chain_only_bind; [|intros ?]
               | apply chain_only_call; first [exact I | split; reflexivity]
               | apply chain_only_await ].
Qed.

Lemma updated_found dbid d w r :
  withdrawalRequests w !! dbid = Some r ->
  withdrawalRequest_update dbid d w = (Ok (apply_update d r), updated dbid d w).
Proof.
  intros H. unfold updated. rewrite (update_found _ _ _ _ H). reflexivity.
Qed.

Lemma updated_lookup dbid d w r :
  withdrawalRequests w !! dbid = Some r ->
  withdrawalRequests (updated dbid d w) !! dbid = Some (apply_update d r).
Proof.
  intros H. unfold updated. rewrite (update_found _ _ _ _ H). simpl.
  apply lookup_insert_eq.
Qed.

(** Every run of the [try] block ends in one of three ways: the chain
    part throws; the transfer is submitted and recorded and the wait
    throws; or the request is completed. *)
Lemma multiSigWorker_try_cases ethers env chain job r w :
  withdrawalRequests w !! dbId job = Some r ->
  exists l, Forall (is_chain_event env) l /\
    let w1 := emits l (after_first_step job w) in
    (exists e, multiSigWorker_try ethers env chain job r w = (Throw e, w1))
    \/ (exists h e,
          multiSigWorker_try ethers env chain job r w =
            (Throw e, emit (EvWait h 1) (updated (dbId job) (to_BROADCASTED h) w1)))
    \/ (exists h,
          multiSigWorker_try ethers env chain job r w =
            (Ok tt, updated (dbId job) to_COMPLETED
                      (emit (EvWait h 1)
                         (updated (dbId job) (to_BROADCASTED h) w1)))).
Proof.
  intros Hr.
  assert (H0 : exists r0, withdrawalRequests (after_first_step job w) !! dbId job
                          = Some r0
               /\ (if bool_decide (attemptsMade job = 0)
                   then withdrawalRequest_update (dbId job) to_PROCESSING ;;; ret tt
                   else ret tt) w = (Ok tt, after_first_step job w)).
  { unfold after_first_step. case_bool_decide.
    - eexists. split; [eapply updated_lookup; exact Hr|].
      erewrite bind_Ok by (apply updated_found; exact Hr). reflexivity.
    - eexists. split; [exact Hr | reflexivity]. }
  destruct H0 as (r0 & Hr0 & Hstep).
  destruct (submit_transfer_chain_only ethers env chain r (after_first_step job w))
    as (l & Hl & Hsub).
  exists l. split; [exact Hl|]. cbv zeta.
  unfold multiSigWorker_try. erewrite bind_Ok by exact Hstep.
  destruct (submit_transfer ethers env chain r (after_first_step job w))
    as [[tx|e] w1] eqn:E; simpl in Hsub; subst w1.
  - erewrite bind_Ok by exact E.
    assert (Hr1 : withdrawalRequests (emits l (after_first_step job w)) !! dbId job
                  = Some r0) by exact Hr0.
    erewrite bind_Ok by (apply updated_found; exact Hr1).
    destruct (wait chain (hash tx) 1) as [[]|e] eqn:Ew.
    + right. right. exists (hash tx).
      erewrite bind_Ok by reflexivity.
      erewrite bind_Ok; [reflexivity|].
      apply updated_found. simpl. eapply updated_lookup. exact Hr1.
    + right. left. exists (hash tx), e.
      erewrite bind_Throw by reflexivity. reflexivity.
  - left. exists e. erewrite bind_Throw by exact E. reflexivity.
Qed.

Lemma world_after_id w dbid r :
  withdrawalRequests w !! dbid = Some r -> world_after w dbid r [] [] = w.
Proof.
  intros H. destruct w. unfold world_after. simpl in *.
  rewrite !app_nil_r, (insert_id _ _ _ H). reflexivity.
Qed.

Lemma emits_world_after w dbid r hs tr l :
  emits l (world_after w dbid r hs tr) = world_after w dbid r hs (tr ++ l).
Proof. unfold emits, world_after. simpl. rewrite app_assoc. reflexivity. Qed.

Lemma updated_world_after w dbid r hs tr d s :
  u_history d = Some s ->
  updated dbid d (world_after w dbid r hs tr) =
    world_after w dbid (apply_update d r) (hs ++ [s])
      (tr ++ [EvWithdrawalUpdate dbid (status r) (status (apply_update d r))]).
Proof.
  intros Hh. unfold updated.
  rewrite (update_found dbid d _ r) by apply lookup_insert_eq.
  unfold world_after. simpl. rewrite Hh. simpl.
  rewrite insert_insert_eq, map_app, !app_assoc. reflexivity.
Qed.

Lemma after_first_step_eq job w r :
  withdrawalRequests w !! dbId job = Some r ->
  after_first_step job w =
    world_after w (dbId job) (first_step_row job r) (first_step_history job)
      (first_step_events job r).
Proof.
  intros Hr. unfold after_first_step, first_step_row, first_step_history,
    first_step_events.
  case_bool_decide.
  - rewrite <- (world_after_id w (dbId job) r Hr) at 1.
    rewrite (updated_world_after _ _ _ _ _ _ "PROCESSING") by reflexivity.
    reflexivity.
  - symmetry. apply world_after_id. exact Hr.
Qed.

(** The three outcomes of the [try] block, with the world written out. *)
Lemma multiSigWorker_try_outcomes ethers env chain job r w :
  withdrawalRequests w !! dbId job = Some r ->
  let k := dbId job in
  let r1 := first_step_row job r in
  let hs := first_step_history job in
  let tr := first_step_events job r in
  exists l, Forall (is_chain_event env) l /\
    ((exists e, multiSigWorker_try ethers env chain job r w =
                  (Throw e, world_after w k r1 hs (tr ++ l)))
     \/ (exists h e,
           multiSigWorker_try ethers env chain job r w =
             (Throw e,
              world_after w k (apply_update (to_BROADCASTED h) r1)
                (hs ++ ["BROADCASTED"])
                (tr ++ l ++ [EvWithdrawalUpdate k (status r1) "BROADCASTED";
                             EvWait h 1])))
     \/ (exists h,
           multiSigWorker_try ethers env chain job r w =
             (Ok tt,
              world_after w k
                (apply_update to_COMPLETED (apply_update (to_BROADCASTED h) r1))
                (hs ++ ["BROADCASTED"; "COMPLETED"])
                (tr ++ l ++ [EvWithdrawalUpdate k (status r1) "BROADCASTED";
                             EvWait h 1;
                             EvWithdrawalUpdate k "BROADCASTED" "COMPLETED"])))).
Proof.
  intros Hr. cbv zeta.
  destruct (multiSigWorker_try_cases ethers env chain job r w Hr)
    as (l & Hl & H).
  exists l. split; [exact Hl|]. cbv zeta in H.
  rewrite (after_first_step_eq job w r Hr), emits_world_after in H.
  destruct H as [(e & ->) | [(h & e & ->) | (h & ->)]].
  - left. eauto.
  - right. left. exists h, e. f_equal.
    rewrite (updated_world_after _ _ _ _ _ _ "BROADCASTED") by reflexivity.
    change (emit ?e ?w) with (emits [e] w). rewrite emits_world_after.
    rewrite <- !app_assoc. reflexivity.
  - right. right. exists h. f_equal.
    rewrite (updated_world_after _ _ _ _ _ _ "BROADCASTED") by reflexivity.
    change (emit ?e ?w) with (emits [e] w). rewrite emits_world_after.
    rewrite (updated_world_after _ _ _ _ _ _ "COMPLETED") by reflexivity.
    rewrite <- !app_assoc. reflexivity.
Qed.

(** ** History entries written by the handlers *)

Lemma count_history_world_after w k dbid r hs tr s :
  count_history k s (world_after w dbid r hs tr) =
    count_history k s w
    + length (filter (λ x, dbid = k ∧ x = s) hs).
Proof.
  unfold count_history, world_after. simpl.
  rewrite filter_app, length_app. f_equal.
  induction hs as [|x hs IH]; [reflexivity|].
  simpl. rewrite !filter_cons. simpl.
  destruct (decide (dbid = k ∧ x = s)); simpl; rewrite IH; reflexivity.
Qed.

Lemma multiSigWorker_on_failed_found job err w r :
  withdrawalRequests w !! dbId job = Some r ->
  multiSigWorker_on_failed job err w =
    (Ok tt,
     world_after w (dbId job) (apply_update (to_FAILED (message err)) r)
       ["FAILED"]
       [EvWithdrawalUpdate (dbId job) (status r) "FAILED";
        EvAlert "Multi-Sig Withdrawal Job Failed"
          {| jobId := job_id job; databaseId := dbId job;
             attempts := attemptsMade job + 1; error := message err |}]).
Proof.
  intros Hr. unfold multiSigWorker_on_failed.
  erewrite bind_Ok by (apply updated_found; exact Hr).
  rewrite <- (world_after_id w (dbId job) r Hr) at 1.
  rewrite (updated_world_after _ _ _ _ _ _ "FAILED") by reflexivity.
  unfold sendAlert, log. f_equal.
  change (emit ?e ?w) with (emits [e] w). rewrite emits_world_after.
  reflexivity.
Qed.

Lemma multiSigWorker_on_failed_missing job err w :
  withdrawalRequests w !! dbId job = None ->
  multiSigWorker_on_failed job err w = (Throw record_not_found, w).
Proof.
  intros Hr. unfold multiSigWorker_on_failed.
  erewrite bind_Throw by (apply update_missing; exact Hr). reflexivity.
Qed.

Lemma keeps_bind k {A B} (m : M A) (f : A -> M B) :
  keeps k m -> (forall a, keeps k (f a)) -> keeps k (bind m f).
Proof.
  intros Hm Hf w. unfold bind. specialize (Hm w).
  destruct (m w) as [[a|e] w1]; simpl in *.
  - rewrite (Hf a w1). exact Hm.
  - exact Hm.
Qed.

Lemma keeps_try_catch k {A} (m : M A) (h : Error -> M A) :
  keeps k m -> (forall e, keeps k (h e)) -> keeps k (try_catch m h).
Proof.
  intros Hm Hh w. unfold try_catch. specialize (Hm w).
  destruct (m w) as [[a|e] w1]; simpl in *.
  - exact Hm.
  - rewrite (Hh e w1). exact Hm.
Qed.

Lemma keeps_log k e : keeps k (log e).
Proof. intros w. reflexivity. Qed.

Lemma keeps_throw k {A} e : keeps k (@throw A e).
Proof. intros w. reflexivity. Qed.

Lemma keeps_listener k m : keeps k m -> keeps k (listener m).
Proof. intros H w. exact (H w). Qed.

Lemma keeps_on_failed k job err : keeps k (multiSigWorker_on_failed job err).
Proof.
  intros w. destruct (withdrawalRequests w !! dbId job) as [r|] eqn:Hr.
  - rewrite (multiSigWorker_on_failed_found _ _ _ _ Hr). simpl.
    rewrite count_history_world_after. simpl. rewrite filter_cons.
    destruct (decide _) as [[_ ?]|]; [discriminate|]. simpl. lia.
  - rewrite (multiSigWorker_on_failed_missing _ _ _ Hr). reflexivity.
Qed.

(** A delivery after the first one adds no PROCESSING entry, whatever the
    chain answers. *)
Lemma keeps_later_delivery k ethers env chain job :
  attemptsMade job <> 0 -> keeps k (multiSigWorker ethers env chain job).
Proof.
  intros Ha w. destruct (withdrawalRequests w !! dbId job) as [r|] eqn:Hr.
  - destruct (in_final_state (status r)) eqn:Hs.
    + rewrite skip_guard; [reflexivity|].
      right. exists r. split; [exact Hr|]. apply in_final_state_spec. exact Hs.
    + destruct (new_Wallet ethers (SERVICE_WALLET_PRIVATE_KEY env))
        as [[]|ek] eqn:Hk;
        [| rewrite (multiSigWorker_no_wallet _ _ _ _ _ r ek Hr Hs Hk);
           reflexivity].
      rewrite (multiSigWorker_live _ _ _ _ _ r Hr Hs Hk).
      destruct (multiSigWorker_try_outcomes ethers env chain job r w Hr)
        as (l & _ & H). cbv zeta in H.
      unfold first_step_history in H.
      rewrite bool_decide_eq_false_2 in H by exact Ha.
      destruct H as [(e & ->) | [(h & e & ->) | (h & ->)]]; simpl;
        rewrite count_history_world_after; simpl;
        rewrite ?filter_cons, ?filter_nil;
        repeat (destruct (decide _) as [[_ ?]|]; [discriminate|]); simpl; lia.
  - rewrite skip_guard; [reflexivity|]. left. exact Hr.
Qed.

Lemma keeps_later_attempts k ethers env chains retries :
  forall job, attemptsMade job <> 0 ->
    keeps k (attempt_loop (multiSig ethers env) chains retries job).
Proof.
  induction retries as [|n IH]; intros job Ha; simpl;
    (apply keeps_bind; [apply keeps_log | intros _]);
    (apply keeps_try_catch; [apply keeps_later_delivery; exact Ha | intros e]).
  - apply keeps_bind; [apply keeps_listener, keeps_on_failed | intros _].
    apply keeps_throw.
  - apply keeps_bind; [apply keeps_log | intros _].
    apply keeps_bind; [apply keeps_listener, keeps_on_failed | intros _].
    apply IH. simpl. discriminate.
Qed.

Lemma new_events_world_after {A} (m : M A) w res dbid r hs tr :
  m w = (res, world_after w dbid r hs tr) -> new_events m w = tr.
Proof.
  intros H. unfold new_events. rewrite H. simpl. apply drop_app_length.
Qed.

Lemma edges_app dbid l1 l2 : edges dbid (l1 ++ l2) = edges dbid l1 ++ edges dbid l2.
Proof. apply omap_app. Qed.

Lemma edges_chain env dbid l :
  Forall (is_chain_event env) l -> edges dbid l = [].
Proof.
  induction 1 as [|e l He _ IH]; [reflexivity|].
  destruct e; simpl in *; try contradiction; exact IH.
Qed.

Lemma edges_update dbid old new :
  edges dbid [EvWithdrawalUpdate dbid old new] = [(old, new)].
Proof. unfold edges. simpl. rewrite bool_decide_eq_true_2 by reflexivity. reflexivity. Qed.

(** The handler of a failed attempt, as [attempt_loop] runs it. *)
Lemma keeps_failure_path k ethers env chains retries job err :
  keeps k
    (match retries with
     | O =>
         (listener (on_failed (multiSig ethers env) (count_attempt job) err)) ;;;
         throw err
     | S retries' =>
         (log (EvDelayed job (backoff_delay job))) ;;;
         (listener (on_failed (multiSig ethers env) (count_attempt job) err)) ;;;
         attempt_loop (multiSig ethers env) chains retries' (count_attempt job)
     end).
Proof.
  destruct retries.
  - apply keeps_bind; [apply keeps_listener, keeps_on_failed | intros _].
    apply keeps_throw.
  - apply keeps_bind; [apply keeps_log | intros _].
    apply keeps_bind; [apply keeps_listener, keeps_on_failed | intros _].
    apply keeps_later_attempts. simpl. discriminate.
Qed.

(** The delivery with attempt counter 0 of a live request, once the
    service wallet is built. *)
Lemma first_delivery ethers env chain job w r :
  withdrawalRequests w !! dbId job = Some r ->
  in_final_state (status r) = false ->
  attemptsMade job = 0 ->
  new_Wallet ethers (SERVICE_WALLET_PRIVATE_KEY env) = Ok tt ->
  let m := multiSigWorker ethers env chain job in
  (exists rest,
     new_events m w =
       EvWithdrawalUpdate (dbId job) (status r) "PROCESSING" :: rest
     /\ forall old, (old, "PROCESSING") ∉ edges (dbId job) rest)
  /\ (exists r', withdrawalRequests (snd (m w)) !! dbId job = Some r'
                 /\ errorMessage r' = None)
  /\ count_history (dbId job) "PROCESSING" (snd (m w)) =
       S (count_history (dbId job) "PROCESSING" w).
Proof.
  intros Hr Hs Ha Hk m. subst m.
  destruct (multiSigWorker_try_outcomes ethers env chain job r w Hr)
    as (l & Hl & H). cbv zeta in H.
  rewrite <- !(multiSigWorker_live _ _ _ _ _ r Hr Hs Hk) in H.
  unfold first_step_history, first_step_events, first_step_row in H.
  rewrite bool_decide_eq_true_2 in H by exact Ha.
  destruct H as [(e & H) | [(h & e & H) | (h & H)]];
    rewrite (new_events_world_after _ _ _ _ _ _ _ H); rewrite H; simpl;
    (split; [|split]).
  all: try (eexists; split; [reflexivity|];
            intros old; rewrite ?edges_app, (edges_chain _ _ l Hl); simpl;
            rewrite ?bool_decide_eq_true_2 by reflexivity;
            rewrite ?elem_of_cons, elem_of_nil; intros Hin;
            repeat destruct Hin as [Hin|Hin]; congruence).
  all: try (eexists; split; [apply lookup_insert_eq | reflexivity]).
  all: rewrite count_history_world_after; simpl;
    rewrite ?filter_cons, ?filter_nil;
    rewrite decide_True by (split; reflexivity);
    repeat (destruct (decide _) as [[_ ?]|]; [discriminate|]); simpl; lia.
Qed.

(** C6: for a request that is present and not in a final state, the
    delivery with attempt counter 0 that gets past the construction of
    the service wallet first sets PROCESSING, leaves the row without error
    message and appends exactly one PROCESSING history entry; a delivery
    with a positive attempt counter makes no transition into PROCESSING
    and appends no PROCESSING entry; and a whole job, from its first
    delivery through any number of retries, appends exactly one PROCESSING
    entry. *)
Theorem PROCESSING_once_per_job ethers env job w r :
  withdrawalRequests w !! dbId job = Some r ->
  in_final_state (status r) = false ->
  (attemptsMade job = 0 ->
   new_Wallet ethers (SERVICE_WALLET_PRIVATE_KEY env) = Ok tt ->
   forall chain,
     let m := multiSigWorker ethers env chain job in
     (exists rest,
        new_events m w =
          EvWithdrawalUpdate (dbId job) (status r) "PROCESSING" :: rest
        /\ forall old, (old, "PROCESSING") ∉ edges (dbId job) rest)
     /\ (exists r', withdrawalRequests (snd (m w)) !! dbId job = Some r'
                    /\ errorMessage r' = None)
     /\ count_history (dbId job) "PROCESSING" (snd (m w)) =
          S (count_history (dbId job) "PROCESSING" w))
  /\ (attemptsMade job <> 0 -> forall chain,
        let m := multiSigWorker ethers env chain job in
        (forall old, (old, "PROCESSING") ∉ edges (dbId job) (new_events m w))
        /\ count_history (dbId job) "PROCESSING" (snd (m w)) =
             count_history (dbId job) "PROCESSING" w)
  /\ (attemptsMade job = 0 ->
      new_Wallet ethers (SERVICE_WALLET_PRIVATE_KEY env) = Ok tt ->
      forall chains retries,
        count_history (dbId job) "PROCESSING"
          (snd (attempt_loop (multiSig ethers env) chains retries job w)) =
          S (count_history (dbId job) "PROCESSING" w)).
Proof.
  intros Hr Hs.
  split; [intros Ha Hk chain; exact (first_delivery _ _ _ _ _ _ Hr Hs Ha Hk) | split].
  - intros Ha chain m. subst m. split.
    + intros old.
      destruct (new_Wallet ethers (SERVICE_WALLET_PRIVATE_KEY env))
        as [[]|ek] eqn:Hk.
      * destruct (multiSigWorker_try_outcomes ethers env chain job r w Hr)
          as (l & Hl & H). cbv zeta in H.
        rewrite <- !(multiSigWorker_live _ _ _ _ _ r Hr Hs Hk) in H.
        unfold first_step_history, first_step_events, first_step_row in H.
        rewrite bool_decide_eq_false_2 in H by exact Ha.
        destruct H as [(e & H) | [(h & e & H) | (h & H)]];
          rewrite (new_events_world_after _ _ _ _ _ _ _ H); simpl;
          rewrite ?edges_app, (edges_chain _ _ l Hl); simpl;
          rewrite ?bool_decide_eq_true_2 by reflexivity;
          rewrite ?elem_of_cons, elem_of_nil; intros Hin;
          repeat destruct Hin as [Hin|Hin]; congruence.
      * unfold new_events.
        rewrite (multiSigWorker_no_wallet _ _ _ _ _ r ek Hr Hs Hk). simpl.
        rewrite drop_all. intros Hin. apply elem_of_nil in Hin. exact Hin.
    + apply keeps_later_delivery. exact Ha.
  - intros Ha Hk chains retries.
    assert (Hr' : withdrawalRequests (emit (EvActive job) w) !! dbId job = Some r)
      by exact Hr.
    destruct (first_delivery ethers env (chains (attemptsMade job)) job
                _ r Hr' Hs Ha Hk) as (_ & _ & Hc).
    cbv zeta in Hc.
    change (count_history (dbId job) "PROCESSING" (emit (EvActive job) w))
      with (count_history (dbId job) "PROCESSING" w) in Hc.
    rewrite <- Hc.
    assert (Hloop : attempt_loop (multiSig ethers env) chains retries job w =
              try_catch (multiSigWorker ethers env (chains (attemptsMade job)) job)
                (fun err =>
                   match retries with
                   | O =>
                       (listener (on_failed (multiSig ethers env)
                                    (count_attempt job) err)) ;;; throw err
                   | S retries' =>
                       (log (EvDelayed job (backoff_delay job))) ;;;
                       (listener (on_failed (multiSig ethers env)
                                    (count_attempt job) err)) ;;;
                       attempt_loop (multiSig ethers env) chains retries'
                         (count_attempt job)
                   end) (emit (EvActive job) w))
      by (destruct retries; reflexivity).
    rewrite Hloop. unfold try_catch.
    destruct (multiSigWorker ethers env (chains (attemptsMade job)) job
                (emit (EvActive job) w)) as [[[]|err] w1]; [reflexivity|].
    apply keeps_failure_path.
Qed.

(** Scenario B: the node fails during four attempts and answers during
    the fifth; the key of [env0] is one that the wallet constructor
    accepts. *)
Lemma PROCESSING_once_per_job_witness :
  new_Wallet ethers_lib (SERVICE_WALLET_PRIVATE_KEY env0) = Ok tt
  /\ count_history "c0" "PROCESSING"
       (snd (attempt_loop (multiSig ethers_lib env0) scenario_B 4 first_job
               world_submitted)) = 1
  /\ fst (attempt_loop (multiSig ethers_lib env0) scenario_B 4 first_job
            world_submitted) = Ok tt.
Proof.
  split; [vm_compute; reflexivity | split].
  - etransitivity.
    + exact (proj2 (proj2 (PROCESSING_once_per_job ethers_lib env0 first_job
                             world_submitted submitted_row
                             ltac:(vm_compute; reflexivity)
                             ltac:(vm_compute; reflexivity)))
               eq_refl ltac:(vm_compute; reflexivity) scenario_B 4).
    + vm_compute. reflexivity.
  - vm_compute. reflexivity.
Defined.

(** ** One delivery of a raw-broadcast job *)

Lemma txHash_taken_insert t k r h :
  txHash_taken (<[k := r]> t) k h = txHash_taken t k h.
Proof.
  destruct h as [h|]; [|reflexivity]. simpl. apply bool_decide_ext.
  split; intros (k' & r' & Hl & Hk & Hh); exists k', r'.
  - rewrite lookup_insert_ne in Hl by congruence. auto.
  - rewrite lookup_insert_ne by congruence. auto.
Qed.

Lemma raw_update_run dbid d w r :
  rawTransactionBroadcasts w !! dbid = Some r ->
  txHash_taken (rawTransactionBroadcasts w) dbid
    (raw_txHash (apply_raw_update d r)) = false ->
  rawTransactionBroadcast_update dbid d w =
    (Ok (apply_raw_update d r),
     raw_world_after w dbid (apply_raw_update d r)
       [EvRawUpdate dbid (raw_status r) (raw_status (apply_raw_update d r))]).
Proof.
  intros Hr Ht. unfold rawTransactionBroadcast_update. rewrite Hr. cbv zeta.
  rewrite Ht. reflexivity.
Qed.

Lemma raw_update_taken dbid d w r :
  rawTransactionBroadcasts w !! dbid = Some r ->
  txHash_taken (rawTransactionBroadcasts w) dbid
    (raw_txHash (apply_raw_update d r)) = true ->
  rawTransactionBroadcast_update dbid d w = (Throw unique_constraint_failed, w).
Proof.
  intros Hr Ht. unfold rawTransactionBroadcast_update. rewrite Hr. cbv zeta.
  rewrite Ht. reflexivity.
Qed.

(** C9: a raw-broadcast delivery does nothing and returns normally when
    the row is missing or not PENDING.  For a PENDING row it broadcasts
    the stored raw transaction; it then writes BROADCASTED with the
    returned hash, waits for one confirmation and writes CONFIRMED.  What
    the broadcast, the store (a hash that another row holds) or the wait
    throws is thrown by the delivery, with the writes made so far kept. *)
Theorem rawTxBroadcastWorker_delivery env chain job w :
  let out := rawTxBroadcastWorker env chain job w in
  let k := dbId job in
  (rawTransactionBroadcasts w !! k = None -> out = (Ok tt, w))
  /\ (forall r, rawTransactionBroadcasts w !! k = Some r ->
        raw_status r <> "PENDING" -> out = (Ok tt, w))
  /\ (forall r, rawTransactionBroadcasts w !! k = Some r ->
        raw_status r = "PENDING" ->
        let sent := EvBroadcastTransaction (rpcUrl_of env) (rawTx r) in
        match broadcastTransaction chain (rawTx r) with
        | Throw e => out = (Throw e, emit sent w)
        | Ok tx =>
            if txHash_taken (rawTransactionBroadcasts w) k (Some (hash tx))
            then out = (Throw unique_constraint_failed, emit sent w)
            else
              match wait chain (hash tx) 1 with
              | Throw e =>
                  out = (Throw e,
                         raw_world_after w k (raw_broadcasted r (hash tx))
                           [sent; EvRawUpdate k "PENDING" "BROADCASTED";
                            EvWait (hash tx) 1])
              | Ok _ =>
                  out = (Ok tt,
                         raw_world_after w k (raw_confirmed r (hash tx))
                           [sent; EvRawUpdate k "PENDING" "BROADCASTED";
                            EvWait (hash tx) 1;
                            EvRawUpdate k "BROADCASTED" "CONFIRMED"])
              end
        end).
Proof.
  cbv zeta. unfold rawTxBroadcastWorker.
  erewrite bind_Ok by reflexivity.
  split; [|split].
  - intros ->. reflexivity.
  - intros r -> Hs. rewrite bool_decide_eq_true_2 by exact Hs. reflexivity.
  - intros r Hr Hs. rewrite Hr.
    rewrite bool_decide_eq_false_2 by (intros H; apply H; exact Hs).
    rewrite try_rethrow. unfold rawTxBroadcastWorker_try.
    destruct (broadcastTransaction chain (rawTx r)) as [tx|e] eqn:Eb.
    2:{ erewrite bind_Throw by (rewrite call_run; reflexivity). reflexivity. }
    erewrite bind_Ok by (rewrite call_run; reflexivity).
    destruct (txHash_taken (rawTransactionBroadcasts w) (dbId job)
                (Some (hash tx))) eqn:Et.
    { erewrite bind_Throw; [reflexivity|].
      apply raw_update_taken with r; [exact Hr | exact Et]. }
    erewrite bind_Ok by (apply raw_update_run; [exact Hr | exact Et]).
    destruct (wait chain (hash tx) 1) as [[]|e] eqn:Ew.
    2:{ erewrite bind_Throw by (rewrite call_run; reflexivity).
        unfold emit, raw_world_after, raw_broadcasted. simpl.
        rewrite Hs, <- !app_assoc. reflexivity. }
    erewrite bind_Ok by (rewrite call_run; reflexivity).
    erewrite bind_Ok.
    2:{ apply raw_update_run; simpl.
        - apply lookup_insert_eq.
        - rewrite txHash_taken_insert. exact Et. }
    unfold ret, emit, raw_world_after, raw_confirmed. simpl.
    rewrite Hs, insert_insert_eq, <- !app_assoc. reflexivity.
Qed.

Lemma rawTxBroadcastWorker_delivery_witness :
  rawTxBroadcastWorker env0 chain_ok first_job world_raw_submitted =
    (Ok tt,
     raw_world_after world_raw_submitted "c0"
       (raw_confirmed raw_submitted_row "0xrawhash")
       [EvBroadcastTransaction "https://sepolia.example" "0xf86b01";
        EvRawUpdate "c0" "PENDING" "BROADCASTED";
        EvWait "0xrawhash" 1;
        EvRawUpdate "c0" "BROADCASTED" "CONFIRMED"])
  /\ rawTxBroadcastWorker env0 chain_ok first_job
       (snd (rawTxBroadcastWorker env0 chain_ok first_job world_raw_submitted)) =
     (Ok tt, snd (rawTxBroadcastWorker env0 chain_ok first_job world_raw_submitted)).
Proof.
  split.
  - exact (proj2 (proj2 (rawTxBroadcastWorker_delivery env0 chain_ok first_job
                           world_raw_submitted))
             raw_submitted_row ltac:(vm_compute; reflexivity) eq_refl).
  - refine (proj1 (proj2 (rawTxBroadcastWorker_delivery env0 chain_ok first_job _))
              (raw_confirmed raw_submitted_row "0xrawhash") _ _).
    + vm_compute. reflexivity.
    + vm_compute. discriminate.
Defined.

(** ** The partially signed payload is not read *)

Lemma blind_ret {A B} (R : A -> B -> Prop) a b : R a b -> blind R (ret a) (ret b).
Proof. intros H w. split; [reflexivity | exact H]. Qed.

Lemma blind_throw {A B} (R : A -> B -> Prop) e : blind R (throw e) (throw e).
Proof. intros w. split; reflexivity. Qed.

Lemma blind_await {A} (r : Result A) : blind eq (await r) (await r).
Proof. intros w. split; [reflexivity|]. simpl. destruct r; reflexivity. Qed.

Lemma blind_call {A} e (r : Result A) : blind eq (call e r) (call e r).
Proof. intros w. split; [reflexivity|]. simpl. destruct r; reflexivity. Qed.

Lemma blind_log e : blind eq (log e) (log e).
Proof. intros w. split; reflexivity. Qed.

Lemma blind_bind {A A' B B'} (R : A -> A' -> Prop) (S : B -> B' -> Prop)
    (m : M A) (m' : M A') (k : A -> M B) (k' : A' -> M B') :
  blind R m m' -> (forall a a', R a a' -> blind S (k a) (k' a')) ->
  blind S (bind m k) (bind m' k').
Proof.
  intros Hm Hk w. unfold bind. destruct (Hm w) as [Hw Hr].
  destruct (m w) as [[a|e] w1], (m' (blank_payloads w)) as [[a'|e'] w1'];
    simpl in *; try contradiction; subst.
  - apply (Hk a a' Hr).
  - split; reflexivity.
Qed.

Lemma blind_try_catch {A B} (R : A -> B -> Prop) m m' h h' :
  blind R m m' -> (forall e, blind R (h e) (h' e)) ->
  blind R (try_catch m h) (try_catch m' h').
Proof.
  intros Hm Hh w. unfold try_catch. destruct (Hm w) as [Hw Hr].
  destruct (m w) as [[a|e] w1], (m' (blank_payloads w)) as [[a'|e'] w1'];
    simpl in *; try contradiction; subst.
  - split; [reflexivity | exact Hr].
  - apply (Hh e').
Qed.

Lemma blind_listener m m' : blind eq m m' -> blind eq (listener m) (listener m').
Proof. intros H w. destruct (H w) as [Hw _]. split; [exact Hw | reflexivity]. Qed.

Lemma blind_update dbid d :
  blind (fun _ _ => True) (withdrawalRequest_update dbid d)
        (withdrawalRequest_update dbid d).
Proof.
  intros w. unfold withdrawalRequest_update, blank_payloads. simpl.
  rewrite lookup_fmap.
  destruct (withdrawalRequests w !! dbid) as [r|]; simpl.
  - split; [|exact I]. rewrite fmap_insert. reflexivity.
  - split; reflexivity.
Qed.

Lemma blind_multiSigWorker_try ethers env chain job r :
  blind eq (multiSigWorker_try ethers env chain job r)
           (multiSigWorker_try ethers env chain job
              (with_partiallySignedTx "" r)).
Proof.
  unfold multiSigWorker_try.
  change (submit_transfer ethers env chain (with_partiallySignedTx "" r))
    with (submit_transfer ethers env chain r).
  unfold submit_transfer.
  repeat first
    [ apply blind_ret; reflexivity
    | apply blind_call
    | apply blind_await
    | apply (blind_bind (fun _ _ => True)); [apply blind_update | intros _ _ _]
    | apply (blind_bind eq); [ | intros ? ? <-]
    | case_bool_decide ].
Qed.

Lemma blind_multiSigWorker ethers env chain job :
  blind eq (multiSigWorker ethers env chain job)
           (multiSigWorker ethers env chain job).
Proof.
  intros w. unfold multiSigWorker.
  erewrite !bind_Ok by reflexivity.
  unfold blank_payloads at 2 3. simpl. rewrite lookup_fmap.
  destruct (withdrawalRequests w !! dbId job) as [r|]; simpl.
  - destruct (in_final_state (status r)).
    + split; reflexivity.
    + apply (blind_bind eq); [apply blind_await | intros _ _ _].
      apply blind_try_catch; [apply blind_multiSigWorker_try|].
      intros e. apply blind_throw.
  - split; reflexivity.
Qed.

Lemma blind_eq_run {A} (m m' : M A) w :
  blind eq m m' ->
  fst (m' (blank_payloads w)) = fst (m w)
  /\ snd (m' (blank_payloads w)) = blank_payloads (snd (m w)).
Proof.
  intros H. destruct (H w) as [Hw Hr]. split; [|exact Hw].
  destruct (fst (m w)), (fst (m' (blank_payloads w)));
    try contradiction; congruence.
Qed.

(** The events of a delivery: the transfer is signed with the key of the
    service wallet. *)
Lemma delivery_transfers_signed ethers env chain job w e :
  e ∈ new_events (multiSigWorker ethers env chain job) w ->
  match e with
  | EvTransfer rpc signer _ _ _ _ =>
      rpc = rpcUrl_of env /\ signer = SERVICE_WALLET_PRIVATE_KEY env
  | _ => True
  end.
Proof.
  destruct (withdrawalRequests w !! dbId job) as [r|] eqn:Hr.
  - destruct (in_final_state (status r)) eqn:Hs.
    + unfold new_events. rewrite skip_guard.
      * simpl. rewrite drop_all. intros H. apply elem_of_nil in H. contradiction.
      * right. exists r. split; [exact Hr|]. apply in_final_state_spec. exact Hs.
    + destruct (new_Wallet ethers (SERVICE_WALLET_PRIVATE_KEY env))
        as [[]|ek] eqn:Hk;
        [| unfold new_events;
           rewrite (multiSigWorker_no_wallet _ _ _ _ _ r ek Hr Hs Hk); simpl;
           rewrite drop_all; intros H; apply elem_of_nil in H; contradiction].
      destruct (multiSigWorker_try_outcomes ethers env chain job r w Hr)
        as (l & Hl & H). cbv zeta in H.
      rewrite <- !(multiSigWorker_live _ _ _ _ _ r Hr Hs Hk) in H.
      assert (Hl' : forall e, e ∈ l ->
                 match e with
                 | EvTransfer rpc signer _ _ _ _ =>
                     rpc = rpcUrl_of env /\ signer = SERVICE_WALLET_PRIVATE_KEY env
                 | _ => True
                 end).
      { intros e' He'. rewrite Forall_forall in Hl. specialize (Hl e' He').
        destruct e'; simpl in Hl; try exact I. exact Hl. }
      unfold first_step_events in H.
      destruct H as [(e0 & H) | [(h & e0 & H) | (h & H)]];
        rewrite (new_events_world_after _ _ _ _ _ _ _ H);
        rewrite ?elem_of_app, ?elem_of_cons, ?elem_of_nil;
        case_bool_decide;
        rewrite ?elem_of_cons, ?elem_of_nil;
        intros Hin;
        repeat match goal with Hor : _ \/ _ |- _ => destruct Hor end; subst;
        try exact I; try contradiction; try (apply Hl'; assumption).
  - unfold new_events. rewrite skip_guard by (left; exact Hr).
    simpl. rewrite drop_all. intros H. apply elem_of_nil in H. contradiction.
Qed.

Lemma processNewRequest_persists rd w v w' :
  processNewRequest rd w = (Ok v, w') ->
  exists r, withdrawalRequests w' !! cuid w = Some r
            /\ partiallySignedTx r = partially_signed_tx rd.
Proof.
  unfold processNewRequest, withdrawalRequest_findUnique_requestId.
  erewrite bind_Ok by reflexivity.
  destruct (snd <$> find_by_requestId (withdrawalRequests w) (request_id rd));
    [discriminate|].
  unfold bind, withdrawalRequest_create.
  case_bool_decide; [discriminate|].
  simpl. intros Hrun. injection Hrun as _ <-. simpl.
  eexists. split; [apply lookup_insert_eq | reflexivity].
Qed.

(** C10: the payload is stored by the intake and a delivery does not
    read it.  Two worlds that differ only in [partiallySignedTx] fields
    give the same result and the same trace, hence the same transfer
    (contract, destination, amount, fees), and final worlds that again
    differ only in these fields; every transfer of a delivery is signed
    with the key of the service wallet. *)
Theorem partiallySignedTx_not_read ethers env chain job w1 w2 :
  blank_payloads w1 = blank_payloads w2 ->
  let m := multiSigWorker ethers env chain job in
  fst (m w1) = fst (m w2)
  /\ trace (snd (m w1)) = trace (snd (m w2))
  /\ blank_payloads (snd (m w1)) = blank_payloads (snd (m w2))
  /\ (forall e, e ∈ new_events m w1 ->
        match e with
        | EvTransfer rpc signer _ _ _ _ =>
            rpc = rpcUrl_of env /\ signer = SERVICE_WALLET_PRIVATE_KEY env
        | _ => True
        end)
  /\ (forall rd w v w', processNewRequest rd w = (Ok v, w') ->
        exists r, withdrawalRequests w' !! cuid w = Some r
                  /\ partiallySignedTx r = partially_signed_tx rd).
Proof.
  intros Hb m.
  destruct (blind_eq_run m m w1 (blind_multiSigWorker ethers env chain job))
    as [Hf1 Hs1].
  destruct (blind_eq_run m m w2 (blind_multiSigWorker ethers env chain job))
    as [Hf2 Hs2].
  rewrite Hb in Hf1, Hs1.
  assert (Hw : blank_payloads (snd (m w1)) = blank_payloads (snd (m w2)))
    by congruence.
  repeat split.
  - congruence.
  - exact (f_equal trace Hw).
  - exact Hw.
  - apply delivery_transfers_signed.
  - apply processNewRequest_persists.
Qed.

Lemma partiallySignedTx_not_read_witness :
  world_submitted <> world_submitted'
  /\ new_events (multiSigWorker ethers_lib env0 chain_ok first_job) world_submitted
     = new_events (multiSigWorker ethers_lib env0 chain_ok first_job) world_submitted'.
Proof.
  split.
  - intros H. apply (f_equal (fun w => partiallySignedTx <$> withdrawalRequests w !! "c0")) in H.
    vm_compute in H. discriminate.
  - unfold new_events.
    rewrite (proj1 (proj2 (partiallySignedTx_not_read ethers_lib env0 chain_ok
                             first_job world_submitted world_submitted'
                             ltac:(vm_compute; reflexivity)))).
    reflexivity.
Defined.

(** ** The status graph *)



Lemma edges_elem dbid tr old new :
  (old, new) ∈ edges dbid tr <-> EvWithdrawalUpdate dbid old new ∈ tr.
Proof.
  unfold edges. rewrite list_elem_of_omap. split.
  - intros (e & He & Heq). destruct e; try discriminate.
    case_bool_decide; [|discriminate]. injection Heq as -> ->. subst. exact He.
  - intros He. eexists. split; [exact He|]. simpl.
    rewrite bool_decide_eq_true_2 by reflexivity. reflexivity.
Qed.


Lemma in_final_state_false s :
  in_final_state s = false -> s <> "COMPLETED" /\ s <> "CANCELLED".
Proof.
  intros H. split; intros ->; vm_compute in H; discriminate.
Qed.

Lemma new_events_noop {A} (m : M A) w res :
  m w = (res, w) -> new_events m w = [].
Proof. intros H. unfold new_events. rewrite H. apply drop_all. Qed.

(** ** The terminal-failure handler and final states *)

(** C2 fails for the terminal-failure handler: on the COMPLETED request
    of [world_completed] it overwrites the status with FAILED, records
    the error message and appends a FAILED history entry; the delivery
    handler leaves the same world untouched. *)
Theorem on_failed_overwrites_final_state :
  withdrawalRequests world_completed !! "c0" =
    Some (completed_row submitted_row "0xhash")
  /\ multiSigWorker ethers_lib env0 chain_down duplicate_job world_completed =
       (Ok tt, world_completed)
  /\ multiSigWorker_on_failed duplicate_job rpc_down world_completed =
       (Ok tt,
        world_after world_completed "c0"
          {| wr_id := "c0"; requestId := "bank-tx-id-12345-abcdef";
             status := "FAILED";
             treasuryContractAddress := "0xTreasury";
             destinationAddress := "0xCustomer";
             tokenContractAddress := "0xUsdt";
             amount := "1500.00";
             partiallySignedTx := "0xabcdef";
             txHash := Some "0xhash"; errorMessage := Some "rpc down" |}
          ["FAILED"]
          [EvWithdrawalUpdate "c0" "COMPLETED" "FAILED";
           EvAlert "Multi-Sig Withdrawal Job Failed"
             {| jobId := "2"; databaseId := "c0"; attempts := 2;
                error := "rpc down" |}]).
Proof.
  assert (Hr : withdrawalRequests world_completed !! "c0" =
               Some (completed_row submitted_row "0xhash"))
    by (vm_compute; reflexivity).
  split; [exact Hr | split].
  - apply skip_guard. right. eexists.
    split; [exact Hr | left; reflexivity].
  - exact (multiSigWorker_on_failed_found duplicate_job rpc_down _ _ Hr).
Qed.

(** ** Retries *)

(** The retries that [attempt_loop] still allows are those that the test
    [attemptsMade + 1 < attempts] allows. *)
Lemma retries_left j :
  shouldRetryJob j = true <-> 0 < job_attempts j - (attemptsMade j + 1).
Proof. unfold shouldRetryJob. rewrite bool_decide_eq_true. lia. Qed.

Lemma retries_left_next j :
  job_attempts (count_attempt j) - (attemptsMade (count_attempt j) + 1) =
  pred (job_attempts j - (attemptsMade j + 1)).
Proof. unfold job_attempts. simpl. lia. Qed.

(** A job without [attempts] is tried once: a throwing processor sends it
    to the ['failed'] listener at once. *)
Lemma run_job_without_attempts wk chains job :
  opt_attempts (job_opts job) = None ->
  run_job wk chains job =
    ((log (EvActive job)) ;;;
     try_catch (processor wk (chains (attemptsMade job)) job)
       (fun err =>
          (listener (on_failed wk (count_attempt job) err)) ;;; throw err)).
Proof.
  intros H. unfold run_job, job_attempts. rewrite H. reflexivity.
Qed.

(** C1 fails on the code: the job that [processNewRequest] adds carries
    no retry settings, so a job whose processing always throws is
    delivered once, with no backoff, and reported failed; the same holds
    for a raw-broadcast job.  The settings of the claim (5 attempts with
    delays from 10 s, delays from 5 s) take effect only on a job that
    carries them. *)
Theorem retry_options_not_on_job :
  let run := run_job (multiSig ethers_lib env0) (fun _ => chain_down) in
  let run_raw := run_job (rawTxBroadcast env0) (fun _ => chain_down) in
  queue_jobs "withdrawal-processing" (trace world_submitted) = [first_job]
  /\ length (deliveries (new_events (run first_job) world_submitted)) = 1
  /\ delays (new_events (run first_job) world_submitted) = []
  /\ length (alerts (new_events (run first_job) world_submitted)) = 1
  /\ queue_jobs "raw-tx-broadcasting" (trace world_raw_submitted) = [first_job]
  /\ length (deliveries (new_events (run_raw first_job) world_raw_submitted)) = 1
  /\ delays (new_events (run_raw first_job) world_raw_submitted) = []
  /\ (let tr := new_events (run (job_with multiSigWorker_options)) world_submitted in
      length (deliveries tr) = 5
      /\ delays tr = [10000; 20000; 40000; 80000]%Z)
  /\ map (fun k => backoff_delay
                     {| job_id := "1"; dbId := "c0"; attemptsMade := k;
                        job_opts := rawTxBroadcastWorker_options |}) [0; 1]
     = [5000; 10000]%Z.
Proof. vm_compute. repeat split; reflexivity. Qed.

(** C4 holds but for the attempt count: the handler sets FAILED, stores
    the error message, appends one FAILED history entry and sends one
    alert with the job identifier, the database identifier and the error
    message; the count in the alert is [attemptsMade + 1], taken after the
    broker has counted the failed attempt.  For the job of
    [world_submitted] on a node that is down it is 2 after one attempt;
    with five attempts the last alert says 6. *)
Theorem alert_attempt_count :
  (forall job err w r,
     withdrawalRequests w !! dbId job = Some r ->
     multiSigWorker_on_failed job err w =
       (Ok tt,
        world_after w (dbId job) (apply_update (to_FAILED (message err)) r)
          ["FAILED"]
          [EvWithdrawalUpdate (dbId job) (status r) "FAILED";
           EvAlert "Multi-Sig Withdrawal Job Failed"
             {| jobId := job_id job; databaseId := dbId job;
                attempts := attemptsMade job + 1; error := message err |}]))
  /\ (let run := run_job (multiSig ethers_lib env0) (fun _ => chain_down) in
      alerts (new_events (run first_job) world_submitted) =
        [ {| jobId := "1"; databaseId := "c0"; attempts := 2;
             error := "rpc down" |} ]
      /\ (status <$> withdrawalRequests (snd (run first_job world_submitted)) !! "c0")
         = Some "FAILED"
      /\ last (alerts (new_events (run (job_with multiSigWorker_options))
                         world_submitted)) =
         Some {| jobId := "1"; databaseId := "c0"; attempts := 6;
                 error := "rpc down" |}).
Proof.
  split.
  - intros job err w r Hr. apply multiSigWorker_on_failed_found. exact Hr.
  - vm_compute. repeat split; reflexivity.
Qed.
(** ** Intake *)

Lemma find_by_requestId_None t rid :
  find_by_requestId t rid = None <->
  forall k r, t !! k = Some r -> requestId r <> rid.
Proof.
  unfold find_by_requestId. rewrite fmap_None, list_find_None, Forall_forall.
  split.
  - intros H k r Hk. apply (H (k, r)). apply elem_of_map_to_list. exact Hk.
  - intros H [k r] Hin. apply elem_of_map_to_list in Hin. exact (H k r Hin).
Qed.


Lemma processNewRequest_duplicate_run rd w k r :
  find_by_requestId (withdrawalRequests w) (request_id rd) = Some (k, r) ->
  processNewRequest rd w = (Throw duplicate_request, w).
Proof.
  intros H. unfold processNewRequest, withdrawalRequest_findUnique_requestId.
  erewrite bind_Ok by reflexivity. rewrite H. reflexivity.
Qed.

Lemma queue_jobs_app q l1 l2 :
  queue_jobs q (l1 ++ l2) = queue_jobs q l1 ++ queue_jobs q l2.
Proof. apply omap_app. Qed.

Lemma queue_jobs_other q q' name j :
  q' <> q -> queue_jobs q [EvQueueAdd q' name j] = [].
Proof.
  intros Hne. unfold queue_jobs. simpl.
  rewrite bool_decide_eq_false_2 by exact Hne. reflexivity.
Qed.

Lemma queue_jobs_this q name j : queue_jobs q [EvQueueAdd q name j] = [j].
Proof.
  unfold queue_jobs. simpl. rewrite bool_decide_eq_true_2 by reflexivity.
  reflexivity.
Qed.

Lemma processNewRequest_fresh_run rd w :
  find_by_requestId (withdrawalRequests w) (request_id rd) = None ->
  withdrawalRequests w !! cuid w = None ->
  processNewRequest rd w = (Ok (request_id rd), world_intake rd w).
Proof.
  intros Hf Hk. unfold processNewRequest, withdrawalRequest_findUnique_requestId.
  erewrite bind_Ok by reflexivity. rewrite Hf. simpl.
  unfold bind, withdrawalRequest_create. rewrite Hf, Hk.
  rewrite bool_decide_eq_false_2
    by (intros [H|H]; apply is_Some_None in H; exact H).
  unfold Queue_add, ret, world_intake, new_job, emit. simpl.
  rewrite queue_jobs_app, app_nil_r, <- !app_assoc. reflexivity.
Qed.

Lemma processNewRequest_key_taken rd w :
  find_by_requestId (withdrawalRequests w) (request_id rd) = None ->
  is_Some (withdrawalRequests w !! cuid w) ->
  processNewRequest rd w = (Throw unique_requestId_failed, w).
Proof.
  intros Hf Hk. unfold processNewRequest, withdrawalRequest_findUnique_requestId.
  erewrite bind_Ok by reflexivity. rewrite Hf. simpl.
  unfold bind, withdrawalRequest_create.
  rewrite bool_decide_eq_true_2 by (right; exact Hk). reflexivity.
Qed.

(** ** The invariant of the store *)

Lemma c_pretty_inj (n m : nat) : "c" +:+ pretty n = "c" +:+ pretty m -> n = m.
Proof. intros H. injection H as H. exact (inj pretty _ _ H). Qed.

Lemma store_invariant_empty : store_invariant empty_world.
Proof.
  split; simpl; intros *; rewrite ?lookup_empty; try discriminate.
  - intros [H|H]; apply is_Some_None in H; contradiction.
  - intros H. apply elem_of_nil in H. contradiction.
Qed.

(** The invariant does not read the trace. *)
Lemma store_invariant_same w w' :
  withdrawalRequests w' = withdrawalRequests w ->
  historyEntries w' = historyEntries w ->
  rawTransactionBroadcasts w' = rawTransactionBroadcasts w ->
  cuids w' = cuids w ->
  store_invariant w -> store_invariant w'.
Proof.
  intros H1 H2 H3 H4 [].
  split; unfold history_of; rewrite ?H1, ?H2, ?H3, ?H4; assumption.
Qed.

Lemma history_of_world_after w k dbid r hs tr :
  history_of k (world_after w dbid r hs tr) =
    history_of k w ++ (if decide (dbid = k) then map (entry dbid) hs else []).
Proof.
  unfold history_of, world_after. simpl. rewrite filter_app. f_equal.
  destruct (decide (dbid = k)) as [->|Hne].
  - induction hs as [|s hs IH]; [reflexivity|].
    simpl. rewrite filter_cons. simpl. rewrite decide_True by reflexivity.
    f_equal. exact IH.
  - induction hs as [|s hs IH]; [reflexivity|].
    simpl. rewrite filter_cons. simpl. rewrite decide_False by exact Hne.
    exact IH.
Qed.

Lemma head_app_Some {A} (l1 l2 : list A) x :
  head l1 = Some x -> head (l1 ++ l2) = Some x.
Proof. destruct l1; [discriminate | auto]. Qed.

Lemma last_map_entry dbid hs s :
  last hs = Some s -> last (map (entry dbid) hs) = Some (entry dbid s).
Proof.
  intros H. change (map (entry dbid) hs) with (entry dbid <$> hs).
  rewrite fmap_last, H. reflexivity.
Qed.

(** A write to one request that keeps its identifiers, leaves it
    consistent and records its new status keeps the invariant. *)
Lemma store_invariant_world_after w k r rfin hs tr :
  store_invariant w ->
  withdrawalRequests w !! k = Some r ->
  wr_id rfin = wr_id r -> requestId rfin = requestId r ->
  row_consistent rfin ->
  (hs = [] /\ status rfin = status r) \/ last hs = Some (status rfin) ->
  store_invariant (world_after w k rfin hs tr).
Proof.
  intros Hinv Hr Hid Hrid Hrow Hhs. destruct Hinv.
  assert (Hdom : forall k', is_Some (<[k:=rfin]> (withdrawalRequests w) !! k')
                            <-> is_Some (withdrawalRequests w !! k')).
  { intros k'. destruct (decide (k = k')) as [<-|Hne].
    - rewrite lookup_insert_eq, Hr. split; eauto.
    - rewrite lookup_insert_ne by exact Hne. reflexivity. }
  split; simpl.
  - intros k' r'. destruct (decide (k = k')) as [<-|Hne].
    + rewrite lookup_insert_eq. intros [= <-]. rewrite Hid. eauto.
    + rewrite lookup_insert_ne by exact Hne. eauto.
  - intros k1 r1 k2 r2.
    destruct (decide (k = k1)) as [<-|Hne1], (decide (k = k2)) as [<-|Hne2];
      rewrite ?lookup_insert_eq, ?lookup_insert_ne by assumption; auto.
    + intros [= <-] H2 He. rewrite Hrid in He. eauto.
    + intros H1 [= <-] He. rewrite Hrid in He. eauto.
    + eauto.
  - intros k' [H|H]; [apply Hdom in H|]; eauto.
  - intros h. rewrite elem_of_app, Hdom. intros [H|H]; [eauto|].
    apply list_elem_of_fmap in H as (s & -> & _). simpl. rewrite Hr. eauto.
  - intros k' r' Hk'. rewrite history_of_world_after.
    assert (exists r0, withdrawalRequests w !! k' = Some r0) as [r0 Hr0].
    { apply Hdom. rewrite Hk'. eauto. }
    apply head_app_Some. eauto.
  - intros k' r'. rewrite history_of_world_after.
    destruct (decide (k = k')) as [<-|Hne].
    + rewrite lookup_insert_eq. intros [= <-].
      destruct Hhs as [[-> Hs] | Hl].
      * simpl. rewrite app_nil_r, Hs. eauto.
      * rewrite last_app, (last_map_entry _ _ _ Hl). reflexivity.
    + rewrite lookup_insert_ne by exact Hne. rewrite app_nil_r. eauto.
  - intros k' r'. destruct (decide (k = k')) as [<-|Hne].
    + rewrite lookup_insert_eq. intros [= <-]. exact Hrow.
    + rewrite lookup_insert_ne by exact Hne. eauto.
  - assumption.
  - assumption.
  - assumption.
Qed.

(** A write to one raw-broadcast row that keeps its identifier, leaves it
    consistent and takes no hash of another row keeps the invariant. *)
Lemma store_invariant_raw_world_after w k r rfin tr :
  store_invariant w ->
  rawTransactionBroadcasts w !! k = Some r ->
  raw_id rfin = raw_id r ->
  raw_row_consistent rfin ->
  (forall h k' r', raw_txHash rfin = Some h ->
     rawTransactionBroadcasts w !! k' = Some r' -> k' <> k ->
     raw_txHash r' <> Some h) ->
  store_invariant (raw_world_after w k rfin tr).
Proof.
  intros Hinv Hr Hid Hrow Hh. destruct Hinv.
  assert (Hdom : forall k', is_Some (<[k:=rfin]> (rawTransactionBroadcasts w) !! k')
                            <-> is_Some (rawTransactionBroadcasts w !! k')).
  { intros k'. destruct (decide (k = k')) as [<-|Hne].
    - rewrite lookup_insert_eq, Hr. split; eauto.
    - rewrite lookup_insert_ne by exact Hne. reflexivity. }
  split; simpl; try assumption.
  - intros k' [H|H]; [|apply Hdom in H]; eauto.
  - intros k' r'. destruct (decide (k = k')) as [<-|Hne].
    + rewrite lookup_insert_eq. intros [= <-]. rewrite Hid. eauto.
    + rewrite lookup_insert_ne by exact Hne. eauto.
  - intros k1 r1 k2 r2 h.
    destruct (decide (k = k1)) as [<-|Hne1], (decide (k = k2)) as [<-|Hne2];
      rewrite ?lookup_insert_eq, ?lookup_insert_ne by assumption; auto.
    + intros [= <-] H2 H1h H2h. exfalso. eapply Hh; eauto.
    + intros H1 [= <-] H1h H2h. exfalso. eapply Hh; eauto.
    + eauto.
  - intros k' r'. destruct (decide (k = k')) as [<-|Hne].
    + rewrite lookup_insert_eq. intros [= <-]. exact Hrow.
    + rewrite lookup_insert_ne by exact Hne. eauto.
Qed.

Lemma cuid_fresh w :
  store_invariant w ->
  withdrawalRequests w !! cuid w = None
  /\ rawTransactionBroadcasts w !! cuid w = None.
Proof.
  intros Hinv.
  assert (H : forall k, k = cuid w ->
            ~ (is_Some (withdrawalRequests w !! k)
               \/ is_Some (rawTransactionBroadcasts w !! k))).
  { intros k -> Hk. apply (inv_fresh _ Hinv) in Hk as (n & Hn & Heq).
    apply c_pretty_inj in Heq. lia. }
  specialize (H _ eq_refl).
  split; apply eq_None_not_Some; tauto.
Qed.

Lemma store_invariant_intake rd w :
  store_invariant w ->
  find_by_requestId (withdrawalRequests w) (request_id rd) = None ->
  store_invariant (world_intake rd w).
Proof.
  intros Hinv Hf. destruct (cuid_fresh w Hinv) as [Hk Hkraw].
  pose proof (proj1 (find_by_requestId_None _ _) Hf) as Hnone.
  destruct Hinv as [Hids Huniq Hfresh Hrefs Hfirst Hlast Hrows Hrids Hrhash Hrrows].
  assert (Hnohist : history_of (cuid w) w = []).
  { unfold history_of.
    destruct (filter _ (historyEntries w)) as [|h l] eqn:E; [reflexivity|].
    assert (Hin : h ∈ filter (λ h, he_requestId h = cuid w) (historyEntries w))
      by (rewrite E; apply list_elem_of_here).
    apply list_elem_of_filter in Hin as [Heq Hh].
    apply Hrefs in Hh. rewrite Heq, Hk in Hh.
    apply is_Some_None in Hh. contradiction. }
  assert (Hhist : forall k,
            history_of k (world_intake rd w) =
              history_of k w ++
              (if decide (cuid w = k) then [entry k "PENDING_SIGNATURE"] else [])).
  { intros k. unfold history_of, world_intake. simpl.
    rewrite filter_app, filter_cons, filter_nil. simpl.
    destruct (decide (cuid w = k)) as [->|]; reflexivity. }
  split; simpl; try assumption.
  - intros k r. destruct (decide (cuid w = k)) as [<-|Hne].
    + rewrite lookup_insert_eq. intros [= <-]. reflexivity.
    + rewrite lookup_insert_ne by exact Hne. eauto.
  - intros k1 r1 k2 r2.
    destruct (decide (cuid w = k1)) as [<-|Hne1],
             (decide (cuid w = k2)) as [<-|Hne2];
      rewrite ?lookup_insert_eq, ?lookup_insert_ne by assumption; auto.
    + intros [= <-] H2 He. simpl in He. exfalso. eapply Hnone; eauto.
    + intros H1 [= <-] He. simpl in He. exfalso. eapply Hnone; eauto.
    + eauto.
  - intros k Hk'.
    destruct (decide (cuid w = k)) as [<-|Hne].
    + exists (cuids w). split; [lia | reflexivity].
    + rewrite lookup_insert_ne in Hk' by exact Hne.
      destruct (Hfresh k Hk') as (n & Hn & ->). exists n. split; [lia|reflexivity].
  - intros h. rewrite elem_of_app, list_elem_of_singleton.
    intros [H| ->].
    + apply Hrefs in H.
      destruct (decide (cuid w = he_requestId h)) as [<-|Hne].
      * rewrite lookup_insert_eq. eauto.
      * rewrite lookup_insert_ne by exact Hne. exact H.
    + simpl. rewrite lookup_insert_eq. eauto.
  - intros k r. rewrite Hhist.
    destruct (decide (cuid w = k)) as [<-|Hne].
    + rewrite Hnohist. reflexivity.
    + rewrite lookup_insert_ne by exact Hne. rewrite app_nil_r. eauto.
  - intros k r. rewrite Hhist.
    destruct (decide (cuid w = k)) as [<-|Hne].
    + rewrite lookup_insert_eq. intros [= <-]. rewrite Hnohist. reflexivity.
    + rewrite lookup_insert_ne by exact Hne. rewrite app_nil_r. eauto.
  - intros k r. destruct (decide (cuid w = k)) as [<-|Hne].
    + rewrite lookup_insert_eq. intros [= <-].
      repeat split; simpl; try discriminate.
      * unfold known_status. apply list_elem_of_here.
      * intros [H|H]; discriminate.
    + rewrite lookup_insert_ne by exact Hne. eauto.
Qed.

Lemma processRawTransactionBroadcast_fresh_run raw client w :
  rawTransactionBroadcasts w !! cuid w = None ->
  processRawTransactionBroadcast raw client w =
    (Ok (cuid w, "PENDING"), world_raw_intake raw client w).
Proof.
  intros Hk. unfold processRawTransactionBroadcast, bind,
    rawTransactionBroadcast_create.
  rewrite Hk, bool_decide_eq_false_2 by (intros H; apply is_Some_None in H; exact H).
  unfold Queue_add, ret, world_raw_intake, new_job, emit. simpl.
  rewrite queue_jobs_app, app_nil_r, <- !app_assoc. reflexivity.
Qed.

Lemma processRawTransactionBroadcast_key_taken raw client w :
  is_Some (rawTransactionBroadcasts w !! cuid w) ->
  processRawTransactionBroadcast raw client w = (Throw primary_key_failed, w).
Proof.
  intros Hk. unfold processRawTransactionBroadcast, bind,
    rawTransactionBroadcast_create.
  rewrite bool_decide_eq_true_2 by exact Hk. reflexivity.
Qed.

Lemma store_invariant_raw_intake raw client w :
  store_invariant w -> store_invariant (world_raw_intake raw client w).
Proof.
  intros Hinv. destruct (cuid_fresh w Hinv) as [Hk Hkraw].
  destruct Hinv as [Hids Huniq Hfresh Hrefs Hfirst Hlast Hrows Hrids Hrhash Hrrows].
  split; simpl; try assumption.
  - intros k Hk'.
    destruct (decide (cuid w = k)) as [<-|Hne].
    + exists (cuids w). split; [lia | reflexivity].
    + rewrite lookup_insert_ne in Hk' by exact Hne.
      destruct (Hfresh k Hk') as (n & Hn & ->). exists n. split; [lia|reflexivity].
  - intros k r. destruct (decide (cuid w = k)) as [<-|Hne].
    + rewrite lookup_insert_eq. intros [= <-]. reflexivity.
    + rewrite lookup_insert_ne by exact Hne. eauto.
  - intros k1 r1 k2 r2 h.
    destruct (decide (cuid w = k1)) as [<-|Hne1],
             (decide (cuid w = k2)) as [<-|Hne2];
      rewrite ?lookup_insert_eq, ?lookup_insert_ne by assumption; auto.
    + intros [= <-] _ H. discriminate.
    + intros _ [= <-] _ H. discriminate.
    + eauto.
  - intros k r. destruct (decide (cuid w = k)) as [<-|Hne].
    + rewrite lookup_insert_eq. intros [= <-].
      repeat split; simpl; try discriminate; try reflexivity.
      * unfold known_raw_status. apply list_elem_of_here.
      * intros [H|H]; discriminate.
    + rewrite lookup_insert_ne by exact Hne. eauto.
Qed.

(** ** Raw-broadcast handlers, outcome by outcome *)

Lemma txHash_taken_false t k h :
  txHash_taken t k (Some h) = false <->
  forall k' r', t !! k' = Some r' -> k' <> k -> raw_txHash r' <> Some h.
Proof.
  unfold txHash_taken. rewrite bool_decide_eq_false. split.
  - intros H k' r' Hk' Hne Hh. apply H. eauto.
  - intros H (k' & r' & Hk' & Hne & Hh). eapply H; eauto.
Qed.

(** The outcomes of a raw-broadcast delivery for a PENDING row. *)
Lemma raw_delivery_outcomes env chain job w r :
  rawTransactionBroadcasts w !! dbId job = Some r ->
  raw_status r = "PENDING" ->
  let k := dbId job in
  let sent := EvBroadcastTransaction (rpcUrl_of env) (rawTx r) in
  let out := rawTxBroadcastWorker env chain job w in
  (exists e, out = (Throw e, emit sent w))
  \/ (exists h e,
        txHash_taken (rawTransactionBroadcasts w) k (Some h) = false
        /\ out = (Throw e,
                  raw_world_after w k (raw_broadcasted r h)
                    [sent; EvRawUpdate k "PENDING" "BROADCASTED"; EvWait h 1]))
  \/ (exists h,
        txHash_taken (rawTransactionBroadcasts w) k (Some h) = false
        /\ out = (Ok tt,
                  raw_world_after w k (raw_confirmed r h)
                    [sent; EvRawUpdate k "PENDING" "BROADCASTED"; EvWait h 1;
                     EvRawUpdate k "BROADCASTED" "CONFIRMED"])).
Proof.
  intros Hr Hs. cbv zeta. unfold rawTxBroadcastWorker.
  erewrite bind_Ok by reflexivity. rewrite Hr.
  rewrite bool_decide_eq_false_2 by (intros H; apply H; exact Hs).
  rewrite try_rethrow. unfold rawTxBroadcastWorker_try.
  destruct (broadcastTransaction chain (rawTx r)) as [tx|e] eqn:Eb.
  2:{ left. exists e. erewrite bind_Throw by (rewrite call_run; reflexivity).
      reflexivity. }
  erewrite bind_Ok by (rewrite call_run; reflexivity).
  destruct (txHash_taken (rawTransactionBroadcasts w) (dbId job)
              (Some (hash tx))) eqn:Et.
  { left. eexists. erewrite bind_Throw; [reflexivity|].
    apply raw_update_taken with r; [exact Hr | exact Et]. }
  erewrite bind_Ok by (apply raw_update_run; [exact Hr | exact Et]).
  destruct (wait chain (hash tx) 1) as [[]|e] eqn:Ew.
  2:{ right. left. exists (hash tx), e. split; [exact Et|].
      erewrite bind_Throw by (rewrite call_run; reflexivity).
      unfold emit, raw_world_after, raw_broadcasted. simpl.
      rewrite Hs, <- !app_assoc. reflexivity. }
  right. right. exists (hash tx). split; [exact Et|].
  erewrite bind_Ok by (rewrite call_run; reflexivity).
  erewrite bind_Ok.
  2:{ apply raw_update_run; simpl.
      - apply lookup_insert_eq.
      - rewrite txHash_taken_insert. exact Et. }
  unfold ret, emit, raw_world_after, raw_confirmed. simpl.
  rewrite Hs, insert_insert_eq, <- !app_assoc. reflexivity.
Qed.

Lemma raw_delivery_skip env chain job w :
  (rawTransactionBroadcasts w !! dbId job = None
   \/ exists r, rawTransactionBroadcasts w !! dbId job = Some r
                /\ raw_status r <> "PENDING") ->
  rawTxBroadcastWorker env chain job w = (Ok tt, w).
Proof.
  intros H. unfold rawTxBroadcastWorker. erewrite bind_Ok by reflexivity.
  destruct H as [-> | (r & -> & Hs)]; [reflexivity|].
  rewrite bool_decide_eq_true_2 by exact Hs. reflexivity.
Qed.

Lemma raw_on_failed_found job err w r :
  rawTransactionBroadcasts w !! dbId job = Some r ->
  txHash_taken (rawTransactionBroadcasts w) (dbId job) (raw_txHash r) = false ->
  rawTxBroadcastWorker_on_failed job err w =
    (Ok tt,
     raw_world_after w (dbId job) (raw_failed r (message err))
       [EvRawUpdate (dbId job) (raw_status r) "FAILED";
        EvAlert "Raw Transaction Broadcast Job Failed"
          {| jobId := job_id job; databaseId := dbId job;
             attempts := attemptsMade job + 1; error := message err |}]).
Proof.
  intros Hr Ht. unfold rawTxBroadcastWorker_on_failed.
  erewrite bind_Ok by (apply raw_update_run; [exact Hr | exact Ht]).
  unfold sendAlert, log, emit, raw_world_after, raw_failed. simpl.
  rewrite <- !app_assoc. reflexivity.
Qed.

Lemma raw_on_failed_missing job err w :
  rawTransactionBroadcasts w !! dbId job = None ->
  rawTxBroadcastWorker_on_failed job err w = (Throw record_not_found, w).
Proof.
  intros Hr. unfold rawTxBroadcastWorker_on_failed.
  erewrite bind_Throw; [reflexivity|].
  unfold rawTransactionBroadcast_update. rewrite Hr. reflexivity.
Qed.

(** In a store that keeps hashes unique, a row's own hash is not taken. *)
Lemma own_hash_not_taken w k r :
  store_invariant w ->
  rawTransactionBroadcasts w !! k = Some r ->
  txHash_taken (rawTransactionBroadcasts w) k (raw_txHash r) = false.
Proof.
  intros Hinv Hr. destruct (raw_txHash r) as [h|] eqn:Eh; [|reflexivity].
  apply txHash_taken_false. intros k' r' Hk' Hne Hh.
  apply Hne. eapply (inv_raw_hashes _ Hinv); eauto.
Qed.

(** ** Every action keeps the invariant *)

Lemma known_status_of s :
  s = "PENDING_SIGNATURE" \/ s = "PROCESSING" \/ s = "BROADCASTED"
  \/ s = "COMPLETED" \/ s = "CANCELLED" \/ s = "FAILED" -> known_status s.
Proof.
  unfold known_status. rewrite !elem_of_cons, elem_of_nil. tauto.
Qed.

Lemma row_consistent_PROCESSING r :
  row_consistent (apply_update to_PROCESSING r).
Proof.
  unfold row_consistent; simpl.
  split; [apply known_status_of; tauto | intuition (try discriminate; eauto)].
Qed.

Lemma row_consistent_BROADCASTED r h :
  row_consistent (apply_update (to_BROADCASTED h) r).
Proof.
  unfold row_consistent; simpl.
  split; [apply known_status_of; tauto | intuition (try discriminate; eauto)].
Qed.

Lemma row_consistent_COMPLETED r h :
  row_consistent (apply_update to_COMPLETED (apply_update (to_BROADCASTED h) r)).
Proof.
  unfold row_consistent; simpl.
  split; [apply known_status_of; tauto | intuition (try discriminate; eauto)].
Qed.

Lemma row_consistent_FAILED r msg :
  row_consistent (apply_update (to_FAILED msg) r).
Proof.
  unfold row_consistent; simpl.
  split; [apply known_status_of; tauto | intuition (try discriminate; eauto)].
Qed.

Lemma row_consistent_CANCELLED r :
  row_consistent r -> status r = "PENDING_SIGNATURE" ->
  row_consistent (set_status "CANCELLED" r).
Proof.
  intros (_ & H & _) Hs. specialize (H (or_introl Hs)).
  unfold row_consistent; simpl.
  split; [apply known_status_of; tauto | intuition (try discriminate; eauto)].
Qed.

Lemma multiSigWorker_keeps_invariant ethers env chain job w :
  store_invariant w ->
  store_invariant (snd (multiSigWorker ethers env chain job w)).
Proof.
  intros Hinv.
  destruct (withdrawalRequests w !! dbId job) as [r|] eqn:Hr.
  - destruct (in_final_state (status r)) eqn:Hs.
    + rewrite skip_guard; [exact Hinv|]. right. exists r.
      split; [exact Hr|]. apply in_final_state_spec. exact Hs.
    + destruct (new_Wallet ethers (SERVICE_WALLET_PRIVATE_KEY env))
        as [[]|ek] eqn:Hk;
        [| rewrite (multiSigWorker_no_wallet _ _ _ _ _ r ek Hr Hs Hk);
           exact Hinv].
      rewrite (multiSigWorker_live _ _ _ _ _ r Hr Hs Hk).
      destruct (multiSigWorker_try_outcomes ethers env chain job r w Hr)
        as (l & _ & H). cbv zeta in H.
      assert (H1 : wr_id (first_step_row job r) = wr_id r
                   /\ requestId (first_step_row job r) = requestId r
                   /\ row_consistent (first_step_row job r)
                   /\ ((first_step_history job = []
                        /\ status (first_step_row job r) = status r)
                       \/ last (first_step_history job)
                          = Some (status (first_step_row job r)))).
      { unfold first_step_row, first_step_history. case_bool_decide.
        - split; [reflexivity|]. split; [reflexivity|].
          split; [apply row_consistent_PROCESSING | right; reflexivity].
        - split; [reflexivity|]. split; [reflexivity|].
          split; [exact (inv_rows _ Hinv _ _ Hr) | left; auto]. }
      destruct H1 as (Hid & Hrid & Hrow & Hhs).
      destruct H as [(e & ->) | [(h & e & ->) | (h & ->)]]; simpl.
      * eapply store_invariant_world_after;
          [exact Hinv | exact Hr | exact Hid | exact Hrid | exact Hrow | exact Hhs].
      * eapply store_invariant_world_after;
          [exact Hinv | exact Hr | exact Hid | exact Hrid
          | apply row_consistent_BROADCASTED
          | right; rewrite last_app; reflexivity].
      * eapply store_invariant_world_after;
          [exact Hinv | exact Hr | exact Hid | exact Hrid
          | apply row_consistent_COMPLETED
          | right; rewrite last_app; reflexivity].
  - rewrite skip_guard; [exact Hinv|]. left. exact Hr.
Qed.

Lemma multiSigWorker_on_failed_keeps_invariant job err w :
  store_invariant w ->
  store_invariant (snd (multiSigWorker_on_failed job err w)).
Proof.
  intros Hinv.
  destruct (withdrawalRequests w !! dbId job) as [r|] eqn:Hr.
  - rewrite (multiSigWorker_on_failed_found _ _ _ _ Hr). simpl.
    eapply store_invariant_world_after;
      [exact Hinv | exact Hr | reflexivity | reflexivity
      | apply row_consistent_FAILED | right; reflexivity].
  - rewrite (multiSigWorker_on_failed_missing _ _ _ Hr). exact Hinv.
Qed.

Lemma cancelRequest_not_found w rid :
  find_by_requestId (withdrawalRequests w) rid = None ->
  cancelRequest rid w = (Throw request_not_found, w).
Proof.
  intros Hf. unfold cancelRequest, withdrawalRequest_findUnique_requestId.
  erewrite bind_Ok by reflexivity. rewrite Hf. reflexivity.
Qed.

Lemma cancelRequest_keeps_invariant rid w :
  store_invariant w -> store_invariant (snd (cancelRequest rid w)).
Proof.
  intros Hinv.
  destruct (find_by_requestId (withdrawalRequests w) rid) as [[k r]|] eqn:Hf.
  - pose proof (find_by_requestId_Some _ _ _ _ Hf) as [Hk _].
    destruct (decide (status r = "PENDING_SIGNATURE")) as [Hs|Hs].
    + rewrite (cancelRequest_pending _ _ _ _ Hf Hs). simpl.
      change (store_invariant
                (world_after w k (set_status "CANCELLED" r) ["CANCELLED"]
                   [EvWithdrawalUpdate k "PENDING_SIGNATURE" "CANCELLED"])).
      eapply store_invariant_world_after;
        [exact Hinv | exact Hk | reflexivity | reflexivity
        | apply row_consistent_CANCELLED;
            [exact (inv_rows _ Hinv _ _ Hk) | exact Hs]
        | right; reflexivity].
    + rewrite (cancelRequest_conflict _ _ _ _ Hf Hs). exact Hinv.
  - rewrite (cancelRequest_not_found _ _ Hf). exact Hinv.
Qed.

Lemma processNewRequest_keeps_invariant rd w :
  store_invariant w -> store_invariant (snd (processNewRequest rd w)).
Proof.
  intros Hinv.
  destruct (find_by_requestId (withdrawalRequests w) (request_id rd))
    as [[k r]|] eqn:Hf.
  - rewrite (processNewRequest_duplicate_run _ _ _ _ Hf). exact Hinv.
  - rewrite (processNewRequest_fresh_run _ _ Hf (proj1 (cuid_fresh w Hinv))).
    apply store_invariant_intake; assumption.
Qed.

Lemma processRawTransactionBroadcast_keeps_invariant raw client w :
  store_invariant w ->
  store_invariant (snd (processRawTransactionBroadcast raw client w)).
Proof.
  intros Hinv.
  rewrite (processRawTransactionBroadcast_fresh_run _ _ _
             (proj2 (cuid_fresh w Hinv))).
  apply store_invariant_raw_intake. exact Hinv.
Qed.

Lemma known_raw_status_of s :
  s = "PENDING" \/ s = "BROADCASTED" \/ s = "CONFIRMED" \/ s = "FAILED" ->
  known_raw_status s.
Proof.
  unfold known_raw_status. rewrite !elem_of_cons, elem_of_nil. tauto.
Qed.

Lemma rawTxBroadcastWorker_keeps_invariant env chain job w :
  store_invariant w ->
  store_invariant (snd (rawTxBroadcastWorker env chain job w)).
Proof.
  intros Hinv.
  destruct (rawTransactionBroadcasts w !! dbId job) as [r|] eqn:Hr.
  - destruct (decide (raw_status r = "PENDING")) as [Hs|Hs].
    + pose proof (inv_raw_rows _ Hinv _ _ Hr) as (_ & _ & Herr & _).
      assert (He : raw_errorMessage r = None)
        by (apply Herr; rewrite Hs; discriminate).
      destruct (raw_delivery_outcomes env chain job w r Hr Hs)
        as [(e & ->) | [(h & e & Ht & ->) | (h & Ht & ->)]]; simpl.
      * eapply store_invariant_same; [..|exact Hinv]; reflexivity.
      * eapply store_invariant_raw_world_after;
          [exact Hinv | exact Hr | reflexivity | | ].
        -- unfold raw_row_consistent; simpl.
           split; [apply known_raw_status_of; tauto
                  | intuition (try discriminate; eauto)].
        -- simpl. intros h' k' r' [= <-].
           apply (proj1 (txHash_taken_false _ _ _) Ht).
      * eapply store_invariant_raw_world_after;
          [exact Hinv | exact Hr | reflexivity | | ].
        -- unfold raw_row_consistent; simpl.
           split; [apply known_raw_status_of; tauto
                  | intuition (try discriminate; eauto)].
        -- simpl. intros h' k' r' [= <-].
           apply (proj1 (txHash_taken_false _ _ _) Ht).
    + rewrite raw_delivery_skip; [exact Hinv|]. right. eauto.
  - rewrite raw_delivery_skip; [exact Hinv|]. left. exact Hr.
Qed.

Lemma rawTxBroadcastWorker_on_failed_keeps_invariant job err w :
  store_invariant w ->
  store_invariant (snd (rawTxBroadcastWorker_on_failed job err w)).
Proof.
  intros Hinv.
  destruct (rawTransactionBroadcasts w !! dbId job) as [r|] eqn:Hr.
  - rewrite (raw_on_failed_found _ _ _ _ Hr (own_hash_not_taken _ _ _ Hinv Hr)).
    simpl. eapply store_invariant_raw_world_after;
      [exact Hinv | exact Hr | reflexivity | | ].
    + pose proof (inv_raw_rows _ Hinv _ _ Hr) as (_ & Hp & _ & Hb).
      unfold raw_row_consistent; simpl.
      split; [apply known_raw_status_of; tauto
             | intuition (try discriminate; eauto)].
    + simpl. intros h k' r' Hh Hk' Hne Hh'.
      apply Hne. eapply (inv_raw_hashes _ Hinv); eauto.
  - rewrite (raw_on_failed_missing _ _ _ Hr). exact Hinv.
Qed.

Lemma act_keeps_invariant ethers env a w :
  store_invariant w -> store_invariant (act ethers env a w).
Proof.
  destruct a; simpl.
  - apply processNewRequest_keeps_invariant.
  - apply processRawTransactionBroadcast_keeps_invariant.
  - apply cancelRequest_keeps_invariant.
  - apply multiSigWorker_keeps_invariant.
  - apply multiSigWorker_on_failed_keeps_invariant.
  - apply rawTxBroadcastWorker_keeps_invariant.
  - apply rawTxBroadcastWorker_on_failed_keeps_invariant.
Qed.

Lemma service_reachable_invariant ethers env w :
  service_reachable ethers env w -> store_invariant w.
Proof.
  induction 1 as [|a w _ IH].
  - apply store_invariant_empty.
  - apply act_keeps_invariant. exact IH.
Qed.

(** ** The status graph in the runs of the broker *)

























(** ** Invariants of the service *)

Lemma world_completed_service_reachable :
  service_reachable ethers_lib env0 world_completed.
Proof.
  apply (service_step ethers_lib env0 (DeliverWithdrawal chain_ok first_job)).
  apply (service_step ethers_lib env0 (Initiate bank_request)).
  apply service_empty.
Qed.

(** X1: in every world of the service, a request is stored under its own
    [id] and no two stored requests have the same [requestId]. *)
Theorem requestId_unique ethers env w :
  service_reachable ethers env w ->
  forall k1 r1 k2 r2,
    withdrawalRequests w !! k1 = Some r1 ->
    withdrawalRequests w !! k2 = Some r2 ->
    wr_id r1 = k1 /\ (requestId r1 = requestId r2 -> k1 = k2 /\ r1 = r2).
Proof.
  intros Hw k1 r1 k2 r2 H1 H2.
  pose proof (service_reachable_invariant _ _ _ Hw) as Hinv.
  split; [exact (inv_ids _ Hinv _ _ H1)|].
  intros He. pose proof (inv_unique _ Hinv _ _ _ _ H1 H2 He) as ->.
  split; [reflexivity | congruence].
Qed.

Lemma requestId_unique_witness :
  wr_id (completed_row submitted_row "0xhash") = "c0"
  /\ (requestId (completed_row submitted_row "0xhash") =
      requestId (completed_row submitted_row "0xhash") ->
      "c0" = "c0"
      /\ completed_row submitted_row "0xhash" =
         completed_row submitted_row "0xhash").
Proof.
  apply (requestId_unique ethers_lib env0 world_completed
           world_completed_service_reachable
           "c0" (completed_row submitted_row "0xhash")
           "c0" (completed_row submitted_row "0xhash"));
    vm_compute; reflexivity.
Defined.

(** X2: in every world of the service, every history entry belongs to a
    stored request, and the history of a stored request starts with
    PENDING_SIGNATURE and ends with the current status of the request. *)
Theorem history_tracks_status ethers env w :
  service_reachable ethers env w ->
  (forall h, h ∈ historyEntries w ->
     is_Some (withdrawalRequests w !! he_requestId h))
  /\ (forall k r, withdrawalRequests w !! k = Some r ->
        head (history_of k w) = Some (entry k "PENDING_SIGNATURE")
        /\ last (history_of k w) = Some (entry k (status r))).
Proof.
  intros Hw. pose proof (service_reachable_invariant _ _ _ Hw) as Hinv.
  split.
  - exact (inv_history_refs _ Hinv).
  - intros k r Hk. split.
    + exact (inv_history_first _ Hinv _ _ Hk).
    + exact (inv_history_last _ Hinv _ _ Hk).
Qed.

Lemma history_tracks_status_witness :
  last (history_of "c0" world_completed) = Some (entry "c0" "COMPLETED").
Proof.
  exact (proj2 (proj2 (history_tracks_status ethers_lib env0 world_completed
                         world_completed_service_reachable)
                  "c0" (completed_row submitted_row "0xhash")
                  ltac:(vm_compute; reflexivity))).
Defined.





Lemma world_raw_confirmed_service_reachable :
  service_reachable ethers_lib env0 world_raw_confirmed.
Proof.
  apply (service_step ethers_lib env0 (DeliverRaw chain_ok first_job)).
  apply (service_step ethers_lib env0 (SubmitRaw "0xf86b01" (Some "client-1"))).
  apply service_empty.
Qed.

(** X5: in every world of the service no two raw-broadcast rows hold the
    same transaction hash; a PENDING row holds none, a BROADCASTED or
    CONFIRMED row holds one, and only a FAILED row holds an error
    message. *)
Theorem raw_rows_consistent ethers env w :
  service_reachable ethers env w ->
  (forall k1 r1 k2 r2 h,
     rawTransactionBroadcasts w !! k1 = Some r1 ->
     rawTransactionBroadcasts w !! k2 = Some r2 ->
     raw_txHash r1 = Some h -> raw_txHash r2 = Some h -> k1 = k2)
  /\ (forall k r, rawTransactionBroadcasts w !! k = Some r ->
        raw_id r = k
        /\ raw_status r ∈ ["PENDING"; "BROADCASTED"; "CONFIRMED"; "FAILED"]
        /\ (raw_status r = "PENDING" -> raw_txHash r = None)
        /\ (raw_status r <> "FAILED" -> raw_errorMessage r = None)
        /\ (raw_status r = "BROADCASTED" \/ raw_status r = "CONFIRMED" ->
            is_Some (raw_txHash r))).
Proof.
  intros Hw. pose proof (service_reachable_invariant _ _ _ Hw) as Hinv.
  split.
  - exact (inv_raw_hashes _ Hinv).
  - intros k r Hk. split; [exact (inv_raw_ids _ Hinv _ _ Hk)|].
    exact (inv_raw_rows _ Hinv _ _ Hk).
Qed.

Lemma raw_rows_consistent_witness :
  is_Some (raw_txHash (raw_confirmed raw_submitted_row "0xrawhash")).
Proof.
  refine (proj2 (proj2 (proj2 (proj2
            (proj2 (raw_rows_consistent ethers_lib env0 world_raw_confirmed
                      world_raw_confirmed_service_reachable)
               "c0" (raw_confirmed raw_submitted_row "0xrawhash") _)))) _).
  - vm_compute. reflexivity.
  - right. reflexivity.
Defined.



(** X7: a delivery for a PENDING raw-broadcast row either writes nothing
    (the broadcast threw, or another row holds the returned hash) and
    throws, or it leaves the row BROADCASTED or CONFIRMED; in that case
    every later delivery for the row returns at once, without a broadcast
    and without a write. *)
Theorem raw_broadcast_persisted_once env chain job w r :
  rawTransactionBroadcasts w !! dbId job = Some r ->
  raw_status r = "PENDING" ->
  let out := rawTxBroadcastWorker env chain job w in
  (exists e, out = (Throw e,
                    emit (EvBroadcastTransaction (rpcUrl_of env) (rawTx r)) w))
  \/ ((exists r', rawTransactionBroadcasts (snd out) !! dbId job = Some r'
                  /\ (raw_status r' = "BROADCASTED" \/ raw_status r' = "CONFIRMED"))
      /\ forall chain' job', dbId job' = dbId job ->
           rawTxBroadcastWorker env chain' job' (snd out) = (Ok tt, snd out)).
Proof.
  intros Hr Hs. cbv zeta.
  destruct (raw_delivery_outcomes env chain job w r Hr Hs)
    as [(e & ->) | [(h & e & _ & ->) | (h & _ & ->)]].
  - left. eauto.
  - right. simpl. split.
    + eexists. split; [apply lookup_insert_eq | left; reflexivity].
    + intros chain' job' Hj. apply raw_delivery_skip. right.
      eexists. rewrite Hj. simpl. split; [apply lookup_insert_eq | discriminate].
  - right. simpl. split.
    + eexists. split; [apply lookup_insert_eq | right; reflexivity].
    + intros chain' job' Hj. apply raw_delivery_skip. right.
      eexists. rewrite Hj. simpl. split; [apply lookup_insert_eq | discriminate].
Qed.

Lemma raw_broadcast_persisted_once_witness :
  rawTxBroadcastWorker env0 chain_ok
    {| job_id := "1"; dbId := "c0"; attemptsMade := 1; job_opts := no_options |}
    world_raw_confirmed = (Ok tt, world_raw_confirmed).
Proof.
  destruct (raw_broadcast_persisted_once env0 chain_ok first_job
              world_raw_submitted raw_submitted_row
              ltac:(vm_compute; reflexivity) eq_refl) as [(e & He) | [_ H]].
  - vm_compute in He. discriminate.
  - apply H. reflexivity.
Defined.

(** X8: the ['failed'] listener of the raw-broadcast worker, in a world of
    the service: for a stored row it sets FAILED and the error message,
    keeps the hash, and then sends one alert with the job identifier, the
    row identifier, [attemptsMade + 1] and the message; for a missing row
    it throws and sends no alert. *)
Theorem raw_failed_listener ethers env w job err :
  service_reachable ethers env w ->
  (forall r, rawTransactionBroadcasts w !! dbId job = Some r ->
     rawTxBroadcastWorker_on_failed job err w =
       (Ok tt,
        raw_world_after w (dbId job) (raw_failed r (message err))
          [EvRawUpdate (dbId job) (raw_status r) "FAILED";
           EvAlert "Raw Transaction Broadcast Job Failed"
             {| jobId := job_id job; databaseId := dbId job;
                attempts := attemptsMade job + 1; error := message err |}]))
  /\ (rawTransactionBroadcasts w !! dbId job = None ->
      rawTxBroadcastWorker_on_failed job err w = (Throw record_not_found, w)).
Proof.
  intros Hw. pose proof (service_reachable_invariant _ _ _ Hw) as Hinv.
  split.
  - intros r Hr. apply raw_on_failed_found; [exact Hr|].
    apply own_hash_not_taken; assumption.
  - apply raw_on_failed_missing.
Qed.

Lemma raw_failed_listener_witness :
  rawTxBroadcastWorker_on_failed
    {| job_id := "7"; dbId := "c9"; attemptsMade := 1; job_opts := no_options |}
    rpc_down world_raw_confirmed = (Throw record_not_found, world_raw_confirmed).
Proof.
  apply (proj2 (raw_failed_listener ethers_lib env0 world_raw_confirmed _ rpc_down
                  world_raw_confirmed_service_reachable)).
  vm_compute. reflexivity.
Defined.

(** ** More on one delivery of a withdrawal job *)

(** X9: a delivery changes nothing but its own request: the other
    requests, the raw-broadcast rows and the identifier counter stay, no
    request appears or disappears, and the history only grows, by entries
    of this request. *)
Theorem delivery_touches_own_request_only ethers env chain job w :
  let w' := snd (multiSigWorker ethers env chain job w) in
  delete (dbId job) (withdrawalRequests w') =
    delete (dbId job) (withdrawalRequests w)
  /\ (is_Some (withdrawalRequests w' !! dbId job)
      <-> is_Some (withdrawalRequests w !! dbId job))
  /\ rawTransactionBroadcasts w' = rawTransactionBroadcasts w
  /\ cuids w' = cuids w
  /\ exists hs, historyEntries w' =
                  historyEntries w ++ map (entry (dbId job)) hs.
Proof.
  cbv zeta.
  assert (Hsame : forall res, multiSigWorker ethers env chain job w = (res, w) ->
    delete (dbId job) (withdrawalRequests (snd (multiSigWorker ethers env chain job w))) =
      delete (dbId job) (withdrawalRequests w)
    /\ (is_Some (withdrawalRequests (snd (multiSigWorker ethers env chain job w))
                   !! dbId job)
        <-> is_Some (withdrawalRequests w !! dbId job))
    /\ rawTransactionBroadcasts (snd (multiSigWorker ethers env chain job w)) =
         rawTransactionBroadcasts w
    /\ cuids (snd (multiSigWorker ethers env chain job w)) = cuids w
    /\ exists hs, historyEntries (snd (multiSigWorker ethers env chain job w)) =
                    historyEntries w ++ map (entry (dbId job)) hs).
  { intros res ->. simpl. repeat split; auto.
    exists []. simpl. rewrite app_nil_r. reflexivity. }
  destruct (withdrawalRequests w !! dbId job) as [r|] eqn:Hr.
  - destruct (in_final_state (status r)) eqn:Hs.
    + apply (Hsame (Ok tt)). apply skip_guard. right. exists r.
      split; [exact Hr|]. apply in_final_state_spec. exact Hs.
    + destruct (new_Wallet ethers (SERVICE_WALLET_PRIVATE_KEY env))
        as [[]|ek] eqn:Hk;
        [| apply (Hsame (Throw ek));
           exact (multiSigWorker_no_wallet _ _ _ _ _ r ek Hr Hs Hk)].
      rewrite (multiSigWorker_live _ _ _ _ _ r Hr Hs Hk).
      destruct (multiSigWorker_try_outcomes ethers env chain job r w Hr)
        as (l & _ & H). cbv zeta in H.
      destruct H as [(e & ->) | [(h & e & ->) | (h & ->)]]; simpl;
        rewrite delete_insert_eq, lookup_insert_eq;
        (split; [reflexivity|]); (split; [split; eauto|]);
        (split; [reflexivity|]); (split; [reflexivity|]); eauto.
  - apply (Hsame (Ok tt)). apply skip_guard. left. exact Hr.
Qed.

(** X10: for a stored request, a delivery returns normally exactly when
    it leaves the request in a final state, COMPLETED or CANCELLED; when
    it throws, the request is in the status it had, in PROCESSING or in
    BROADCASTED. *)
Theorem delivery_returns_iff_final ethers env chain job w r :
  withdrawalRequests w !! dbId job = Some r ->
  let out := multiSigWorker ethers env chain job w in
  exists r', withdrawalRequests (snd out) !! dbId job = Some r'
    /\ (fst out = Ok tt <->
        status r' = "COMPLETED" \/ status r' = "CANCELLED")
    /\ (forall e, fst out = Throw e ->
          status r' = status r \/ status r' = "PROCESSING"
          \/ status r' = "BROADCASTED").
Proof.
  intros Hr. cbv zeta.
  destruct (in_final_state (status r)) eqn:Hs.
  - rewrite skip_guard.
    2:{ right. exists r. split; [exact Hr|]. apply in_final_state_spec. exact Hs. }
    simpl. exists r. split; [exact Hr|]. split; [|discriminate].
    apply in_final_state_spec in Hs. tauto.
  - destruct (new_Wallet ethers (SERVICE_WALLET_PRIVATE_KEY env))
      as [[]|ek] eqn:Hk.
    2:{ rewrite (multiSigWorker_no_wallet _ _ _ _ _ r ek Hr Hs Hk). simpl.
        apply in_final_state_false in Hs as [Hs1 Hs2].
        exists r. split; [exact Hr|]. split; [|auto].
        split; [discriminate | tauto]. }
    rewrite (multiSigWorker_live _ _ _ _ _ r Hr Hs Hk).
    apply in_final_state_false in Hs as [Hs1 Hs2].
    destruct (multiSigWorker_try_outcomes ethers env chain job r w Hr)
      as (l & _ & H). cbv zeta in H. unfold first_step_row in H.
    destruct H as [(e & ->) | [(h & e & ->) | (h & ->)]]; simpl;
      eexists; (split; [apply lookup_insert_eq|]).
    + case_bool_decide; simpl; split;
        try (split; [discriminate | intros [H'|H']; congruence]);
        intros; auto.
    + simpl. split; [split; [discriminate | intros [H'|H']; discriminate]|].
      intros; auto.
    + simpl. split; [split; auto | discriminate].
Qed.

Lemma delivery_returns_iff_final_witness :
  fst (multiSigWorker ethers_lib env0 chain_no_confirmation first_job
         world_submitted) = Throw rpc_down
  /\ (status <$> withdrawalRequests world_broadcasted !! "c0") = Some "BROADCASTED".
Proof.
  destruct (delivery_returns_iff_final ethers_lib env0 chain_no_confirmation
              first_job world_submitted submitted_row
              ltac:(vm_compute; reflexivity)) as (r' & Hr' & _ & _).
  split; vm_compute; reflexivity.
Defined.



(** ** Reading, cancelling and the queue *)

Lemma find_by_requestId_intro t rid k r :
  (forall k' r', t !! k' = Some r' -> requestId r' = rid -> k' = k) ->
  t !! k = Some r -> requestId r = rid ->
  find_by_requestId t rid = Some (k, r).
Proof.
  intros Hu Hk Hr.
  destruct (find_by_requestId t rid) as [[k' r']|] eqn:E.
  - apply find_by_requestId_Some in E as [Hk' Hr'].
    assert (k' = k) as -> by (eapply Hu; eauto). congruence.
  - exfalso. eapply find_by_requestId_None; eauto.
Qed.

(** What a successful intake has done. *)
Lemma processNewRequest_Ok rd w v w' :
  processNewRequest rd w = (Ok v, w') ->
  v = request_id rd /\ w' = world_intake rd w
  /\ find_by_requestId (withdrawalRequests w) (request_id rd) = None.
Proof.
  intros H.
  destruct (find_by_requestId (withdrawalRequests w) (request_id rd))
    as [[k r]|] eqn:Hf.
  - rewrite (processNewRequest_duplicate_run _ _ _ _ Hf) in H. discriminate.
  - destruct (withdrawalRequests w !! cuid w) as [r|] eqn:Hk.
    + rewrite (processNewRequest_key_taken _ _ Hf) in H by (rewrite Hk; eauto).
      discriminate.
    + rewrite (processNewRequest_fresh_run _ _ Hf Hk) in H.
      injection H as <- <-. auto.
Qed.

Lemma find_after_intake rd w :
  find_by_requestId (withdrawalRequests w) (request_id rd) = None ->
  find_by_requestId (withdrawalRequests (world_intake rd w)) (request_id rd) =
    Some (cuid w, new_row (cuid w) rd).
Proof.
  intros Hf. pose proof (proj1 (find_by_requestId_None _ _) Hf) as Hnone.
  apply find_by_requestId_intro; simpl.
  - intros k' r'. destruct (decide (cuid w = k')) as [<-|Hne]; [auto|].
    rewrite lookup_insert_ne by exact Hne. intros Hk' Hr'.
    exfalso. exact (Hnone _ _ Hk' Hr').
  - apply lookup_insert_eq.
  - reflexivity.
Qed.

Lemma getRequestStatus_found rid w k r :
  find_by_requestId (withdrawalRequests w) rid = Some (k, r) ->
  getRequestStatus rid w = (Ok (r, history_of k w), w).
Proof.
  intros Hf. unfold getRequestStatus, withdrawalRequest_findUnique_include_history.
  erewrite bind_Ok by reflexivity. rewrite Hf. reflexivity.
Qed.

Lemma getRequestStatus_not_found rid w :
  find_by_requestId (withdrawalRequests w) rid = None ->
  getRequestStatus rid w = (Throw request_not_found, w).
Proof.
  intros Hf. unfold getRequestStatus, withdrawalRequest_findUnique_include_history.
  erewrite bind_Ok by reflexivity. rewrite Hf. reflexivity.
Qed.

(** X12: [getRequestStatus] never changes the world.  It throws "Request
    not found." exactly when no stored request has the identifier, and
    otherwise returns a stored request that has it, with the history
    entries of that request in the order they were written. *)
Theorem getRequestStatus_reads rid w :
  snd (getRequestStatus rid w) = w
  /\ ((forall k r, withdrawalRequests w !! k = Some r -> requestId r <> rid) <->
      fst (getRequestStatus rid w) = Throw request_not_found)
  /\ (forall r hs, fst (getRequestStatus rid w) = Ok (r, hs) ->
        requestId r = rid
        /\ exists k, withdrawalRequests w !! k = Some r
                     /\ hs = history_of k w).
Proof.
  destruct (find_by_requestId (withdrawalRequests w) rid) as [[k r]|] eqn:Hf.
  - rewrite (getRequestStatus_found _ _ _ _ Hf). simpl.
    apply find_by_requestId_Some in Hf as [Hk Hr].
    split; [reflexivity|]. split.
    + split; [|discriminate]. intros H. exfalso. exact (H _ _ Hk Hr).
    + intros r' hs [= <- <-]. eauto.
  - rewrite (getRequestStatus_not_found _ _ Hf). simpl.
    split; [reflexivity|]. split.
    + split; [reflexivity|]. intros _. apply find_by_requestId_None. exact Hf.
    + discriminate.
Qed.

Lemma getRequestStatus_reads_witness :
  requestId submitted_row = "bank-tx-id-12345-abcdef"
  /\ exists k, withdrawalRequests world_submitted !! k = Some submitted_row
               /\ history_of "c0" world_submitted = history_of k world_submitted.
Proof.
  apply (proj2 (proj2 (getRequestStatus_reads "bank-tx-id-12345-abcdef"
                         world_submitted))).
  vm_compute. reflexivity.
Defined.

(** X13: a request that was taken in can be read back: after a
    successful intake, [getRequestStatus] with the submitted identifier
    returns the stored row, PENDING_SIGNATURE with the submitted fields,
    and a history that ends with the PENDING_SIGNATURE entry. *)
Theorem intake_then_status rd w v w' :
  processNewRequest rd w = (Ok v, w') ->
  getRequestStatus v w' =
    (Ok (new_row (cuid w) rd,
         history_of (cuid w) w ++ [entry (cuid w) "PENDING_SIGNATURE"]), w').
Proof.
  intros H. apply processNewRequest_Ok in H as (-> & -> & Hf).
  rewrite (getRequestStatus_found _ _ _ _ (find_after_intake rd w Hf)).
  do 2 f_equal. unfold history_of, world_intake. simpl.
  rewrite filter_app, filter_cons, filter_nil. simpl.
  rewrite decide_True by reflexivity. reflexivity.
Qed.

Lemma intake_then_status_witness :
  getRequestStatus "bank-tx-id-12345-abcdef" world_submitted =
    (Ok (submitted_row, [entry "c0" "PENDING_SIGNATURE"]), world_submitted).
Proof.
  exact (intake_then_status bank_request empty_world
           "bank-tx-id-12345-abcdef" world_submitted eq_refl).
Defined.

(** X14: a request cancelled before its job is delivered is never
    submitted.  After a successful intake, [cancelRequest] with the
    submitted identifier succeeds; in the world it leaves, every delivery
    for the new request, by any job and whatever the chain would answer,
    returns at once without a call to the chain and without a write, and
    a second [cancelRequest] throws the conflict error that names
    CANCELLED. *)
Theorem cancel_before_delivery ethers env rd w v w1 :
  processNewRequest rd w = (Ok v, w1) ->
  exists w2,
    cancelRequest v w1 = (Ok (v, "CANCELLED"), w2)
    /\ (forall chain job, dbId job = cuid w ->
          multiSigWorker ethers env chain job w2 = (Ok tt, w2))
    /\ cancelRequest v w2 = (Throw (cannot_cancel "CANCELLED"), w2).
Proof.
  intros H. apply processNewRequest_Ok in H as (-> & -> & Hf).
  pose proof (find_after_intake rd w Hf) as Hf1.
  eexists. split; [|split].
  - rewrite (cancelRequest_pending _ _ _ _ Hf1 eq_refl). reflexivity.
  - intros chain job Hj. apply skip_guard. right. eexists. rewrite Hj. simpl.
    split; [apply lookup_insert_eq | right; reflexivity].
  - apply (cancelRequest_conflict _ _ (cuid w)
             (set_status "CANCELLED" (new_row (cuid w) rd))); [|discriminate].
    pose proof (proj1 (find_by_requestId_None _ _) Hf) as Hnone.
    apply find_by_requestId_intro; simpl.
    + intros k' r'. destruct (decide (cuid w = k')) as [<-|Hne]; [auto|].
      rewrite !lookup_insert_ne by exact Hne. intros Hk' Hr'.
      exfalso. exact (Hnone _ _ Hk' Hr').
    + apply lookup_insert_eq.
    + reflexivity.
Qed.

Lemma cancel_before_delivery_witness :
  exists w2,
    cancelRequest "bank-tx-id-12345-abcdef" world_submitted =
      (Ok ("bank-tx-id-12345-abcdef", "CANCELLED"), w2)
    /\ multiSigWorker ethers_lib env0 chain_ok first_job w2 = (Ok tt, w2).
Proof.
  destruct (cancel_before_delivery ethers_lib env0 bank_request empty_world
              "bank-tx-id-12345-abcdef" world_submitted eq_refl)
    as (w2 & Hc & Hd & _).
  exists w2. split; [exact Hc | apply Hd; reflexivity].
Defined.

(** X15: the ['failed'] listener of the withdrawal worker sends its alert
    only after the store accepted the write: for a job whose request is
    not stored it throws "Record to update not found.", sends no alert and
    changes nothing. *)
Theorem failed_listener_missing_request job err w :
  withdrawalRequests w !! dbId job = None ->
  multiSigWorker_on_failed job err w = (Throw record_not_found, w).
Proof.
  intros Hr. unfold multiSigWorker_on_failed.
  erewrite bind_Throw by (apply update_missing; exact Hr). reflexivity.
Qed.

Lemma failed_listener_missing_request_witness :
  multiSigWorker_on_failed duplicate_job rpc_down empty_world =
    (Throw record_not_found, empty_world).
Proof.
  apply failed_listener_missing_request. vm_compute. reflexivity.
Defined.

(** ** The health check and the routes *)

(** X16: the health check reports healthy exactly when the database
    query and both queues answer; [overallStatus] is "OK" exactly then.
    The database entry is "ERROR" with the message of the error exactly
    when the query throws, and the queue entry is "ERROR" exactly when a
    queue throws; the raw-broadcast queue is asked only if the withdrawal
    queue answered.  [GET /health] sends 200 when healthy and 503
    otherwise, with the same report. *)
Theorem health_check_reports infra :
  let '(health, isHealthy) := checkHealth infra in
  (isHealthy = true <->
     (exists a, queryRaw_SELECT_1 infra = Ok a)
     /\ (exists b, withdrawalQueue_isReady infra = Ok b)
     /\ (exists c, rawTxBroadcastQueue_isReady infra = Ok c))
  /\ (overallStatus health = "OK" <-> isHealthy = true)
  /\ database health =
       match queryRaw_SELECT_1 infra with
       | Ok _ => {| dh_status := "OK"; dh_message := "Connected" |}
       | Throw e => {| dh_status := "ERROR"; dh_message := message e |}
       end
  /\ queue health =
       match withdrawalQueue_isReady infra with
       | Throw e => {| dh_status := "ERROR"; dh_message := message e |}
       | Ok _ =>
           match rawTxBroadcastQueue_isReady infra with
           | Throw e => {| dh_status := "ERROR"; dh_message := message e |}
           | Ok _ => {| dh_status := "OK"; dh_message := "Connected" |}
           end
       end
  /\ timestamp health = now_ISO infra
  /\ health_route infra =
       {| code := if isHealthy then 200 else 503; body := BHealth health |}.
Proof.
  unfold health_route, checkHealth, queues_ready.
  destruct (queryRaw_SELECT_1 infra) as [a|e1],
           (withdrawalQueue_isReady infra) as [b|e2],
           (rawTxBroadcastQueue_isReady infra) as [c|e3]; simpl;
    repeat split; try reflexivity; try discriminate; eauto;
    try (intros (H1 & H2 & H3); destruct H1, H2, H3; discriminate).
Qed.



(** X18: [POST /cancel] answers 200 with status CANCELLED only for a
    stored request that was PENDING_SIGNATURE.  For a request in any other
    status it answers 404 with the conflict message that names the
    status, the same code as for an unknown identifier, and in both cases
    the world is unchanged; with validation errors it answers 400 and
    does nothing else. *)
Theorem cancel_route_answers errors rid w :
  (errors <> [] ->
     cancel_route errors rid w =
       (Ok {| code := 400; body := BErrors errors |}, w))
  /\ (errors = [] ->
      (forall k r,
         find_by_requestId (withdrawalRequests w) rid = Some (k, r) ->
         status r = "PENDING_SIGNATURE" ->
         cancel_route errors rid w =
           (Ok {| code := 200; body := BCancelled "CANCELLED" (requestId r) |},
            world_after w k (set_status "CANCELLED" r) ["CANCELLED"]
              [EvWithdrawalUpdate k "PENDING_SIGNATURE" "CANCELLED"]))
      /\ (forall k r,
            find_by_requestId (withdrawalRequests w) rid = Some (k, r) ->
            status r <> "PENDING_SIGNATURE" ->
            cancel_route errors rid w =
              (Ok {| code := 404;
                     body := BError ("Cannot cancel request. Status is already '"
                                     +:+ status r +:+ "'.") |}, w))
      /\ (find_by_requestId (withdrawalRequests w) rid = None ->
          cancel_route errors rid w =
            (Ok {| code := 404; body := BError "Request not found." |}, w))).
Proof.
  split.
  - intros He. unfold cancel_route.
    rewrite bool_decide_eq_false_2 by exact He. reflexivity.
  - intros ->. unfold cancel_route. simpl. unfold try_catch, bind.
    split; [|split].
    + intros k r Hf Hs. rewrite (cancelRequest_pending _ _ _ _ Hf Hs). reflexivity.
    + intros k r Hf Hs. rewrite (cancelRequest_conflict _ _ _ _ Hf Hs). reflexivity.
    + intros Hf. rewrite (cancelRequest_not_found _ _ Hf). reflexivity.
Qed.

Lemma cancel_route_answers_witness :
  cancel_route [] "bank-tx-id-12345-abcdef" world_completed =
    (Ok {| code := 404;
           body := BError "Cannot cancel request. Status is already 'COMPLETED'." |},
     world_completed).
Proof.
  apply (proj1 (proj2 (proj2 (cancel_route_answers [] "bank-tx-id-12345-abcdef"
                                world_completed) eq_refl))
           "c0" (completed_row submitted_row "0xhash")).
  - vm_compute. reflexivity.
  - discriminate.
Defined.

(** X19: [GET /status/:requestId] never changes the world.  Without
    validation errors it answers 404 with "Request not found." exactly
    when no stored request has the identifier, and otherwise 200 with a
    stored request that has it and that request's history. *)
Theorem status_route_answers errors rid w :
  snd (status_route errors rid w) = w
  /\ (errors <> [] ->
      fst (status_route errors rid w) =
        Ok {| code := 400; body := BErrors errors |})
  /\ (errors = [] ->
      ((forall k r, withdrawalRequests w !! k = Some r -> requestId r <> rid) ->
       fst (status_route errors rid w) =
         Ok {| code := 404; body := BError "Request not found." |})
      /\ (forall k r, withdrawalRequests w !! k = Some r -> requestId r = rid ->
            exists k' r',
              withdrawalRequests w !! k' = Some r' /\ requestId r' = rid
              /\ fst (status_route errors rid w) =
                   Ok {| code := 200; body := BRequest r' (history_of k' w) |})).
Proof.
  unfold status_route.
  destruct (decide (errors = [])) as [->|He].
  - simpl. unfold try_catch, bind.
    destruct (find_by_requestId (withdrawalRequests w) rid) as [[k r]|] eqn:Hf.
    + rewrite (getRequestStatus_found _ _ _ _ Hf). simpl.
      apply find_by_requestId_Some in Hf as [Hk Hr].
      split; [reflexivity|]. split; [intros H; contradiction|].
      intros _. split.
      * intros H. exfalso. exact (H _ _ Hk Hr).
      * intros _ _ _ _. exists k, r. auto.
    + rewrite (getRequestStatus_not_found _ _ Hf). simpl.
      split; [reflexivity|]. split; [intros H; contradiction|].
      intros _. split; [reflexivity|].
      intros k r Hk Hr. exfalso.
      exact (proj1 (find_by_requestId_None _ _) Hf _ _ Hk Hr).
  - rewrite bool_decide_eq_false_2 by exact He. simpl.
    split; [reflexivity|]. split; [reflexivity|]. intros H. contradiction.
Qed.

Lemma status_route_answers_witness :
  fst (status_route [] "no-such-request" world_completed) =
    Ok {| code := 404; body := BError "Request not found." |}.
Proof.
  apply (proj1 (proj2 (proj2 (status_route_answers [] "no-such-request"
                                world_completed)) eq_refl)).
  intros k r Hk Hr.
  assert (Hf : find_by_requestId (withdrawalRequests world_completed)
                 "no-such-request" = None) by (vm_compute; reflexivity).
  exact (proj1 (find_by_requestId_None _ _) Hf k r Hk Hr).
Defined.



(** ** What no action ever changes *)

Lemma same_request_refl r : same_request r r.
Proof. repeat split. Qed.

Lemma same_request_trans r1 r2 r3 :
  same_request r1 r2 -> same_request r2 r3 -> same_request r1 r3.
Proof. unfold same_request. intuition congruence. Qed.

Lemma same_raw_refl r : same_raw r r.
Proof. repeat split. Qed.

Lemma same_raw_trans r1 r2 r3 : same_raw r1 r2 -> same_raw r2 r3 -> same_raw r1 r3.
Proof. unfold same_raw. intuition congruence. Qed.

Lemma tables_kept_refl w : tables_kept w w.
Proof.
  repeat split; eauto using same_request_refl, same_raw_refl.
Qed.

Lemma tables_kept_trans w1 w2 w3 :
  tables_kept w1 w2 -> tables_kept w2 w3 -> tables_kept w1 w3.
Proof.
  intros (A1 & B1 & C1 & D1 & E1) (A2 & B2 & C2 & D2 & E2).
  split; [|split; [|split; [|split]]].
  - intros k r Hk. destruct (A1 k r Hk) as (r' & Hk' & Hs).
    destruct (A2 k r' Hk') as (r'' & Hk'' & Hs').
    exists r''. split; [exact Hk'' | eapply same_request_trans; eauto].
  - intros k r Hk. destruct (B1 k r Hk) as (r' & Hk' & Hs).
    destruct (B2 k r' Hk') as (r'' & Hk'' & Hs').
    exists r''. split; [exact Hk'' | eapply same_raw_trans; eauto].
  - etransitivity; eauto.
  - etransitivity; eauto.
  - lia.
Qed.

Lemma tables_kept_emits l w : tables_kept w (emits l w).
Proof.
  split; [|split; [|split; [|split]]]; simpl;
    eauto using same_request_refl, same_raw_refl.
  apply prefix_app_r. reflexivity.
Qed.

Lemma tables_kept_world_after w k r rfin hs tr :
  withdrawalRequests w !! k = Some r -> same_request r rfin ->
  tables_kept w (world_after w k rfin hs tr).
Proof.
  intros Hr Hs.
  split; [|split; [|split; [|split]]]; simpl;
    eauto using same_raw_refl; try (apply prefix_app_r; reflexivity).
  intros k' r' Hk'. destruct (decide (k = k')) as [<-|Hne].
  - rewrite lookup_insert_eq. exists rfin. split; [reflexivity | congruence].
  - rewrite lookup_insert_ne by exact Hne. eauto using same_request_refl.
Qed.

Lemma tables_kept_raw_world_after w k r rfin tr :
  rawTransactionBroadcasts w !! k = Some r -> same_raw r rfin ->
  tables_kept w (raw_world_after w k rfin tr).
Proof.
  intros Hr Hs.
  split; [|split; [|split; [|split]]]; simpl;
    eauto using same_request_refl; try (apply prefix_app_r; reflexivity).
  intros k' r' Hk'. destruct (decide (k = k')) as [<-|Hne].
  - rewrite lookup_insert_eq. exists rfin. split; [reflexivity | congruence].
  - rewrite lookup_insert_ne by exact Hne. eauto using same_raw_refl.
Qed.

Lemma tables_kept_intake rd w :
  withdrawalRequests w !! cuid w = None -> tables_kept w (world_intake rd w).
Proof.
  intros Hk.
  split; [|split; [|split; [|split]]]; simpl;
    eauto using same_raw_refl; try (apply prefix_app_r; reflexivity).
  intros k r Hr. exists r. split; [|apply same_request_refl].
  rewrite lookup_insert_ne; [exact Hr | congruence].
Qed.

Lemma tables_kept_raw_intake raw client w :
  rawTransactionBroadcasts w !! cuid w = None ->
  tables_kept w (world_raw_intake raw client w).
Proof.
  intros Hk.
  split; [|split; [|split; [|split]]]; simpl;
    eauto using same_request_refl; try (apply prefix_app_r; reflexivity).
  intros k r Hr. exists r. split; [|apply same_raw_refl].
  rewrite lookup_insert_ne; [exact Hr | congruence].
Qed.

(** ** What the service sends to the chain *)

Lemma only_events_ret P {A} (a : A) : only_events P (ret a).
Proof. intros w. exists []. split; [constructor | symmetry; apply emits_nil]. Qed.

Lemma only_events_call P {A} e (r : Result A) : P e -> only_events P (call e r).
Proof. intros He w. exists [e]. split; [repeat constructor; exact He | reflexivity]. Qed.

Lemma only_events_bind_call P {A B} e (r : Result A) (k : A -> M B) :
  P e -> (forall a, only_events P (k a)) -> only_events P (bind (call e r) k).
Proof.
  intros He Hk w. unfold bind. rewrite call_run.
  destruct r as [a|err].
  - destruct (Hk a (emit e w)) as (l & Hl & E).
    exists (e :: l). split; [constructor; assumption|].
    rewrite E. change (emit e w) with (emits [e] w). apply emits_emits.
  - exists [e]. split; [repeat constructor; exact He | reflexivity].
Qed.

Lemma only_events_bind_await P {A B} (r : Result A) (k : A -> M B) :
  (forall a, r = Ok a -> only_events P (k a)) -> only_events P (bind (await r) k).
Proof.
  intros Hk w. unfold bind. rewrite await_run.
  destruct r as [a|err].
  - exact (Hk a eq_refl w).
  - exists []. split; [constructor | symmetry; apply emits_nil].
Qed.

(** The chain part of a delivery for a stored request sends only what the
    request authorises. *)
Lemma submit_transfer_authorised ethers env chain w k r :
  withdrawalRequests w !! k = Some r ->
  only_events (handler_event ethers env w) (submit_transfer ethers env chain r).
Proof.
  intros Hr. unfold submit_transfer.
  apply only_events_bind_call; [exact I | intros d].
  apply only_events_bind_await. intros amt Hamt.
  apply only_events_bind_call; [exact I | intros fd].
  apply only_events_bind_await. intros _ _.
  apply only_events_bind_await. intros _ _.
  apply only_events_call. simpl.
  split; [reflexivity|]. split; [reflexivity|]. exists k, r, d. auto.
Qed.

(** The three outcomes of the [try] block, with what is known of the
    events of the chain part. *)
Lemma multiSigWorker_try_outcomes_with (P : Event -> Prop)
    ethers env chain job r w :
  only_events P (submit_transfer ethers env chain r) ->
  withdrawalRequests w !! dbId job = Some r ->
  let k := dbId job in
  let r1 := first_step_row job r in
  let hs := first_step_history job in
  let tr := first_step_events job r in
  exists l, Forall P l /\
    ((exists e, multiSigWorker_try ethers env chain job r w =
                  (Throw e, world_after w k r1 hs (tr ++ l)))
     \/ (exists h e,
           multiSigWorker_try ethers env chain job r w =
             (Throw e,
              world_after w k (apply_update (to_BROADCASTED h) r1)
                (hs ++ ["BROADCASTED"])
                (tr ++ l ++ [EvWithdrawalUpdate k (status r1) "BROADCASTED";
                             EvWait h 1])))
     \/ (exists h,
           multiSigWorker_try ethers env chain job r w =
             (Ok tt,
              world_after w k
                (apply_update to_COMPLETED (apply_update (to_BROADCASTED h) r1))
                (hs ++ ["BROADCASTED"; "COMPLETED"])
                (tr ++ l ++ [EvWithdrawalUpdate k (status r1) "BROADCASTED";
                             EvWait h 1;
                             EvWithdrawalUpdate k "BROADCASTED" "COMPLETED"])))).
Proof.
  intros HP Hr. cbv zeta.
  assert (Hstep : (if bool_decide (attemptsMade job = 0)
                   then withdrawalRequest_update (dbId job) to_PROCESSING ;;; ret tt
                   else ret tt) w =
                  (Ok tt, world_after w (dbId job) (first_step_row job r)
                            (first_step_history job) (first_step_events job r))).
  { rewrite <- (after_first_step_eq job w r Hr). unfold after_first_step.
    case_bool_decide.
    - erewrite bind_Ok by (apply updated_found; exact Hr). reflexivity.
    - reflexivity. }
  destruct (HP (world_after w (dbId job) (first_step_row job r)
                  (first_step_history job) (first_step_events job r)))
    as (l & Hl & Hsub).
  exists l. split; [exact Hl|].
  unfold multiSigWorker_try. erewrite bind_Ok by exact Hstep.
  destruct (submit_transfer ethers env chain r _) as [[tx|e] w1] eqn:E;
    simpl in Hsub; subst w1.
  - erewrite bind_Ok by exact E. rewrite emits_world_after.
    erewrite bind_Ok by (apply updated_found; apply lookup_insert_eq).
    rewrite (updated_world_after _ _ _ _ _ _ "BROADCASTED") by reflexivity.
    destruct (wait chain (hash tx) 1) as [[]|e] eqn:Ew.
    + right. right. exists (hash tx).
      erewrite bind_Ok by reflexivity.
      change (emit ?e ?w) with (emits [e] w). rewrite emits_world_after.
      erewrite bind_Ok by (apply updated_found; apply lookup_insert_eq).
      rewrite (updated_world_after _ _ _ _ _ _ "COMPLETED") by reflexivity.
      unfold ret. rewrite <- !app_assoc. reflexivity.
    + right. left. exists (hash tx), e.
      erewrite bind_Throw by reflexivity.
      change (emit ?e ?w) with (emits [e] w). rewrite emits_world_after.
      rewrite <- !app_assoc. reflexivity.
  - left. exists e. erewrite bind_Throw by exact E.
    rewrite emits_world_after. reflexivity.
Qed.

Lemma same_request_apply_update d r : same_request r (apply_update d r).
Proof. repeat split. Qed.

Lemma handler_effect_emits ethers env w l :
  Forall (handler_event ethers env w) l -> handler_effect ethers env w (emits l w).
Proof.
  intros Hl. exists l. split; [reflexivity|]. split; [exact Hl|].
  split; [apply tables_kept_emits|]. repeat split; auto.
Qed.

Lemma handler_effect_same ethers env w : handler_effect ethers env w w.
Proof.
  rewrite <- (emits_nil w) at 2. apply handler_effect_emits. constructor.
Qed.

Lemma handler_effect_world_after ethers env w k r rfin hs tr :
  withdrawalRequests w !! k = Some r -> same_request r rfin ->
  Forall (handler_event ethers env w) tr ->
  handler_effect ethers env w (world_after w k rfin hs tr).
Proof.
  intros Hr Hs Htr. exists tr. split; [reflexivity|]. split; [exact Htr|].
  split; [eapply tables_kept_world_after; eauto|]. simpl.
  split; [|split; [tauto | reflexivity]].
  intros k'. destruct (decide (k = k')) as [<-|Hne].
  - rewrite lookup_insert_eq, Hr. split; eauto.
  - rewrite lookup_insert_ne by exact Hne. reflexivity.
Qed.

Lemma handler_effect_raw_world_after ethers env w k r rfin tr :
  rawTransactionBroadcasts w !! k = Some r -> same_raw r rfin ->
  Forall (handler_event ethers env w) tr ->
  handler_effect ethers env w (raw_world_after w k rfin tr).
Proof.
  intros Hr Hs Htr. exists tr. split; [reflexivity|]. split; [exact Htr|].
  split; [eapply tables_kept_raw_world_after; eauto|]. simpl.
  split; [tauto|]. split; [|reflexivity].
  intros k'. destruct (decide (k = k')) as [<-|Hne].
  - rewrite lookup_insert_eq, Hr. split; eauto.
  - rewrite lookup_insert_ne by exact Hne. reflexivity.
Qed.

Lemma multiSigWorker_effect ethers env chain job w :
  handler_effect ethers env w (snd (multiSigWorker ethers env chain job w)).
Proof.
  destruct (withdrawalRequests w !! dbId job) as [r|] eqn:Hr.
  - destruct (in_final_state (status r)) eqn:Hs.
    + rewrite skip_guard; [apply handler_effect_same|]. right. exists r.
      split; [exact Hr|]. apply in_final_state_spec. exact Hs.
    + destruct (new_Wallet ethers (SERVICE_WALLET_PRIVATE_KEY env))
        as [[]|ek] eqn:Hk;
        [| rewrite (multiSigWorker_no_wallet _ _ _ _ _ r ek Hr Hs Hk);
           apply handler_effect_same].
      rewrite (multiSigWorker_live _ _ _ _ _ r Hr Hs Hk).
      destruct (multiSigWorker_try_outcomes_with (handler_event ethers env w)
                  ethers env chain job r w
                  (submit_transfer_authorised ethers env chain w _ r Hr) Hr)
        as (l & Hl & H). cbv zeta in H.
      assert (Htr : Forall (handler_event ethers env w) (first_step_events job r)).
      { unfold first_step_events. case_bool_decide; repeat constructor. }
      assert (Hs1 : same_request r (first_step_row job r)).
      { unfold first_step_row. case_bool_decide;
          [apply same_request_apply_update | apply same_request_refl]. }
      destruct H as [(e & ->) | [(h & e & ->) | (h & ->)]]; simpl;
        (eapply handler_effect_world_after; [exact Hr | | ]).
      * exact Hs1.
      * apply Forall_app; auto.
      * eapply same_request_trans; [exact Hs1 | apply same_request_apply_update].
      * apply Forall_app. split; [exact Htr|]. apply Forall_app.
        split; [exact Hl | repeat constructor].
      * eapply same_request_trans; [exact Hs1|].
        eapply same_request_trans; apply same_request_apply_update.
      * apply Forall_app. split; [exact Htr|]. apply Forall_app.
        split; [exact Hl | repeat constructor].
  - rewrite skip_guard; [apply handler_effect_same|]. left. exact Hr.
Qed.

Lemma multiSigWorker_on_failed_effect ethers env job err w :
  handler_effect ethers env w (snd (multiSigWorker_on_failed job err w)).
Proof.
  destruct (withdrawalRequests w !! dbId job) as [r|] eqn:Hr.
  - rewrite (multiSigWorker_on_failed_found _ _ _ _ Hr). simpl.
    eapply handler_effect_world_after;
      [exact Hr | apply same_request_apply_update | repeat constructor].
  - rewrite (multiSigWorker_on_failed_missing _ _ _ Hr).
    apply handler_effect_same.
Qed.

Lemma cancelRequest_effect ethers env rid w :
  handler_effect ethers env w (snd (cancelRequest rid w)).
Proof.
  destruct (find_by_requestId (withdrawalRequests w) rid) as [[k r]|] eqn:Hf.
  - pose proof (find_by_requestId_Some _ _ _ _ Hf) as [Hk _].
    destruct (decide (status r = "PENDING_SIGNATURE")) as [Hs|Hs].
    + rewrite (cancelRequest_pending _ _ _ _ Hf Hs). simpl.
      change (handler_effect ethers env w
                (world_after w k (set_status "CANCELLED" r) ["CANCELLED"]
                   [EvWithdrawalUpdate k "PENDING_SIGNATURE" "CANCELLED"])).
      eapply handler_effect_world_after;
        [exact Hk | apply same_request_apply_update | repeat constructor].
    + rewrite (cancelRequest_conflict _ _ _ _ Hf Hs). apply handler_effect_same.
  - rewrite (cancelRequest_not_found _ _ Hf). apply handler_effect_same.
Qed.

Lemma rawTxBroadcastWorker_effect ethers env chain job w :
  handler_effect ethers env w (snd (rawTxBroadcastWorker env chain job w)).
Proof.
  destruct (rawTransactionBroadcasts w !! dbId job) as [r|] eqn:Hr.
  - destruct (decide (raw_status r = "PENDING")) as [Hs|Hs].
    + assert (Hsent : handler_event ethers env w
                        (EvBroadcastTransaction (rpcUrl_of env) (rawTx r))).
      { simpl. split; [reflexivity|]. eauto. }
      destruct (raw_delivery_outcomes env chain job w r Hr Hs)
        as [(e & ->) | [(h & e & _ & ->) | (h & _ & ->)]]; simpl.
      * change (emit ?e ?w) with (emits [e] w). apply handler_effect_emits.
        constructor; [exact Hsent | constructor].
      * eapply handler_effect_raw_world_after;
          [exact Hr | repeat split
          | constructor; [exact Hsent | repeat constructor]].
      * eapply handler_effect_raw_world_after;
          [exact Hr | repeat split
          | constructor; [exact Hsent | repeat constructor]].
    + rewrite raw_delivery_skip; [apply handler_effect_same|]. right. eauto.
  - rewrite raw_delivery_skip; [apply handler_effect_same|]. left. exact Hr.
Qed.

Lemma rawTxBroadcastWorker_on_failed_effect ethers env job err w :
  handler_effect ethers env w (snd (rawTxBroadcastWorker_on_failed job err w)).
Proof.
  destruct (rawTransactionBroadcasts w !! dbId job) as [r|] eqn:Hr.
  - destruct (txHash_taken (rawTransactionBroadcasts w) (dbId job) (raw_txHash r))
      eqn:Ht.
    + unfold rawTxBroadcastWorker_on_failed.
      erewrite bind_Throw by (apply raw_update_taken with r; [exact Hr | exact Ht]).
      apply handler_effect_same.
    + rewrite (raw_on_failed_found _ _ _ _ Hr Ht). simpl.
      eapply handler_effect_raw_world_after;
        [exact Hr | repeat split | repeat constructor].
  - rewrite (raw_on_failed_missing _ _ _ Hr). apply handler_effect_same.
Qed.

(** One action keeps what the world holds. *)
Lemma act_tables_kept ethers env a w : tables_kept w (act ethers env a w).
Proof.
  destruct a as [rd | raw client | rid | chain job | job err | chain job | job err];
    simpl.
  - destruct (find_by_requestId (withdrawalRequests w) (request_id rd))
      as [[k r]|] eqn:Hf.
    + rewrite (processNewRequest_duplicate_run _ _ _ _ Hf). apply tables_kept_refl.
    + destruct (withdrawalRequests w !! cuid w) as [r|] eqn:Hk.
      * rewrite (processNewRequest_key_taken _ _ Hf) by (rewrite Hk; eauto).
        apply tables_kept_refl.
      * rewrite (processNewRequest_fresh_run _ _ Hf Hk).
        apply tables_kept_intake. exact Hk.
  - destruct (rawTransactionBroadcasts w !! cuid w) as [r|] eqn:Hk.
    + rewrite processRawTransactionBroadcast_key_taken by (rewrite Hk; eauto).
      apply tables_kept_refl.
    + rewrite (processRawTransactionBroadcast_fresh_run _ _ _ Hk).
      apply tables_kept_raw_intake. exact Hk.
  - destruct (cancelRequest_effect ethers env rid w) as (l & _ & _ & H & _).
    exact H.
  - destruct (multiSigWorker_effect ethers env chain job w) as (l & _ & _ & H & _).
    exact H.
  - destruct (multiSigWorker_on_failed_effect ethers env job err w)
      as (l & _ & _ & H & _). exact H.
  - destruct (rawTxBroadcastWorker_effect ethers env chain job w)
      as (l & _ & _ & H & _). exact H.
  - destruct (rawTxBroadcastWorker_on_failed_effect ethers env job err w)
      as (l & _ & _ & H & _). exact H.
Qed.

(** X21: whatever the service does afterwards, a stored request is never
    deleted and keeps its identifiers, its addresses, its amount and its
    payload; a raw-broadcast row is never deleted and keeps its client and
    its payload; and the history entries written so far stay, in their
    order. *)
Theorem stored_requests_keep_their_fields ethers env (actions : list Action) w :
  let w' := run_actions ethers env actions w in
  (forall k r, withdrawalRequests w !! k = Some r ->
     exists r', withdrawalRequests w' !! k = Some r'
       /\ wr_id r' = wr_id r /\ requestId r' = requestId r
       /\ treasuryContractAddress r' = treasuryContractAddress r
       /\ destinationAddress r' = destinationAddress r
       /\ tokenContractAddress r' = tokenContractAddress r
       /\ amount r' = amount r
       /\ partiallySignedTx r' = partiallySignedTx r)
  /\ (forall k r, rawTransactionBroadcasts w !! k = Some r ->
        exists r', rawTransactionBroadcasts w' !! k = Some r'
          /\ raw_id r' = raw_id r /\ clientId r' = clientId r
          /\ rawTx r' = rawTx r)
  /\ historyEntries w `prefix_of` historyEntries w'.
Proof.
  cbv zeta.
  assert (H : tables_kept w (run_actions ethers env actions w)).
  { revert w. induction actions as [|a actions IH]; intros w.
    - apply tables_kept_refl.
    - simpl. eapply tables_kept_trans; [apply act_tables_kept | apply IH]. }
  destruct H as (A & B & C & _). auto.
Qed.

Lemma stored_requests_keep_their_fields_witness :
  exists r', withdrawalRequests
               (run_actions ethers_lib env0
                  [DeliverWithdrawal chain_no_confirmation first_job;
                   FailWithdrawal duplicate_job rpc_down;
                   CancelRequest "bank-tx-id-12345-abcdef"] world_submitted)
               !! "c0" = Some r'
    /\ amount r' = "1500.00" /\ destinationAddress r' = "0xCustomer".
Proof.
  destruct (proj1 (stored_requests_keep_their_fields ethers_lib env0
                     [DeliverWithdrawal chain_no_confirmation first_job;
                      FailWithdrawal duplicate_job rpc_down;
                      CancelRequest "bank-tx-id-12345-abcdef"] world_submitted)
              "c0" submitted_row ltac:(vm_compute; reflexivity))
    as (r' & Hr' & _ & _ & _ & Hd & _ & Ha & _).
  exists r'. auto.
Defined.

(** ** Invariants of the trace *)

Lemma authorised_event_kept ethers env w w' e :
  tables_kept w w' ->
  authorised_event ethers env w e -> authorised_event ethers env w' e.
Proof.
  intros (A & B & _) He. destruct e; simpl in *; try exact I.
  - destruct He as (H1 & H2 & k & r & d & Hk & Ht & Hd & Hp).
    destruct (A k r Hk) as (r' & Hk' & _ & _ & _ & Hd' & Ht' & Ha' & _).
    split; [exact H1|]. split; [exact H2|]. exists k, r', d.
    rewrite Ht', Hd', Ha'. auto.
  - destruct He as (H1 & k & r & Hk & Hr).
    destruct (B k r Hk) as (r' & Hk' & _ & _ & Hr').
    split; [exact H1|]. exists k, r'. split; [exact Hk' | congruence].
Qed.

Lemma handler_event_authorised ethers env w e :
  handler_event ethers env w e -> authorised_event ethers env w e.
Proof. destruct e; simpl; tauto. Qed.

Lemma handler_effect_authorised ethers env w w' :
  Forall (authorised_event ethers env w) (trace w) ->
  handler_effect ethers env w w' ->
  Forall (authorised_event ethers env w') (trace w').
Proof.
  intros Hw (l & -> & Hl & Hk & _).
  apply Forall_app. split.
  - eapply Forall_impl; [exact Hw|]. intros e. apply authorised_event_kept. exact Hk.
  - eapply Forall_impl; [exact Hl|]. intros e He.
    eapply authorised_event_kept; [exact Hk|].
    apply handler_event_authorised. exact He.
Qed.

Lemma queue_jobs_handler ethers env w q l :
  Forall (handler_event ethers env w) l -> queue_jobs q l = [].
Proof.
  induction 1 as [|e l He _ IH]; [reflexivity|].
  destruct e; simpl in *; try contradiction; exact IH.
Qed.

Lemma handler_effect_queues ethers env w w' :
  queue_invariant w -> handler_effect ethers env w w' -> queue_invariant w'.
Proof.
  intros [Q1 Q2 Q3 Q4 Q5] (l & Htr & Hl & _ & Hd & Hdr & _).
  assert (Hq : forall q, queue_jobs q (trace w') = queue_jobs q (trace w)).
  { intros q. rewrite Htr, queue_jobs_app, (queue_jobs_handler _ _ _ _ _ Hl).
    apply app_nil_r. }
  split; rewrite ?Hq; try assumption.
  - intros k. rewrite Q2, Hd. reflexivity.
  - intros k. rewrite Q4, Hdr. reflexivity.
  - intros q name j. rewrite Htr, elem_of_app. intros [H|H]; [eauto|].
    exfalso. rewrite Forall_forall in Hl. exact (Hl _ H).
Qed.

Lemma intake_queues rd w :
  store_invariant w -> queue_invariant w -> queue_invariant (world_intake rd w).
Proof.
  intros Hinv [Q1 Q2 Q3 Q4 Q5]. destruct (cuid_fresh w Hinv) as [Hk _].
  assert (E1 : queue_jobs "withdrawal-processing" (trace (world_intake rd w)) =
               queue_jobs "withdrawal-processing" (trace w) ++
               [new_job "withdrawal-processing" (cuid w) w]).
  { simpl. rewrite queue_jobs_app.
    change [EvWithdrawalCreate (cuid w); ?e] with ([EvWithdrawalCreate (cuid w)] ++ [e]).
    rewrite queue_jobs_app, queue_jobs_this. reflexivity. }
  assert (E2 : queue_jobs "raw-tx-broadcasting" (trace (world_intake rd w)) =
               queue_jobs "raw-tx-broadcasting" (trace w)).
  { simpl. rewrite queue_jobs_app.
    change [EvWithdrawalCreate (cuid w); ?e] with ([EvWithdrawalCreate (cuid w)] ++ [e]).
    rewrite queue_jobs_app, queue_jobs_other by discriminate.
    simpl. apply app_nil_r. }
  split; rewrite ?E1, ?E2; try assumption.
  - rewrite fmap_app. apply NoDup_app. split; [exact Q1|]. split.
    + intros k Hin. simpl. rewrite list_elem_of_singleton. intros ->.
      apply Q2 in Hin. rewrite Hk in Hin. apply is_Some_None in Hin. exact Hin.
    + simpl. apply NoDup_singleton.
  - intros k. rewrite fmap_app, elem_of_app, Q2. simpl.
    rewrite list_elem_of_singleton.
    destruct (decide (cuid w = k)) as [<-|Hne].
    + rewrite lookup_insert_eq. split; eauto.
    + rewrite lookup_insert_ne by exact Hne. split; [|tauto].
      intros [H|H]; [exact H | congruence].
  - intros q name j. simpl. rewrite elem_of_app, !elem_of_cons, elem_of_nil.
    intros [H|[H|[H|[]]]]; [eauto | discriminate |].
    injection H as -> -> ->. simpl. auto.
Qed.

Lemma raw_intake_queues raw client w :
  store_invariant w -> queue_invariant w ->
  queue_invariant (world_raw_intake raw client w).
Proof.
  intros Hinv [Q1 Q2 Q3 Q4 Q5]. destruct (cuid_fresh w Hinv) as [_ Hk].
  assert (E1 : queue_jobs "raw-tx-broadcasting"
                 (trace (world_raw_intake raw client w)) =
               queue_jobs "raw-tx-broadcasting" (trace w) ++
               [new_job "raw-tx-broadcasting" (cuid w) w]).
  { simpl. rewrite queue_jobs_app.
    change [EvRawCreate (cuid w); ?e] with ([EvRawCreate (cuid w)] ++ [e]).
    rewrite queue_jobs_app, queue_jobs_this. reflexivity. }
  assert (E2 : queue_jobs "withdrawal-processing"
                 (trace (world_raw_intake raw client w)) =
               queue_jobs "withdrawal-processing" (trace w)).
  { simpl. rewrite queue_jobs_app.
    change [EvRawCreate (cuid w); ?e] with ([EvRawCreate (cuid w)] ++ [e]).
    rewrite queue_jobs_app, queue_jobs_other by discriminate.
    simpl. apply app_nil_r. }
  split; rewrite ?E1, ?E2; try assumption.
  - rewrite fmap_app. apply NoDup_app. split; [exact Q3|]. split.
    + intros k Hin. simpl. rewrite list_elem_of_singleton. intros ->.
      apply Q4 in Hin. rewrite Hk in Hin. apply is_Some_None in Hin. exact Hin.
    + simpl. apply NoDup_singleton.
  - intros k. rewrite fmap_app, elem_of_app, Q4. simpl.
    rewrite list_elem_of_singleton.
    destruct (decide (cuid w = k)) as [<-|Hne].
    + rewrite lookup_insert_eq. split; eauto.
    + rewrite lookup_insert_ne by exact Hne. split; [|tauto].
      intros [H|H]; [exact H | congruence].
  - intros q name j. simpl. rewrite elem_of_app, !elem_of_cons, elem_of_nil.
    intros [H|[H|[H|[]]]]; [eauto | discriminate |].
    injection H as -> -> ->. simpl. auto.
Qed.

Lemma intake_authorised ethers env rd w :
  withdrawalRequests w !! cuid w = None ->
  Forall (authorised_event ethers env w) (trace w) ->
  Forall (authorised_event ethers env (world_intake rd w))
         (trace (world_intake rd w)).
Proof.
  intros Hk Hw. simpl. apply Forall_app. split.
  - eapply Forall_impl; [exact Hw|]. intros e.
    apply authorised_event_kept, tables_kept_intake. exact Hk.
  - repeat constructor.
Qed.

Lemma raw_intake_authorised ethers env raw client w :
  rawTransactionBroadcasts w !! cuid w = None ->
  Forall (authorised_event ethers env w) (trace w) ->
  Forall (authorised_event ethers env (world_raw_intake raw client w))
         (trace (world_raw_intake raw client w)).
Proof.
  intros Hk Hw. simpl. apply Forall_app. split.
  - eapply Forall_impl; [exact Hw|]. intros e.
    apply authorised_event_kept, tables_kept_raw_intake. exact Hk.
  - repeat constructor.
Qed.

(** Every action is the intake of a row, or has the effect of a handler. *)
Lemma act_cases ethers env a w :
  store_invariant w ->
  (exists rd, act ethers env a w = world_intake rd w)
  \/ (exists raw client, act ethers env a w = world_raw_intake raw client w)
  \/ handler_effect ethers env w (act ethers env a w).
Proof.
  intros Hinv. destruct (cuid_fresh w Hinv) as [Hk Hkraw].
  destruct a as [rd | raw client | rid | chain job | job err | chain job | job err];
    simpl.
  - destruct (find_by_requestId (withdrawalRequests w) (request_id rd))
      as [[k r]|] eqn:Hf.
    + rewrite (processNewRequest_duplicate_run _ _ _ _ Hf).
      right; right. apply handler_effect_same.
    + rewrite (processNewRequest_fresh_run _ _ Hf Hk). left. eauto.
  - rewrite (processRawTransactionBroadcast_fresh_run _ _ _ Hkraw).
    right; left. eauto.
  - right; right. apply cancelRequest_effect.
  - right; right. apply multiSigWorker_effect.
  - right; right. apply multiSigWorker_on_failed_effect.
  - right; right. apply rawTxBroadcastWorker_effect.
  - right; right. apply rawTxBroadcastWorker_on_failed_effect.
Qed.

Lemma service_reachable_trace ethers env w :
  service_reachable ethers env w ->
  queue_invariant w /\ Forall (authorised_event ethers env w) (trace w).
Proof.
  intros Hr. pose proof (service_reachable_invariant _ _ _ Hr) as Hinv.
  induction Hr as [|a w Hr IH].
  - split; [|constructor].
    split; simpl; try apply NoDup_nil_2.
    + intros k. rewrite elem_of_nil, lookup_empty. split; [tauto|].
      intros H. apply is_Some_None in H. exact H.
    + intros k. rewrite elem_of_nil, lookup_empty. split; [tauto|].
      intros H. apply is_Some_None in H. exact H.
    + intros q name j H. apply elem_of_nil in H. destruct H.
  - pose proof (service_reachable_invariant _ _ _ Hr) as Hw.
    destruct (IH Hw) as [Hq Ha]. destruct (cuid_fresh w Hw) as [Hk Hkraw].
    destruct (act_cases ethers env a w Hw) as [(rd & ->) | [(raw & cl & ->) | He]].
    + split; [apply intake_queues; assumption | apply intake_authorised; assumption].
    + split; [apply raw_intake_queues; assumption
             | apply raw_intake_authorised; assumption].
    + split; [eapply handler_effect_queues; eassumption
             | eapply handler_effect_authorised; eassumption].
Qed.

(** X22: every transfer the service ever submits goes to the configured
    endpoint, is signed with the key of the service wallet, and is on behalf
    of a stored request: to the token contract and the destination address
    of that request, for its amount converted to minimal units with some
    number of decimals. *)
Theorem transfers_are_of_stored_requests ethers env w rpc signer token to v fee :
  service_reachable ethers env w ->
  EvTransfer rpc signer token to v fee ∈ trace w ->
  rpc = rpcUrl_of env /\ signer = SERVICE_WALLET_PRIVATE_KEY env
  /\ exists k r d,
       withdrawalRequests w !! k = Some r
       /\ token = tokenContractAddress r
       /\ to = destinationAddress r
       /\ parseUnits ethers (amount r) d = Ok v.
Proof.
  intros Hr Hin. destruct (service_reachable_trace _ _ _ Hr) as [_ Ha].
  rewrite Forall_forall in Ha. exact (Ha _ Hin).
Qed.

Lemma transfers_are_of_stored_requests_witness :
  exists k r d,
    withdrawalRequests world_completed !! k = Some r
    /\ "0xUsdt" = tokenContractAddress r
    /\ "0xCustomer" = destinationAddress r
    /\ parseUnits ethers_lib (amount r) d = Ok 1500000000%Z.
Proof.
  refine (proj2 (proj2 (transfers_are_of_stored_requests ethers_lib env0
            world_completed "https://sepolia.example" service_key "0xUsdt"
            "0xCustomer" 1500000000%Z
            {| maxFeePerGas := Some 30%Z; maxPriorityFeePerGas := Some 2%Z |}
            world_completed_service_reachable _))).
  vm_compute. do 5 apply list_elem_of_further. apply list_elem_of_here.
Defined.

(** X23: every raw transaction the service ever broadcasts goes to the
    configured endpoint and is the payload of a stored raw-broadcast row. *)
Theorem raw_broadcasts_are_of_stored_rows ethers env w rpc raw :
  service_reachable ethers env w ->
  EvBroadcastTransaction rpc raw ∈ trace w ->
  rpc = rpcUrl_of env
  /\ exists k r, rawTransactionBroadcasts w !! k = Some r /\ rawTx r = raw.
Proof.
  intros Hr Hin. destruct (service_reachable_trace _ _ _ Hr) as [_ Ha].
  rewrite Forall_forall in Ha. exact (Ha _ Hin).
Qed.

Lemma raw_broadcasts_are_of_stored_rows_witness :
  exists k r,
    rawTransactionBroadcasts world_raw_confirmed !! k = Some r
    /\ rawTx r = "0xf86b01".
Proof.
  refine (proj2 (raw_broadcasts_are_of_stored_rows ethers_lib env0
            world_raw_confirmed "https://sepolia.example" "0xf86b01"
            world_raw_confirmed_service_reachable _)).
  vm_compute. do 2 apply list_elem_of_further. apply list_elem_of_here.
Defined.



(** ** The construction of the service wallet *)

(** X25: a delivery builds the service wallet after the guard and
    before the [try] block.  With a key that the constructor rejects, the
    delivery of a request that is stored and neither COMPLETED nor
    CANCELLED throws what the constructor threw and writes nothing: no
    row, no history entry, no call of the node; the guard is not
    affected, so a request that is absent, COMPLETED or CANCELLED is
    still skipped. *)
Theorem rejected_key_stops_delivery ethers env chain job w e :
  new_Wallet ethers (SERVICE_WALLET_PRIVATE_KEY env) = Throw e ->
  multiSigWorker ethers env chain job w =
    (match withdrawalRequests w !! dbId job with
     | Some r => if in_final_state (status r) then Ok tt else Throw e
     | None => Ok tt
     end, w).
Proof.
  intros Hk. destruct (withdrawalRequests w !! dbId job) as [r|] eqn:Hr.
  - destruct (in_final_state (status r)) eqn:Hs.
    + apply skip_guard. right. exists r. split; [exact Hr|].
      apply in_final_state_spec. exact Hs.
    + exact (multiSigWorker_no_wallet _ _ _ _ _ r e Hr Hs Hk).
  - apply skip_guard. left. exact Hr.
Qed.

(** The key of [.env.example] is a placeholder: the intake accepts the
    request, and its delivery throws before the first write. *)
Lemma rejected_key_stops_delivery_witness :
  multiSigWorker ethers_lib env_example chain_ok first_job world_submitted =
    (Throw invalid_BytesLike, world_submitted).
Proof.
  exact (rejected_key_stops_delivery ethers_lib env_example chain_ok first_job
           world_submitted invalid_BytesLike ltac:(vm_compute; reflexivity)).
Defined.
